(** * GBFS validator: a shallow embedding of the validation engine

    The development follows the packages of the repository:
    - [version]   (pkg/version/version.go): the static requirement table;
    - [coerce]    (the lenient normalizer);
    - [fetcher]   (pkg/fetcher/fetcher.go): retrieval outcomes and URL building;
    - [auth]      (pkg/fetcher/fetcher.go): requests, authentication and the
      token cache behind a fetch;
    - [validator] (the orchestrator, structural and cross-reference checks).

    Go maps are finite maps ([gmap]), slices are lists, [int] and [int64]
    are [Z] (no counter of the program can reach the 64-bit limits: they
    are bounded by slice lengths), pointers to results stored in a map are
    the map's values (updated in place by re-inserting). *)

From Stdlib Require Import ZArith Lia Ascii.
From stdpp Require Import gmap strings list fin_maps pretty.

Local Open Scope string_scope.
Local Open Scope Z_scope.
Local Open Scope list_scope.

(** ** Outcomes of a Go call that may panic *)

Inductive outcome (A : Type) : Type :=
| Ret (a : A)
| Panic (why : string).
Arguments Ret {A} a.
Arguments Panic {A} why.

Definition obind {A B} (x : outcome A) (k : A -> outcome B) : outcome B :=
  match x with
  | Ret a => k a
  | Panic w => Panic w
  end.

(** ** Package version *)

Module version.

(** FileRequirement declares a feed file and its requirement status. *)
Record FileRequirement : Type := mkReq { File : string; Required : bool }.

(** Options selects docked/free-floating requirements. *)
Record Options : Type := mkOptions { Docked : bool; Freefloating : bool }.

(** Config describes requirements for a GBFS version.  [Files] is a Go
    function value: [None] is the nil function of the zero [Config]. *)
Record Config : Type := mkConfig {
  Version : string;
  GBFSRequired : bool;
  Files : option (Options -> list FileRequirement)
}.

Definition zeroConfig : Config :=
  {| Version := ""; GBFSRequired := false; Files := None |}.

Definition files_1_0 (opts : Options) : list FileRequirement :=
  [ mkReq "system_information" true;
    mkReq "station_information" (Docked opts);
    mkReq "station_status" (Docked opts);
    mkReq "free_bike_status" (Freefloating opts);
    mkReq "system_hours" false;
    mkReq "system_calendar" false;
    mkReq "system_regions" false;
    mkReq "system_pricing_plans" false;
    mkReq "system_alerts" false ].

Definition files_1_1 (opts : Options) : list FileRequirement :=
  [ mkReq "gbfs_versions" false;
    mkReq "system_information" true;
    mkReq "station_information" (Docked opts);
    mkReq "station_status" (Docked opts);
    mkReq "free_bike_status" (Freefloating opts);
    mkReq "system_hours" false;
    mkReq "system_calendar" false;
    mkReq "system_regions" false;
    mkReq "system_pricing_plans" false;
    mkReq "system_alerts" false ].

Definition files_2_0 (opts : Options) : list FileRequirement :=
  [ mkReq "gbfs_versions" false;
    mkReq "system_information" true;
    mkReq "station_information" (Docked opts);
    mkReq "station_status" (Docked opts);
    mkReq "free_bike_status" (Freefloating opts);
    mkReq "system_hours" false;
    mkReq "system_calendar" false;
    mkReq "system_regions" false;
    mkReq "system_pricing_plans" false;
    mkReq "system_alerts" false ].

Definition files_2_1 (opts : Options) : list FileRequirement :=
  [ mkReq "gbfs_versions" false;
    mkReq "system_information" true;
    mkReq "vehicle_types" false;
    mkReq "station_information" (Docked opts);
    mkReq "station_status" (Docked opts);
    mkReq "free_bike_status" (Freefloating opts);
    mkReq "system_hours" false;
    mkReq "system_calendar" false;
    mkReq "system_regions" false;
    mkReq "system_pricing_plans" false;
    mkReq "system_alerts" false;
    mkReq "geofencing_zones" false ].

Definition files_2_2 (opts : Options) : list FileRequirement :=
  [ mkReq "gbfs_versions" false;
    mkReq "system_information" true;
    mkReq "vehicle_types" false;
    mkReq "station_information" (Docked opts);
    mkReq "station_status" (Docked opts);
    mkReq "free_bike_status" (Freefloating opts);
    mkReq "system_hours" false;
    mkReq "system_calendar" false;
    mkReq "system_regions" false;
    mkReq "system_pricing_plans" false;
    mkReq "system_alerts" false;
    mkReq "geofencing_zones" false ].

Definition files_2_3 (opts : Options) : list FileRequirement :=
  [ mkReq "gbfs_versions" false;
    mkReq "system_information" true;
    mkReq "vehicle_types" false;
    mkReq "station_information" (Docked opts);
    mkReq "station_status" (Docked opts);
    mkReq "free_bike_status" (Freefloating opts);
    mkReq "system_hours" false;
    mkReq "system_calendar" false;
    mkReq "system_regions" false;
    mkReq "system_pricing_plans" false;
    mkReq "system_alerts" false;
    mkReq "geofencing_zones" false ].

Definition files_3_0 (opts : Options) : list FileRequirement :=
  [ mkReq "manifest" false;
    mkReq "gbfs_versions" false;
    mkReq "system_information" true;
    mkReq "vehicle_types" false;
    mkReq "station_information" (Docked opts);
    mkReq "station_status" (Docked opts);
    mkReq "vehicle_status" (Freefloating opts);
    mkReq "system_regions" false;
    mkReq "system_pricing_plans" false;
    mkReq "system_alerts" false;
    mkReq "geofencing_zones" false ].

Definition files_3_1_RC2 (opts : Options) : list FileRequirement :=
  [ mkReq "manifest" false;
    mkReq "gbfs_versions" false;
    mkReq "system_information" true;
    mkReq "vehicle_types" false;
    mkReq "station_information" (Docked opts);
    mkReq "station_status" (Docked opts);
    mkReq "vehicle_status" (Freefloating opts);
    mkReq "vehicle_availability" false;
    mkReq "system_regions" false;
    mkReq "system_pricing_plans" false;
    mkReq "system_alerts" false;
    mkReq "geofencing_zones" false ].

(** The entries of the map literal [Configs], in source order. *)
Definition configEntries : list (string * Config) :=
  [ ("1.0", mkConfig "1.0" false (Some files_1_0));
    ("1.1", mkConfig "1.1" false (Some files_1_1));
    ("2.0", mkConfig "2.0" true (Some files_2_0));
    ("2.1", mkConfig "2.1" true (Some files_2_1));
    ("2.2", mkConfig "2.2" true (Some files_2_2));
    ("2.3", mkConfig "2.3" true (Some files_2_3));
    ("3.0", mkConfig "3.0" true (Some files_3_0));
    ("3.1-RC2", mkConfig "3.1-RC2" true (Some files_3_1_RC2)) ].

(** Configs maps GBFS versions to their requirements. *)
Definition Configs : gmap string Config := list_to_map configEntries.

(** Go's [m[k]]: the zero value when the key is absent. *)
Definition configAt (v : string) : Config := default zeroConfig (Configs !! v).

(** GetConfig returns a version configuration. *)
Definition GetConfig (v : string) : Config * bool :=
  match Configs !! v with
  | Some cfg => (cfg, true)
  | None => (zeroConfig, false)
  end.

(** GetFileRequirements returns file requirements for a version.  Calling
    a nil [Files] would panic. *)
Definition GetFileRequirements (v : string) (opts : Options)
  : outcome (list FileRequirement) :=
  let cfg :=
    match Configs !! v with
    | Some cfg => cfg
    | None => configAt "3.0"
    end in
  match Files cfg with
  | Some files => Ret (files opts)
  | None => Panic "nil func call"
  end.

(** IsGBFSRequired reports whether gbfs.json is required. *)
Definition IsGBFSRequired (v : string) : bool :=
  match Configs !! v with
  | Some cfg => GBFSRequired cfg
  | None => true
  end.

(** SupportedVersions lists supported GBFS versions. *)
Definition SupportedVersions : list string :=
  ["1.0"; "1.1"; "2.0"; "2.1"; "2.2"; "2.3"; "3.0"; "3.1-RC2"].

(** IsV3OrLater reports whether a version uses v3+ file layouts. *)
Definition IsV3OrLater (v : string) : bool :=
  bool_decide (v = "3.0") || bool_decide (v = "3.1-RC2") || bool_decide (v = "3.1").

(** GetVehicleStatusFileName returns the vehicle status filename. *)
Definition GetVehicleStatusFileName (v : string) : string :=
  if IsV3OrLater v then "vehicle_status" else "free_bike_status".

End version.

(** ** JSON documents

    A document is a tree; [N] is the type of its number leaves.  Objects
    are finite maps: a Go [map[string]interface{}] has one value per key,
    and [json.Marshal] writes keys in sorted order, so the bytes it writes
    are a function of the map's contents. *)

#[warnings="-register-all"]
Inductive json (N : Type) : Type :=
| JNull
| JBool (b : bool)
| JNum (n : N)
| JStr (s : string)
| JArr (l : list (json N))
| JObj (m : gmap string (json N)).
Arguments JNull {N}.
Arguments JBool {N} b.
Arguments JNum {N} n.
Arguments JStr {N} s.
Arguments JArr {N} l.
Arguments JObj {N} m.

(** Rewrite every number leaf. *)
Fixpoint jmap {A B : Type} (f : A -> B) (j : json A) : json B :=
  match j with
  | JNull => JNull
  | JBool b => JBool b
  | JNum n => JNum (f n)
  | JStr s => JStr s
  | JArr l => JArr (map (jmap f) l)
  | JObj m => JObj (jmap f <$> m)
  end.

(** Does every number leaf satisfy [p]? *)
Fixpoint jall {A : Type} (p : A -> bool) (j : json A) : bool :=
  match j with
  | JNum n => p n
  | JArr l => forallb (jall p) l
  | JObj m => map_fold (fun _ v acc => jall p v && acc) true m
  | _ => true
  end.

(** Number of nodes, the measure for induction on documents. *)
Fixpoint jsize {A : Type} (j : json A) : nat :=
  match j with
  | JArr l => S (list_sum (map jsize l))
  | JObj m => S (map_fold (fun _ v acc => (jsize v + acc)%nat) 0%nat m)
  | _ => 1%nat
  end.

(** JSON text as it travels: number leaves are their literals.  A byte
    sequence is either such a text (up to white space, key order and
    repeated keys, which [encoding/json] does not distinguish) or not
    JSON at all. *)
Definition wire : Type := json string.

Inductive bytes : Type :=
| Text (w : wire)
| Malformed (raw : string).

(** ** The Go runtime: float64, strconv and time

    [float64] values, their conversions, and the library parsers the
    coercer calls are taken as an interface; the laws the proofs rely on
    are stated separately in [GoRuntimeLaws]. *)

Class GoRuntime : Type := {
  float64 : Type;
  (** [float64(i)] for an int64 [i] *)
  f64_of_int64 : Z -> float64;
  (** [int64(f)]; the result is implementation-specific out of range *)
  int64_of_f64 : float64 -> Z;
  (** [f == g] *)
  f64_eqb : float64 -> float64 -> bool;
  (** finite: [json.Marshal] rejects NaN and infinities *)
  f64_encodable : float64 -> bool;
  (** [strconv.ParseFloat(s, 64)], [None] when [err != nil] *)
  ParseFloat : string -> option float64;
  (** the literal [encoding/json] writes for a float64 *)
  FormatFloat : float64 -> string;
  (** [time.Parse(layout, s)] followed by [Unix()], [None] when [err != nil] *)
  timeParseUnix : string -> string -> option Z
}.

(** Numbers held in a Go [interface{}]: [json.Unmarshal] produces
    float64 only, the coercer also stores int64. *)
Inductive gonum `{GoRuntime} : Type :=
| GFloat (f : float64)
| GInt (n : Z).

(** A decoded document, [interface{}] in the source. *)
Definition value `{GoRuntime} : Type := json gonum.

Definition minInt64 : Z := - 2 ^ 63.
Definition maxInt64 : Z := 2 ^ 63 - 1.

Section Codec.
Context `{GoRuntime}.

(** [strconv.FormatInt(n, 10)] *)
Definition FormatInt (n : Z) : string := pretty n.

Definition formatNum (n : gonum) : string :=
  match n with
  | GFloat f => FormatFloat f
  | GInt i => FormatInt i
  end.

Definition numEncodable (n : gonum) : bool :=
  match n with
  | GFloat f => f64_encodable f
  | GInt _ => true
  end.

(** [json.Marshal] of an [interface{}] tree; [None] is the
    UnsupportedValueError on NaN or an infinity. *)
Definition Marshal (v : value) : option bytes :=
  if jall numEncodable v then Some (Text (jmap formatNum v)) else None.

Definition literalOK (lit : string) : bool :=
  match ParseFloat lit with Some _ => true | None => false end.

Definition parseLiteral (lit : string) : gonum :=
  GFloat (default (f64_of_int64 0) (ParseFloat lit)).

(** Decoding into [interface{}]: every number becomes a float64. *)
Definition decodeAny (w : wire) : option value :=
  if jall literalOK w then Some (jmap parseLiteral w) else None.

(** Result of [json.Unmarshal(data, &m)] for [m map[string]interface{}]. *)
Inductive mapResult : Type :=
| UErr
| UNil
| UMap (m : gmap string value).

Definition UnmarshalMap (data : bytes) : mapResult :=
  match data with
  | Text (JObj m) =>
      if jall literalOK (JObj m) then UMap (jmap parseLiteral <$> m) else UErr
  | Text JNull => UNil
  | _ => UErr
  end.

(** The dynamic type name printed by [%T]. *)
Definition typeName (v : value) : string :=
  match v with
  | JNull => "<nil>"
  | JBool _ => "bool"
  | JNum (GFloat _) => "float64"
  | JNum (GInt _) => "int64"
  | JStr _ => "string"
  | JArr _ => "[]interface {}"
  | JObj _ => "map[string]interface {}"
  end.

End Codec.

(** ** Package strings and strconv, on byte strings *)

Definition byteOf (a : Ascii.ascii) : Z := Z.of_N (Ascii.N_of_ascii a).

Definition isAsciiSpace (a : Ascii.ascii) : bool :=
  let n := byteOf a in
  (n =? 9) || (n =? 10) || (n =? 11) || (n =? 12) || (n =? 13) || (n =? 32).

(** Length in bytes of the white space rune (as [unicode.IsSpace] has it)
    encoded at the head of [l], or 0.  The non-ASCII ones are U+0085,
    U+00A0, U+1680, U+2000..U+200A, U+2028, U+2029, U+202F, U+205F and
    U+3000 in UTF-8. *)
Definition spaceRuneLen (l : list Z) : nat :=
  match l with
  | 194 :: 133 :: _ => 2%nat
  | 194 :: 160 :: _ => 2%nat
  | 225 :: 154 :: 128 :: _ => 3%nat
  | 226 :: 128 :: c :: _ =>
      if ((128 <=? c) && (c <=? 138)) || (c =? 168) || (c =? 169) || (c =? 175)
      then 3%nat else 0%nat
  | 226 :: 129 :: 159 :: _ => 3%nat
  | 227 :: 128 :: 128 :: _ => 3%nat
  | c :: _ =>
      if (c =? 9) || (c =? 10) || (c =? 11) || (c =? 12) || (c =? 13) || (c =? 32)
      then 1%nat else 0%nat
  | [] => 0%nat
  end.

(** The same, for the rune that ends the reversed list [l]. *)
Definition spaceRuneLenRev (l : list Z) : nat :=
  match l with
  | 133 :: 194 :: _ => 2%nat
  | 160 :: 194 :: _ => 2%nat
  | 128 :: 154 :: 225 :: _ => 3%nat
  | c :: 128 :: 226 :: _ =>
      if ((128 <=? c) && (c <=? 138)) || (c =? 168) || (c =? 169) || (c =? 175)
      then 3%nat else 0%nat
  | 159 :: 129 :: 226 :: _ => 3%nat
  | 128 :: 128 :: 227 :: _ => 3%nat
  | c :: _ =>
      if (c =? 9) || (c =? 10) || (c =? 11) || (c =? 12) || (c =? 13) || (c =? 32)
      then 1%nat else 0%nat
  | [] => 0%nat
  end.

Fixpoint trimWith (len : list Z -> nat) (fuel : nat) (l : list Z) : list Z :=
  match fuel with
  | O => l
  | S fuel' =>
      match len l with
      | O => l
      | n => trimWith len fuel' (drop n l)
      end
  end.

Definition bytesOfString (s : string) : list Z :=
  map byteOf (String.list_ascii_of_string s).

Definition stringOfBytes (l : list Z) : string :=
  String.string_of_list_ascii (map (fun z => Ascii.ascii_of_N (Z.to_N z)) l).

(** [strings.TrimSpace] *)
Definition TrimSpace (s : string) : string :=
  let l := bytesOfString s in
  let l1 := trimWith spaceRuneLen (length l) l in
  let l2 := rev (trimWith spaceRuneLenRev (length l1) (rev l1)) in
  stringOfBytes l2.

Definition lowerByte (a : Ascii.ascii) : Ascii.ascii :=
  let n := byteOf a in
  if (65 <=? n) && (n <=? 90) then Ascii.ascii_of_N (Z.to_N (n + 32)) else a.

(** [strings.ToLower], on the ASCII letters.  The coercer only compares
    the result with ASCII words without [i] or [k]; on those comparisons
    this agrees with the Unicode mapping, whose only non-ASCII letters
    with an ASCII lower case are U+0130 and U+212A. *)
Fixpoint ToLower (s : string) : string :=
  match s with
  | EmptyString => EmptyString
  | String a s' => String (lowerByte a) (ToLower s')
  end.

Fixpoint parseDigits (s : string) (acc : Z) : option Z :=
  match s with
  | EmptyString => Some acc
  | String a s' =>
      let n := byteOf a in
      if (48 <=? n) && (n <=? 57) then parseDigits s' (10 * acc + (n - 48)) else None
  end.

(** An optionally signed, non-empty run of decimal digits. *)
Definition parseDecimal (s : string) : option Z :=
  let '(neg, body) :=
    match s with
    | String "+"%char r => (false, r)
    | String "-"%char r => (true, r)
    | _ => (false, s)
    end in
  match body with
  | EmptyString => None
  | _ => (fun u => if neg : bool then - u else u) <$> parseDigits body 0
  end.

(** [strconv.ParseInt(s, 10, 64)], [None] when [err != nil] (syntax or
    range). *)
Definition ParseInt (s : string) : option Z :=
  match parseDecimal s with
  | Some n => if (minInt64 <=? n) && (n <=? maxInt64) then Some n else None
  | None => None
  end.

(** [strings.HasSuffix] and [strings.TrimSuffix] *)
Definition HasSuffix (s suffix : string) : bool :=
  let n := String.length s in
  let k := String.length suffix in
  (k <=? n)%nat && String.eqb (String.substring (n - k) k s) suffix.

Definition TrimSuffix (s suffix : string) : string :=
  if HasSuffix s suffix
  then String.substring 0 (String.length s - String.length suffix) s
  else s.

(** ** Package coerce: the lenient normalizer *)

Module coerce.

(** Options selects which coercions to apply. *)
Record Options : Type := mkOptions {
  CoerceBooleans : bool;
  CoerceTimestamps : bool;
  CoerceNumericStrings : bool;
  CoerceCoordinates : bool;
  TreatNullAsAbsent : bool;
  AllowExtraFields : bool;
  CoerceEmptyArrays : bool
}.

(** DefaultLenientOptions returns permissive coercion defaults. *)
Definition DefaultLenientOptions : Options :=
  mkOptions true true true true true true true.

(** StrictOptions returns strict coercion defaults. *)
Definition StrictOptions : Options :=
  mkOptions false false false false false false false.

Section WithRuntime.
Context `{GoRuntime}.

(** Coercion captures a single change. *)
Record Coercion : Type := mkCoercion {
  Path : string;
  Field : string;
  FromType : string;
  ToType : string;
  From : value;
  To : value
}.

(** CoercionLog records applied coercions. *)
Definition CoercionLog : Type := list Coercion.

(** Result holds coerced data and the change log. *)
Record Result : Type := mkResult { Data : bytes; Log : CoercionLog }.

(** Coercer applies configured coercions. *)
Record Coercer : Type := mkCoercer { opts : Options; log : CoercionLog }.

(** New constructs a Coercer. *)
Definition New (o : Options) : Coercer := mkCoercer o [].

(** Methods of the coercer read [c.opts] and append to [c.log], which
    nothing reads before [Coerce] returns: a computation is its result
    together with the records it appends, in order. *)
Definition Co (A : Type) : Type := A * CoercionLog.

Definition ret {A} (a : A) : Co A := (a, []).

Definition bind {A B} (m : Co A) (k : A -> Co B) : Co B :=
  let '(b, l) := k m.1 in (b, m.2 ++ l).

Notation "x <- m ;; k" := (bind m (fun x => k))
  (at level 100, m at next level, right associativity).

(** coerceToBool converts a value to bool when possible. *)
Definition coerceToBool (val : value) : bool * bool :=
  match val with
  | JBool v => (v, false)
  | JNum (GFloat v) => (negb (f64_eqb v (f64_of_int64 0)), true)
  | JNum (GInt v) => (negb (v =? 0), true)
  | JStr v =>
      let lower := ToLower (TrimSpace v) in
      if bool_decide (lower ∈ ["true"; "1"; "yes"; "on"]) then (true, true)
      else if bool_decide (lower ∈ ["false"; "0"; "no"; "off"; ""]) then (false, true)
      else (false, false)
  | _ => (false, false)
  end.

(** coerceToInt converts a value to int64 when possible. *)
Definition coerceToInt (val : value) : Z * bool :=
  match val with
  | JNum (GFloat v) => (int64_of_f64 v, false)
  | JNum (GInt v) => (v, false)
  | JStr v =>
      match ParseInt (TrimSpace v) with
      | Some i => (i, true)
      | None =>
          match ParseFloat (TrimSpace v) with
          | Some f => (int64_of_f64 f, true)
          | None => (0, false)
          end
      end
  | _ => (0, false)
  end.

(** coerceToFloat converts a value to float64 when possible. *)
Definition coerceToFloat (val : value) : float64 * bool :=
  match val with
  | JNum (GFloat v) => (v, false)
  | JNum (GInt v) => (f64_of_int64 v, true)
  | JStr v =>
      match ParseFloat (TrimSpace v) with
      | Some f => (f, true)
      | None => (f64_of_int64 0, false)
      end
  | _ => (f64_of_int64 0, false)
  end.

(** coerceToNumber converts a value to int64 or float64 when possible. *)
Definition coerceToNumber (val : value) : value * bool :=
  match val with
  | JNum _ => (val, false)
  | JStr v =>
      let s := TrimSpace v in
      match ParseInt s with
      | Some i => (JNum (GInt i), true)
      | None =>
          match ParseFloat s with
          | Some f => (JNum (GFloat f), true)
          | None => (val, false)
          end
      end
  | _ => (val, false)
  end.

Definition RFC3339 : string := "2006-01-02T15:04:05Z07:00".

Definition timestampFormats : list string :=
  [ "2006-01-02T15:04:05Z07:00";
    "2006-01-02T15:04:05";
    "2006-01-02 15:04:05";
    "2006-01-02" ].

(** The loop over [formats]: the first layout that parses wins. *)
Fixpoint firstFormat (formats : list string) (s : string) : option Z :=
  match formats with
  | [] => None
  | format :: rest =>
      match timeParseUnix format s with
      | Some t => Some t
      | None => firstFormat rest s
      end
  end.

(** coerceTimestamp normalizes POSIX and RFC3339 timestamps. *)
Definition coerceTimestamp (val : value) : value * bool :=
  match val with
  | JNum (GFloat v) =>
      (JNum (GInt (int64_of_f64 v)),
       negb (f64_eqb v (f64_of_int64 (int64_of_f64 v))))
  | JNum (GInt v) => (JNum (GInt v), false)
  | JStr v =>
      let s := TrimSpace v in
      match ParseInt s with
      | Some i => (JNum (GInt i), true)
      | None =>
          match timeParseUnix RFC3339 s with
          | Some _ => (JStr s, false)
          | None =>
              match firstFormat timestampFormats s with
              | Some t => (JNum (GInt t), true)
              | None => (val, false)
              end
          end
      end
  | _ => (val, false)
  end.

(** logCoercion appends a coercion record. *)
Definition logCoercion (path field : string) (from to : value) : Co unit :=
  (tt, [mkCoercion path field (typeName from) (typeName to) from to]).

(** The typed coercers, with their result stored back as [interface{}]. *)
Definition boolRule (val : value) : value * bool :=
  let '(coerced, changed) := coerceToBool val in (JBool coerced, changed).

Definition intRule (val : value) : value * bool :=
  let '(coerced, changed) := coerceToInt val in (JNum (GInt coerced), changed).

Definition floatRule (val : value) : value * bool :=
  let '(coerced, changed) := coerceToFloat val in (JNum (GFloat coerced), changed).

(** The block the source repeats for every field [f] of a map [m]:
<<
    if val, ok := m[f]; ok {
      if coerced, changed := c.coerceX(val); changed {
        c.logCoercion(path, f, val, coerced)
        m[f] = coerced
      }
    }
>> *)
Definition coerceField (rule : value -> value * bool) (path field : string)
    (m : gmap string value) : Co (gmap string value) :=
  match m !! field with
  | Some val =>
      let '(coerced, changed) := rule val in
      if changed : bool
      then _ <- logCoercion path field val coerced ;; ret (<[field := coerced]> m)
      else ret m
  | None => ret m
  end.

(** [for _, field := range fields { ... }] around that block. *)
Fixpoint coerceFields (rule : value -> value * bool) (path : string)
    (fields : list string) (m : gmap string value) : Co (gmap string value) :=
  match fields with
  | [] => ret m
  | field :: rest =>
      m' <- coerceField rule path field m ;; coerceFields rule path rest m'
  end.

Definition isNull (v : value) : bool :=
  match v with JNull => true | _ => false end.

(** [for k, v := range m { if v == nil { delete(m, k) } }] *)
Definition deleteNulls (m : gmap string value) : gmap string value :=
  filter (fun kv => isNull kv.2 = false) m.

Definition when {A} (b : bool) (step : A -> Co A) (a : A) : Co A :=
  if b then step a else ret a.

(** [for i, s := range l { m, ok := s.(map[string]interface{}); if !ok
    { continue }; body }]: the maps are updated in place. *)
Fixpoint forEachMap (body : nat -> gmap string value -> Co (gmap string value))
    (i : nat) (l : list value) : Co (list value) :=
  match l with
  | [] => ret []
  | s :: rest =>
      s' <- match s with
            | JObj m => m' <- body i m ;; ret (JObj m')
            | _ => ret s
            end ;;
      rest' <- forEachMap body (S i) rest ;;
      ret (s' :: rest')
  end.

(** coerceCommonFields normalizes shared fields. *)
Definition coerceCommonFields (o : Options) (data : gmap string value)
    (path : string) : Co (gmap string value) :=
  data <- when (CoerceTimestamps o)
            (coerceField coerceTimestamp path "last_updated") data ;;
  data <- when (CoerceNumericStrings o)
            (coerceField intRule path "ttl") data ;;
  ret (if TreatNullAsAbsent o then deleteNulls data else data).

Definition stationStatusBoolFields : list string :=
  ["is_installed"; "is_renting"; "is_returning"; "is_charging_station"].

Definition stationStatusNumericFields : list string :=
  [ "num_bikes_available"; "num_bikes_disabled";
    "num_docks_available"; "num_docks_disabled";
    "num_vehicles_available"; "num_vehicles_disabled";
    "last_reported" ].

Definition coerceStationStatusEntry (o : Options) (i : nat)
    (station : gmap string value) : Co (gmap string value) :=
  let path := "/data/stations/" +:+ pretty i in
  station <- when (CoerceBooleans o)
               (coerceFields boolRule path stationStatusBoolFields) station ;;
  station <- when (CoerceNumericStrings o)
               (coerceFields intRule path stationStatusNumericFields) station ;;
  station <- when (CoerceTimestamps o)
               (coerceField coerceTimestamp path "last_reported") station ;;
  ret (if TreatNullAsAbsent o then deleteNulls station else station).

(** coerceStationStatus normalizes station_status.json. *)
Definition coerceStationStatus (o : Options) (data : gmap string value)
    : Co (gmap string value) :=
  match data !! "data" with
  | Some (JObj dataObj) =>
      match dataObj !! "stations" with
      | Some (JArr stations) =>
          stations' <- forEachMap (coerceStationStatusEntry o) 0 stations ;;
          ret (<["data" := JObj (<["stations" := JArr stations']> dataObj)]> data)
      | _ => ret data
      end
  | _ => ret data
  end.

Definition stationInformationBoolFields : list string :=
  ["is_valet_station"; "is_virtual_station"; "is_charging_station"].

Definition coerceStationInformationEntry (o : Options) (i : nat)
    (station : gmap string value) : Co (gmap string value) :=
  let path := "/data/stations/" +:+ pretty i in
  station <- when (CoerceCoordinates o)
               (coerceFields floatRule path ["lat"; "lon"]) station ;;
  station <- when (CoerceNumericStrings o)
               (coerceField intRule path "capacity") station ;;
  when (CoerceBooleans o)
    (coerceFields boolRule path stationInformationBoolFields) station.

(** coerceStationInformation normalizes station_information.json. *)
Definition coerceStationInformation (o : Options) (data : gmap string value)
    : Co (gmap string value) :=
  match data !! "data" with
  | Some (JObj dataObj) =>
      match dataObj !! "stations" with
      | Some (JArr stations) =>
          stations' <- forEachMap (coerceStationInformationEntry o) 0 stations ;;
          ret (<["data" := JObj (<["stations" := JArr stations']> dataObj)]> data)
      | _ => ret data
      end
  | _ => ret data
  end.

Definition vehicleBoolFields : list string := ["is_reserved"; "is_disabled"].

Definition vehicleNumericFields : list string :=
  ["current_range_meters"; "current_fuel_percent"; "last_reported"].

Definition coerceVehicleEntry (o : Options) (vehiclesKey : string) (i : nat)
    (vehicle : gmap string value) : Co (gmap string value) :=
  let path := "/data/" +:+ vehiclesKey +:+ "/" +:+ pretty i in
  vehicle <- when (CoerceCoordinates o)
               (coerceFields floatRule path ["lat"; "lon"]) vehicle ;;
  vehicle <- when (CoerceBooleans o)
               (coerceFields boolRule path vehicleBoolFields) vehicle ;;
  vehicle <- when (CoerceNumericStrings o)
               (coerceFields intRule path vehicleNumericFields) vehicle ;;
  when (CoerceTimestamps o)
    (coerceField coerceTimestamp path "last_reported") vehicle.

(** coerceVehicleStatus normalizes vehicle_status.json or
    free_bike_status.json. *)
Definition coerceVehicleStatus (o : Options) (data : gmap string value)
    : Co (gmap string value) :=
  match data !! "data" with
  | Some (JObj dataObj) =>
      let run (vehiclesKey : string) (vehicles : list value) :=
        vehicles' <- forEachMap (coerceVehicleEntry o vehiclesKey) 0 vehicles ;;
        ret (<["data" := JObj (<[vehiclesKey := JArr vehicles']> dataObj)]> data) in
      match dataObj !! "vehicles" with
      | Some (JArr v) => run "vehicles" v
      | _ =>
          match dataObj !! "bikes" with
          | Some (JArr b) => run "bikes" b
          | _ => ret data
          end
      end
  | _ => ret data
  end.

Definition vehicleTypeNumericFields : list string :=
  [ "max_range_meters"; "wheel_count"; "max_permitted_speed";
    "rated_power"; "default_reserve_time"; "cargo_volume_capacity";
    "cargo_load_capacity" ].

Definition coerceVehicleTypeEntry (o : Options) (i : nat)
    (vehicleType : gmap string value) : Co (gmap string value) :=
  let path := "/data/vehicle_types/" +:+ pretty i in
  when (CoerceNumericStrings o)
    (coerceFields coerceToNumber path vehicleTypeNumericFields) vehicleType.

(** coerceVehicleTypes normalizes vehicle_types.json. *)
Definition coerceVehicleTypes (o : Options) (data : gmap string value)
    : Co (gmap string value) :=
  match data !! "data" with
  | Some (JObj dataObj) =>
      match dataObj !! "vehicle_types" with
      | Some (JArr vehicleTypes) =>
          vehicleTypes' <- forEachMap (coerceVehicleTypeEntry o) 0 vehicleTypes ;;
          ret (<["data" := JObj (<["vehicle_types" := JArr vehicleTypes']> dataObj)]> data)
      | _ => ret data
      end
  | _ => ret data
  end.

(** coerceSystemInformation normalizes system_information.json. *)
Definition coerceSystemInformation (o : Options) (data : gmap string value)
    : Co (gmap string value) :=
  match data !! "data" with
  | Some (JObj dataObj) =>
      dataObj' <- when (CoerceTimestamps o)
                    (coerceFields coerceTimestamp "/data" ["start_date"; "end_date"])
                    dataObj ;;
      ret (<["data" := JObj dataObj']> data)
  | _ => ret data
  end.

Definition coerceRule (o : Options) (path : string) (j : nat)
    (rule : gmap string value) : Co (gmap string value) :=
  let rulePath := path +:+ "/rules/" +:+ pretty j in
  rule <- when (CoerceBooleans o)
            (coerceField boolRule rulePath "ride_through_allowed") rule ;;
  when (CoerceNumericStrings o)
    (coerceFields coerceToNumber rulePath ["maximum_speed_kph"; "station_parking"])
    rule.

Definition coerceFeature (o : Options) (i : nat)
    (feature : gmap string value) : Co (gmap string value) :=
  match feature !! "properties" with
  | Some (JObj props) =>
      let path := "/data/geofencing_zones/features/" +:+ pretty i +:+ "/properties" in
      match props !! "rules" with
      | Some (JArr rules) =>
          rules' <- forEachMap (coerceRule o path) 0 rules ;;
          ret (<["properties" := JObj (<["rules" := JArr rules']> props)]> feature)
      | _ => ret feature
      end
  | _ => ret feature
  end.

(** coerceGeofencingZones normalizes geofencing_zones.json. *)
Definition coerceGeofencingZones (o : Options) (data : gmap string value)
    : Co (gmap string value) :=
  match data !! "data" with
  | Some (JObj dataObj) =>
      match dataObj !! "geofencing_zones" with
      | Some (JObj zonesFC) =>
          match zonesFC !! "features" with
          | Some (JArr features) =>
              features' <- forEachMap (coerceFeature o) 0 features ;;
              ret (<["data" :=
                       JObj (<["geofencing_zones" :=
                                 JObj (<["features" := JArr features']> zonesFC)]>
                               dataObj)]> data)
          | _ => ret data
          end
      | _ => ret data
      end
  | _ => ret data
  end.

(** The [switch feedType] of [Coerce]. *)
Definition coerceByType (o : Options) (feedType : string)
    (jsonData : gmap string value) : Co (gmap string value) :=
  if bool_decide (feedType = "station_status") then coerceStationStatus o jsonData
  else if bool_decide (feedType = "station_information") then coerceStationInformation o jsonData
  else if bool_decide (feedType = "vehicle_status") || bool_decide (feedType = "free_bike_status")
    then coerceVehicleStatus o jsonData
  else if bool_decide (feedType = "vehicle_types") then coerceVehicleTypes o jsonData
  else if bool_decide (feedType = "system_information") then coerceSystemInformation o jsonData
  else if bool_decide (feedType = "geofencing_zones") then coerceGeofencingZones o jsonData
  else ret jsonData.

(** Coerce normalizes JSON data for a feed type.  The first component is
    [None] when an error is returned; the second is the coercer after the
    call ([c.log] is reset on entry).  A nil map ([null] on the wire)
    reads as the empty map and is written back as [null]. *)
Definition Coerce (c : Coercer) (data : bytes) (feedType : string)
    : option Result * Coercer :=
  let o := opts c in
  let run (isNil : bool) (jsonData : gmap string value) :=
    let '(jsonData', l) :=
      (jsonData <- coerceCommonFields o jsonData "" ;;
       coerceByType o feedType jsonData) in
    match Marshal (if isNil then JNull else JObj jsonData') with
    | Some coercedData => (Some (mkResult coercedData l), mkCoercer o l)
    | None => (None, mkCoercer o l)
    end in
  match UnmarshalMap data with
  | UErr => (None, mkCoercer o [])
  | UNil => run true ∅
  | UMap jsonData => run false jsonData
  end.

(** GetLog returns the current coercion log. *)
Definition GetLog (c : Coercer) : CoercionLog := log c.

End WithRuntime.

End coerce.

(** ** Package gbfs: the typed documents

    Only the fields the validator reads are kept.  Decoding bytes into
    these structs is [encoding/json]'s work and is taken as an interface
    ([JSONDecoder]); [None] is a returned error. *)

Module gbfs.

(** FeedInfo is a name/URL pair from autodiscovery. *)
Module FeedInfo.
Record t : Type := mk { Name : string; URL : string }.
End FeedInfo.

(** GBFSFeed represents the gbfs.json autodiscovery file: the header's
    [ttl] and [version], and [data.feeds] as [GBFSData.UnmarshalJSON]
    resolved it. *)
Module GBFSFeed.
Record t : Type := mk { TTL : Z; Version : string; Feeds : list FeedInfo.t }.
End GBFSFeed.

(** VehicleType describes a vehicle type. *)
Module VehicleType.
Record t : Type := mk {
  VehicleTypeID : string;
  PropulsionType : string;
  DefaultPricingPlanID : string
}.
Definition zero : t := mk "" "" "".
End VehicleType.

(** Vehicle describes a vehicle status entry. *)
Module Vehicle.
Record t `{GoRuntime} : Type := mk {
  VehicleTypeID : string;
  PricingPlanID : string;
  CurrentRangeMeters : float64
}.
Arguments mk {_} _ _ _.
End Vehicle.

(** VehicleStatusData contains vehicles or bikes arrays. *)
Module VehicleStatusData.
Record t `{GoRuntime} : Type := mk {
  Vehicles : list Vehicle.t;
  Bikes : list Vehicle.t
}.
Arguments mk {_} _ _.
End VehicleStatusData.

(** GetVehicles returns vehicles for any version. *)
Definition GetVehicles `{GoRuntime} (d : VehicleStatusData.t) : list Vehicle.t :=
  if (0 <? length (VehicleStatusData.Vehicles d))%nat
  then VehicleStatusData.Vehicles d
  else VehicleStatusData.Bikes d.

(** PricingPlan describes a pricing plan. *)
Module PricingPlan.
Record t : Type := mk { PlanID : string }.
End PricingPlan.

(** Station describes a station entry. *)
Module Station.
Record t : Type := mk { StationID : string }.
End Station.

(** StationStatusEntry describes a station's status. *)
Module StationStatusEntry.
Record t : Type := mk { StationID : string }.
End StationStatusEntry.

End gbfs.

(** [json.Unmarshal] into the typed documents. *)
Class JSONDecoder `{GoRuntime} : Type := {
  decodeGBFSFeed : bytes -> option gbfs.GBFSFeed.t;
  decodeVehicleTypes : bytes -> option (list gbfs.VehicleType.t);
  decodeVehicleStatus : bytes -> option gbfs.VehicleStatusData.t;
  decodePricingPlans : bytes -> option (list gbfs.PricingPlan.t);
  decodeStationInformation : bytes -> option (list gbfs.Station.t);
  decodeStationStatus : bytes -> option (list gbfs.StationStatusEntry.t);
  (** the text of the error [json.Unmarshal] returns on these bytes *)
  decodeErrorText : bytes -> string
}.

(** ** Package fetcher *)

Module fetcher.

(** What the HTTP client and the authentication step answer for a URL
    within one run.  The requests behind an answer, the OAuth token
    request among them, are in the module [auth] below; they are not part
    of the history [validator.Net] records, which holds the calls of
    [Fetch]. *)
Inductive httpReply : Type :=
| BadRequest (err : string)
| AuthFailed (err : string)
| DoFailed (err : string)
| Response (status : Z) (body : option bytes) (readErr : string).

Class Network : Type := { roundTrip : string -> httpReply }.

(** FetchResult captures a fetch outcome. *)
Record FetchResult : Type := mkFetchResult {
  URL : string;
  Body : option bytes;
  StatusCode : Z;
  Error : option string;
  Exists : bool
}.

(** Fetch retrieves a URL and returns the raw response body. *)
Definition Fetch `{Network} (targetURL : string) : FetchResult :=
  match roundTrip targetURL with
  | BadRequest err =>
      mkFetchResult targetURL None 0 (Some ("failed to create request: " +:+ err)) false
  | AuthFailed err =>
      mkFetchResult targetURL None 0 (Some ("failed to apply authentication: " +:+ err)) false
  | DoFailed err =>
      mkFetchResult targetURL None 0 (Some ("failed to fetch URL: " +:+ err)) false
  | Response status body readErr =>
      if status =? 404 then mkFetchResult targetURL None status None false
      else if negb (status =? 200)
      then mkFetchResult targetURL None status
             (Some ("unexpected status code: " +:+ pretty status)) false
      else
        match body with
        | None =>
            mkFetchResult targetURL None status
              (Some ("failed to read response body: " +:+ readErr)) false
        | Some b => mkFetchResult targetURL (Some b) status None true
        end
  end.

(** BuildFeedURL builds a feed URL from a base URL and feed name. *)
Definition BuildFeedURL (baseURL feedName : string) : string :=
  if HasSuffix baseURL "/" then baseURL +:+ feedName +:+ ".json"
  else if HasSuffix baseURL "gbfs.json"
  then TrimSuffix baseURL "gbfs.json" +:+ feedName +:+ ".json"
  else baseURL +:+ "/" +:+ feedName +:+ ".json".

End fetcher.

(** ** Package validator *)

Module validator.

(** ValidationSeverity indicates the severity of a validation issue. *)
Inductive ValidationSeverity : Type :=
| SeverityError
| SeverityWarning
| SeverityInfo.

#[global] Instance ValidationSeverity_eq_dec : EqDecision ValidationSeverity.
Proof. solve_decision. Defined.

(** ValidationError represents a single validation issue ([SchemaPath]
    and [Keyword] are never set by the validator and are left out). *)
Module ValidationError.
Record t : Type := mk {
  Severity : ValidationSeverity;
  Message : string;
  InstancePath : string
}.
End ValidationError.

(** FileValidationResult holds validation results for a file. *)
Module FileValidationResult.
Record t : Type := mk {
  File : string;
  URL : string;
  Required : bool;
  Recommended : bool;
  Exists : bool;
  HasErrors : bool;
  ErrorsCount : Z;
  Errors : list ValidationError.t;
  RawData : option bytes;
  CoercedData : option bytes;
  CoercionCount : Z
}.

(** The zero value with [File] and [Required] set. *)
Definition new (file : string) (required : bool) : t :=
  mk file "" required false false false 0 [] None None 0.

Definition setURL (u : string) (r : t) : t :=
  mk (File r) u (Required r) (Recommended r) (Exists r) (HasErrors r)
     (ErrorsCount r) (Errors r) (RawData r) (CoercedData r) (CoercionCount r).

Definition setRequired (b : bool) (r : t) : t :=
  mk (File r) (URL r) b (Recommended r) (Exists r) (HasErrors r)
     (ErrorsCount r) (Errors r) (RawData r) (CoercedData r) (CoercionCount r).

Definition setRecommended (b : bool) (r : t) : t :=
  mk (File r) (URL r) (Required r) b (Exists r) (HasErrors r)
     (ErrorsCount r) (Errors r) (RawData r) (CoercedData r) (CoercionCount r).

Definition setExists (b : bool) (r : t) : t :=
  mk (File r) (URL r) (Required r) (Recommended r) b (HasErrors r)
     (ErrorsCount r) (Errors r) (RawData r) (CoercedData r) (CoercionCount r).

Definition setHasErrors (b : bool) (r : t) : t :=
  mk (File r) (URL r) (Required r) (Recommended r) (Exists r) b
     (ErrorsCount r) (Errors r) (RawData r) (CoercedData r) (CoercionCount r).

Definition setErrorsCount (n : Z) (r : t) : t :=
  mk (File r) (URL r) (Required r) (Recommended r) (Exists r) (HasErrors r)
     n (Errors r) (RawData r) (CoercedData r) (CoercionCount r).

Definition setErrors (es : list ValidationError.t) (r : t) : t :=
  mk (File r) (URL r) (Required r) (Recommended r) (Exists r) (HasErrors r)
     (ErrorsCount r) es (RawData r) (CoercedData r) (CoercionCount r).

Definition setRawData (b : option bytes) (r : t) : t :=
  mk (File r) (URL r) (Required r) (Recommended r) (Exists r) (HasErrors r)
     (ErrorsCount r) (Errors r) b (CoercedData r) (CoercionCount r).

Definition setCoerced (b : option bytes) (n : Z) (r : t) : t :=
  mk (File r) (URL r) (Required r) (Recommended r) (Exists r) (HasErrors r)
     (ErrorsCount r) (Errors r) (RawData r) b n.
End FileValidationResult.

(** CoercionSummary summarizes applied coercions. *)
Module CoercionSummary.
Record t : Type := mk { TotalCoercions : Z; ByField : gmap string Z }.
End CoercionSummary.

(** VersionInfo tracks detected and validated versions. *)
Module VersionInfo.
Record t : Type := mk { Detected : string; Validated : string }.
End VersionInfo.

(** ValidationSummary summarizes a validation run. *)
Module ValidationSummary.
Record t : Type := mk {
  ValidatorVersion : string;
  Version : VersionInfo.t;
  HasErrors : bool;
  ErrorsCount : Z;
  VersionUnimplemented : bool;
  LenientMode : bool;
  CoercionSummary : option CoercionSummary.t
}.
End ValidationSummary.

(** ValidationResult is the full validation output. *)
Module ValidationResult.
Record t : Type := mk {
  Summary : ValidationSummary.t;
  Files : list FileValidationResult.t
}.
End ValidationResult.

(** CoerceOptions selects coercions for lenient mode. *)
Module CoerceOptions.
Record t : Type := mk {
  CoerceBooleans : bool;
  CoerceTimestamps : bool;
  CoerceNumericStrings : bool;
  CoerceCoordinates : bool;
  TreatNullAsAbsent : bool
}.
End CoerceOptions.

(** DefaultCoerceOptions returns the default lenient coercions. *)
Definition DefaultCoerceOptions : CoerceOptions.t :=
  CoerceOptions.mk true true true true true.

(** Options configures validator behavior. *)
Module Options.
Record t : Type := mk {
  Docked : bool;
  Freefloating : bool;
  Version : string;
  LenientMode : bool;
  CoerceOptions : option CoerceOptions.t
}.
End Options.

Import ValidationError FileValidationResult.

Definition issue (sev : ValidationSeverity) (msg path : string) : ValidationError.t :=
  ValidationError.mk sev msg path.

(** isMotorized reports whether a propulsion type is motorized. *)
Definition isMotorized (propulsionType : string) : bool :=
  bool_decide (propulsionType ∈
    [ "electric"; "electric_assist"; "combustion"; "combustion_diesel";
      "hybrid"; "plug_in_hybrid"; "hydrogen_fuel_cell" ]).

(** [result.Errors = append(result.Errors, e); result.HasErrors = true;
    result.ErrorsCount++] *)
Definition recordError (e : ValidationError.t) (r : FileValidationResult.t)
    : FileValidationResult.t :=
  setErrorsCount (ErrorsCount r + 1) (setHasErrors true (setErrors (Errors r ++ [e]) r)).

(** [result.Errors = append(result.Errors, e)] alone. *)
Definition appendIssue (e : ValidationError.t) (r : FileValidationResult.t)
    : FileValidationResult.t :=
  setErrors (Errors r ++ [e]) r.

(** [result.HasErrors = true; result.ErrorsCount = 1; result.Errors =
    []ValidationError{e}] *)
Definition failWith (e : ValidationError.t) (r : FileValidationResult.t)
    : FileValidationResult.t :=
  setErrors [e] (setErrorsCount 1 (setHasErrors true r)).

(** [if len(es) > 0 { result.HasErrors = true; result.Errors = es;
    result.ErrorsCount = len(es) }] *)
Definition withSchemaErrors (es : list ValidationError.t) (r : FileValidationResult.t)
    : FileValidationResult.t :=
  if (0 <? length es)%nat
  then setErrorsCount (Z.of_nat (length es)) (setErrors es (setHasErrors true r))
  else r.

(** [for i, x := range l] threading an accumulator. *)
Fixpoint foldIndexed {A B : Type} (f : nat -> A -> B -> B) (i : nat) (l : list A)
    (b : B) : B :=
  match l with
  | [] => b
  | x :: rest => foldIndexed f (S i) rest (f i x b)
  end.

Section WithRuntime.
Context `{JSONDecoder} `{fetcher.Network}.

(** Validator validates GBFS feeds; its fetcher is the [Network]. *)
Record Validator : Type := mkValidator {
  options : Options.t;
  coercer : option coerce.Coercer
}.

(** New constructs a Validator. *)
Definition New (o : Options.t) : Validator :=
  mkValidator o
    (if Options.LenientMode o
     then
       Some (coerce.New
         match Options.CoerceOptions o with
         | Some co =>
             coerce.mkOptions
               (CoerceOptions.CoerceBooleans co)
               (CoerceOptions.CoerceTimestamps co)
               (CoerceOptions.CoerceNumericStrings co)
               (CoerceOptions.CoerceCoordinates co)
               (CoerceOptions.TreatNullAsAbsent co)
               false false
         | None => coerce.DefaultLenientOptions
         end)
     else None).

(** Calls of [v.fetcher.Fetch] are recorded: the state is the list of
    URLs requested so far. *)
Definition Net (A : Type) : Type := list string -> A * list string.

Definition ret {A} (a : A) : Net A := fun tr => (a, tr).

Definition bind {A B} (m : Net A) (k : A -> Net B) : Net B :=
  fun tr => let '(a, tr') := m tr in k a tr'.

Notation "x <- m ;; k" := (bind m (fun x => k))
  (at level 100, m at next level, right associativity).

Definition fetch (url : string) : Net fetcher.FetchResult :=
  fun tr => (fetcher.Fetch url, tr ++ [url]).

Definition isSome {A} (o : option A) : bool :=
  match o with Some _ => true | None => false end.

(** [%v] of an error value. *)
Definition errorText (e : option string) : string := default "<nil>" e.

(** A nil byte slice is the empty input. *)
Definition bodyBytes (b : option bytes) : bytes := default (Malformed "") b.

(** validateGBFSStructure checks gbfs.json structure. *)
Definition validateGBFSStructure (feed : gbfs.GBFSFeed.t) : list ValidationError.t :=
  let feeds := gbfs.GBFSFeed.Feeds feed in
  (if gbfs.GBFSFeed.TTL feed <? 0
   then [issue SeverityError "ttl must be non-negative" "/ttl"] else [])
  ++ (if (length feeds =? 0)%nat
      then [issue SeverityError "data.feeds array is required and must not be empty"
              "/data/feeds"]
      else [])
  ++ concat (imap (fun i f =>
       (if String.eqb (gbfs.FeedInfo.Name f) ""
        then [issue SeverityError "feed name is required"
                ("/data/feeds/" +:+ pretty i +:+ "/name")]
        else [])
       ++ (if String.eqb (gbfs.FeedInfo.URL f) ""
           then [issue SeverityError "feed url is required"
                   ("/data/feeds/" +:+ pretty i +:+ "/url")]
           else [])) feeds).

(** validateGBFS fetches and validates gbfs.json. *)
Definition validateGBFS (v : Validator) (gbfsURL : string)
    : Net (FileValidationResult.t * option gbfs.GBFSFeed.t * option string) :=
  let result :=
    setRecommended true (FileValidationResult.new "gbfs.json" true) in
  let result := setURL gbfsURL result in
  fetchResult <- fetch gbfsURL ;;
  fetched <-
    (if isSome (fetcher.Error fetchResult) && negb (HasSuffix gbfsURL "gbfs.json")
     then
       let altURL := fetcher.BuildFeedURL gbfsURL "gbfs" in
       fetchResult <- fetch altURL ;;
       ret (fetchResult,
            if isSome (fetcher.Error fetchResult) then result else setURL altURL result)
     else ret (fetchResult, result)) ;;
  let '(fetchResult, result) := fetched in
  if isSome (fetcher.Error fetchResult) || negb (fetcher.Exists fetchResult)
  then
    let result := setExists false result in
    let result :=
      if version.IsGBFSRequired (Options.Version (options v))
      then failWith (issue SeverityError "gbfs.json is required but not found" "") result
      else result in
    ret (result, None, Some "gbfs.json not found")
  else
    let result := setRawData (fetcher.Body fetchResult) (setExists true result) in
    let body := bodyBytes (fetcher.Body fetchResult) in
    match decodeGBFSFeed body with
    | None =>
        let err := decodeErrorText body in
        ret (failWith (issue SeverityError ("Failed to parse gbfs.json: " +:+ err) "")
               result,
             None, Some err)
    | Some feed =>
        ret (withSchemaErrors (validateGBFSStructure feed) result, Some feed, None)
    end.

(** buildFeedURLMap maps feed names to URLs. *)
Definition buildFeedURLMap (feed : gbfs.GBFSFeed.t) (baseURL : string)
    : gmap string string :=
  foldl (fun urls f => <[gbfs.FeedInfo.Name f := gbfs.FeedInfo.URL f]> urls) ∅
    (gbfs.GBFSFeed.Feeds feed).

Definition hasKey (m : gmap string value) (k : string) : bool := isSome (m !! k).

Definition requireKey (m : gmap string value) (k msg path : string)
    : list ValidationError.t :=
  if hasKey m k then [] else [issue SeverityError msg path].

(** validateSystemInformation checks system_information.json structure. *)
Definition validateSystemInformation (data : gmap string value) (ver : string)
    : list ValidationError.t :=
  match data !! "data" with
  | Some (JObj dataObj) =>
      requireKey dataObj "system_id" "system_id is required" "/data/system_id"
      ++ requireKey dataObj "timezone" "timezone is required" "/data/timezone"
      ++ requireKey dataObj "name" "name is required" "/data/name"
  | _ => []
  end.

(** [for i, s := range l { m, ok := s.(map[string]interface{}); if !ok
    { continue }; errors = append(errors, check(i, m)...) }] *)
Definition checkEntries (check : nat -> gmap string value -> list ValidationError.t)
    (l : list value) : list ValidationError.t :=
  concat (imap (fun i s => match s with JObj m => check i m | _ => [] end) l).

Definition stationInformationEntry (i : nat) (station : gmap string value)
    : list ValidationError.t :=
  let at_ f := "/data/stations/" +:+ pretty i +:+ "/" +:+ f in
  requireKey station "station_id" "station_id is required" (at_ "station_id")
  ++ requireKey station "lat" "lat is required" (at_ "lat")
  ++ requireKey station "lon" "lon is required" (at_ "lon").

(** validateStationInformation checks station_information.json structure. *)
Definition validateStationInformation (data : gmap string value) (ver : string)
    : list ValidationError.t :=
  match data !! "data" with
  | Some (JObj dataObj) =>
      match dataObj !! "stations" with
      | Some (JArr stations) => checkEntries stationInformationEntry stations
      | _ => [issue SeverityError "stations array is required" "/data/stations"]
      end
  | _ => []
  end.

Definition mustBeBool (i : nat) (station : gmap string value) (field : string)
    : list ValidationError.t :=
  match station !! field with
  | Some (JBool _) => []
  | Some _ =>
      [issue SeverityError (field +:+ " must be a boolean")
         ("/data/stations/" +:+ pretty i +:+ "/" +:+ field)]
  | None => []
  end.

Definition stationStatusEntry (i : nat) (station : gmap string value)
    : list ValidationError.t :=
  requireKey station "station_id" "station_id is required"
    ("/data/stations/" +:+ pretty i +:+ "/station_id")
  ++ concat (map (mustBeBool i station) ["is_installed"; "is_renting"; "is_returning"]).

(** validateStationStatus checks station_status.json structure. *)
Definition validateStationStatus (data : gmap string value) (ver : string)
    : list ValidationError.t :=
  match data !! "data" with
  | Some (JObj dataObj) =>
      match dataObj !! "stations" with
      | Some (JArr stations) => checkEntries stationStatusEntry stations
      | _ => [issue SeverityError "stations array is required" "/data/stations"]
      end
  | _ => []
  end.

Definition vehicleEntry (i : nat) (vehicle : gmap string value)
    : list ValidationError.t :=
  if hasKey vehicle "vehicle_id" || hasKey vehicle "bike_id" then []
  else [issue SeverityError "vehicle_id or bike_id is required"
          ("/data/vehicles/" +:+ pretty i)].

(** validateVehicleStatus checks vehicle status feed structure. *)
Definition validateVehicleStatus (data : gmap string value) (ver : string)
    : list ValidationError.t :=
  match data !! "data" with
  | Some (JObj dataObj) =>
      match dataObj !! "vehicles" with
      | Some (JArr v) => checkEntries vehicleEntry v
      | _ =>
          match dataObj !! "bikes" with
          | Some (JArr b) => checkEntries vehicleEntry b
          | _ =>
              [issue SeverityError "vehicles or bikes array is required" "/data/vehicles"]
          end
      end
  | _ => []
  end.

Definition vehicleTypeEntry (i : nat) (vehicleType : gmap string value)
    : list ValidationError.t :=
  let at_ f := "/data/vehicle_types/" +:+ pretty i +:+ "/" +:+ f in
  requireKey vehicleType "vehicle_type_id" "vehicle_type_id is required"
    (at_ "vehicle_type_id")
  ++ requireKey vehicleType "form_factor" "form_factor is required" (at_ "form_factor")
  ++ requireKey vehicleType "propulsion_type" "propulsion_type is required"
       (at_ "propulsion_type")
  ++ match vehicleType !! "propulsion_type" with
     | Some (JStr pt) =>
         if isMotorized pt && negb (hasKey vehicleType "max_range_meters")
         then [issue SeverityWarning "max_range_meters is required for motorized vehicles"
                 (at_ "max_range_meters")]
         else []
     | _ => []
     end.

(** validateVehicleTypes checks vehicle_types.json structure. *)
Definition validateVehicleTypes (data : gmap string value) (ver : string)
    : list ValidationError.t :=
  match data !! "data" with
  | Some (JObj dataObj) =>
      match dataObj !! "vehicle_types" with
      | Some (JArr vehicleTypes) => checkEntries vehicleTypeEntry vehicleTypes
      | _ => [issue SeverityError "vehicle_types array is required" "/data/vehicle_types"]
      end
  | _ => []
  end.

(** The [switch feedType] of [validateFileStructure]. *)
Definition validateByType (feedType : string) (jsonData : gmap string value)
    (ver : string) : list ValidationError.t :=
  if bool_decide (feedType = "system_information")
  then validateSystemInformation jsonData ver
  else if bool_decide (feedType = "station_information")
  then validateStationInformation jsonData ver
  else if bool_decide (feedType = "station_status")
  then validateStationStatus jsonData ver
  else if bool_decide (feedType = "vehicle_status") || bool_decide (feedType = "free_bike_status")
  then validateVehicleStatus jsonData ver
  else if bool_decide (feedType = "vehicle_types")
  then validateVehicleTypes jsonData ver
  else [].

(** validateFileStructure checks a feed file's basic structure. *)
Definition validateFileStructure (data : bytes) (feedType ver : string)
    : list ValidationError.t :=
  let checks (jsonData : gmap string value) :=
    (if hasKey jsonData "last_updated" then []
     else [issue SeverityError "last_updated is required" "/last_updated"])
    ++ (if hasKey jsonData "ttl" then []
        else [issue SeverityWarning "ttl is recommended" "/ttl"])
    ++ (if hasKey jsonData "data" then []
        else [issue SeverityError "data object is required" "/data"])
    ++ validateByType feedType jsonData ver in
  match UnmarshalMap data with
  | UErr => [issue SeverityError ("Invalid JSON: " +:+ decodeErrorText data) ""]
  | UNil => checks ∅
  | UMap jsonData => checks jsonData
  end.

(** The body of one goroutine of [validateFiles]. *)
Definition validateFile (v : Validator) (feedURLs : gmap string string)
    (ver : string) (req : version.FileRequirement) : Net FileValidationResult.t :=
  let file := version.File req in
  let result := FileValidationResult.new (file +:+ ".json") (version.Required req) in
  match feedURLs !! file with
  | None =>
      let result := setExists false result in
      ret (if version.Required req
           then failWith
                  (issue SeverityError
                     ("Required file " +:+ file +:+ ".json not found in autodiscovery") "")
                  result
           else result)
  | Some url =>
      let result := setURL url result in
      fetchResult <- fetch url ;;
      if isSome (fetcher.Error fetchResult) || negb (fetcher.Exists fetchResult)
      then
        let result := setExists false result in
        ret (if version.Required req
             then failWith
                    (issue SeverityError
                       ("Required file " +:+ file +:+ ".json could not be fetched: "
                        +:+ errorText (fetcher.Error fetchResult)) "")
                    result
             else result)
      else
        let result := setRawData (fetcher.Body fetchResult) (setExists true result) in
        let body := bodyBytes (fetcher.Body fetchResult) in
        let '(dataToValidate, result) :=
          match coercer v with
          | Some c =>
              match fst (coerce.Coerce c body file) with
              | Some coerceResult =>
                  (coerce.Data coerceResult,
                   setCoerced (Some (coerce.Data coerceResult))
                     (Z.of_nat (length (coerce.Log coerceResult))) result)
              | None => (body, result)
              end
          | None => (body, result)
          end in
        ret (withSchemaErrors (validateFileStructure dataToValidate file ver) result)
  end.

(** The goroutines are run in the order of [requirements], one of the
    schedules.  Each writes one key of [results] under the mutex and the
    network answers a URL the same way whenever it is asked, so under
    another schedule the requests come in another order.  The source's
    goroutines also share the coercer, whose log [Coerce] resets and
    appends to without a lock: the bytes [Coerce] returns do not depend
    on the log, but the coercion count recorded for a document is that of
    this schedule, in which no two documents are coerced at one time. *)
Fixpoint validateFilesFrom (v : Validator) (feedURLs : gmap string string)
    (ver : string) (requirements : list version.FileRequirement)
    (results : gmap string FileValidationResult.t)
    : Net (gmap string FileValidationResult.t) :=
  match requirements with
  | [] => ret results
  | req :: rest =>
      result <- validateFile v feedURLs ver req ;;
      validateFilesFrom v feedURLs ver rest (<[version.File req := result]> results)
  end.

(** validateFiles fetches and validates required files. *)
Definition validateFiles (v : Validator) (feedURLs : gmap string string)
    (requirements : list version.FileRequirement) (ver : string)
    : Net (gmap string FileValidationResult.t) :=
  validateFilesFrom v feedURLs ver requirements ∅.

(** The guard [!ok || !result.Exists || result.RawData == nil] of the
    extraction and reference passes: the raw bytes when it lets through. *)
Definition rawOf (results : gmap string FileValidationResult.t) (name : string)
    : option bytes :=
  match results !! name with
  | Some result => if Exists result then RawData result else None
  | None => None
  end.

(** extractVehicleTypes reads vehicle types from vehicle_types.json. *)
Definition extractVehicleTypes (results : gmap string FileValidationResult.t)
    : gmap string gbfs.VehicleType.t :=
  match rawOf results "vehicle_types" with
  | Some raw =>
      match decodeVehicleTypes raw with
      | Some vts =>
          foldl (fun types t => <[gbfs.VehicleType.VehicleTypeID t := t]> types) ∅ vts
      | None => ∅
      end
  | None => ∅
  end.

(** extractPricingPlans reads pricing plans from system_pricing_plans.json. *)
Definition extractPricingPlans (results : gmap string FileValidationResult.t)
    : gmap string gbfs.PricingPlan.t :=
  match rawOf results "system_pricing_plans" with
  | Some raw =>
      match decodePricingPlans raw with
      | Some pps => foldl (fun plans p => <[gbfs.PricingPlan.PlanID p := p]> plans) ∅ pps
      | None => ∅
      end
  | None => ∅
  end.

(** extractStationIDs reads station IDs from station_information.json. *)
Definition extractStationIDs (results : gmap string FileValidationResult.t)
    : gmap string bool :=
  match rawOf results "station_information" with
  | Some raw =>
      match decodeStationInformation raw with
      | Some sts => foldl (fun ids s => <[gbfs.Station.StationID s := true]> ids) ∅ sts
      | None => ∅
      end
  | None => ∅
  end.

(** The body of the loop of [validateVehicleTypeReferences]. *)
Definition checkVehicleTypeReference (vehicleTypes : gmap string gbfs.VehicleType.t)
    (i : nat) (vehicle : gbfs.Vehicle.t) (result : FileValidationResult.t)
    : FileValidationResult.t :=
  let id := gbfs.Vehicle.VehicleTypeID vehicle in
  if negb (String.eqb id "")
  then
    let result :=
      match vehicleTypes !! id with
      | None =>
          recordError
            (issue SeverityError
               ("vehicle_type_id '" +:+ id +:+ "' not found in vehicle_types.json")
               ("/data/vehicles/" +:+ pretty i +:+ "/vehicle_type_id"))
            result
      | Some _ => result
      end in
    let vt := default gbfs.VehicleType.zero (vehicleTypes !! id) in
    if isMotorized (gbfs.VehicleType.PropulsionType vt)
       && f64_eqb (gbfs.Vehicle.CurrentRangeMeters vehicle) (f64_of_int64 0)
    then appendIssue
           (issue SeverityWarning
              "current_range_meters is recommended for motorized vehicles"
              ("/data/vehicles/" +:+ pretty i))
           result
    else result
  else result.

(** validateVehicleTypeReferences verifies vehicle_type_id references. *)
Definition validateVehicleTypeReferences
    (results : gmap string FileValidationResult.t)
    (vehicleTypes : gmap string gbfs.VehicleType.t) (ver : string)
    : gmap string FileValidationResult.t :=
  let fileName := version.GetVehicleStatusFileName ver in
  match results !! fileName, rawOf results fileName with
  | Some result, Some raw =>
      if (size vehicleTypes =? 0)%nat then results
      else
        match decodeVehicleStatus raw with
        | None => results
        | Some vs =>
            <[fileName :=
                foldIndexed (checkVehicleTypeReference vehicleTypes) 0
                  (gbfs.GetVehicles vs) result]> results
        end
  | _, _ => results
  end.

Definition checkPricingPlanReference (pricingPlans : gmap string gbfs.PricingPlan.t)
    (i : nat) (t : gbfs.VehicleType.t) (vtResult : FileValidationResult.t)
    : FileValidationResult.t :=
  let id := gbfs.VehicleType.DefaultPricingPlanID t in
  if negb (String.eqb id "") && negb (isSome (pricingPlans !! id))
  then recordError
         (issue SeverityError
            ("default_pricing_plan_id '" +:+ id
             +:+ "' not found in system_pricing_plans.json")
            ("/data/vehicle_types/" +:+ pretty i +:+ "/default_pricing_plan_id"))
         vtResult
  else vtResult.

(** validatePricingPlanReferences verifies pricing_plan_id references. *)
Definition validatePricingPlanReferences
    (results : gmap string FileValidationResult.t)
    (pricingPlans : gmap string gbfs.PricingPlan.t) (ver : string)
    : gmap string FileValidationResult.t :=
  if (size pricingPlans =? 0)%nat then results
  else
    match results !! "vehicle_types", rawOf results "vehicle_types" with
    | Some vtResult, Some raw =>
        match decodeVehicleTypes raw with
        | Some vts =>
            <["vehicle_types" :=
                foldIndexed (checkPricingPlanReference pricingPlans) 0 vts vtResult]>
              results
        | None => results
        end
    | _, _ => results
    end.

Definition checkStationIDReference (stationIDs : gmap string bool)
    (i : nat) (s : gbfs.StationStatusEntry.t) (ssResult : FileValidationResult.t)
    : FileValidationResult.t :=
  let id := gbfs.StationStatusEntry.StationID s in
  if negb (default false (stationIDs !! id))
  then recordError
         (issue SeverityError
            ("station_id '" +:+ id +:+ "' not found in station_information.json")
            ("/data/stations/" +:+ pretty i +:+ "/station_id"))
         ssResult
  else ssResult.

(** validateStationIDReferences verifies station_id references. *)
Definition validateStationIDReferences
    (results : gmap string FileValidationResult.t)
    (stationIDs : gmap string bool) (ver : string)
    : gmap string FileValidationResult.t :=
  if (size stationIDs =? 0)%nat then results
  else
    match results !! "station_status", rawOf results "station_status" with
    | Some ssResult, Some raw =>
        match decodeStationStatus raw with
        | Some sts =>
            <["station_status" :=
                foldIndexed (checkStationIDReference stationIDs) 0 sts ssResult]>
              results
        | None => results
        end
    | _, _ => results
    end.

(** The escalation shared by the two conditional checks: the referenced
    document becomes required, and missing. *)
Definition escalate (results : gmap string FileValidationResult.t)
    (name msg : string) : gmap string FileValidationResult.t :=
  let missing (r : FileValidationResult.t) :=
    appendIssue (issue SeverityError msg "")
      (setErrorsCount (ErrorsCount r + 1) (setHasErrors true (setRequired true r))) in
  match results !! name with
  | None => <[name := missing (FileValidationResult.new (name +:+ ".json") true)]> results
  | Some r => if Exists r then results else <[name := missing r]> results
  end.

(** checkConditionalVehicleTypes enforces vehicle_types.json requirement. *)
Definition checkConditionalVehicleTypes
    (results : gmap string FileValidationResult.t) (ver : string)
    : gmap string FileValidationResult.t :=
  let fileName := version.GetVehicleStatusFileName ver in
  match rawOf results fileName with
  | Some raw =>
      match decodeVehicleStatus raw with
      | Some vs =>
          if existsb (fun vehicle => negb (String.eqb (gbfs.Vehicle.VehicleTypeID vehicle) ""))
               (gbfs.GetVehicles vs)
          then escalate results "vehicle_types"
                 ("vehicle_types.json is required when vehicle_type_id is used in "
                  +:+ fileName +:+ ".json")
          else results
      | None => results
      end
  | None => results
  end.

(** checkConditionalPricingPlans enforces system_pricing_plans.json
    requirement. *)
Definition checkConditionalPricingPlans
    (results : gmap string FileValidationResult.t) (ver : string)
    : gmap string FileValidationResult.t :=
  let fileName := version.GetVehicleStatusFileName ver in
  match rawOf results fileName with
  | Some raw =>
      match decodeVehicleStatus raw with
      | Some vs =>
          if existsb (fun vehicle => negb (String.eqb (gbfs.Vehicle.PricingPlanID vehicle) ""))
               (gbfs.GetVehicles vs)
          then escalate results "system_pricing_plans"
                 ("system_pricing_plans.json is required when pricing_plan_id is used in "
                  +:+ fileName +:+ ".json")
          else results
      | None => results
      end
  | None => results
  end.

(** crossValidate performs referential checks across files. *)
Definition crossValidate (results : gmap string FileValidationResult.t) (ver : string)
    : gmap string FileValidationResult.t :=
  let vehicleTypes := extractVehicleTypes results in
  let pricingPlans := extractPricingPlans results in
  let stationIDs := extractStationIDs results in
  let results := validateVehicleTypeReferences results vehicleTypes ver in
  let results := validatePricingPlanReferences results pricingPlans ver in
  let results := validateStationIDReferences results stationIDs ver in
  let results := checkConditionalVehicleTypes results ver in
  checkConditionalPricingPlans results ver.

(** The state of the aggregation loop of [Validate]. *)
Record tally : Type := mkTally {
  files : list FileValidationResult.t;
  hasErrors : bool;
  errorsCount : Z;
  totalCoercions : Z
}.

(** The body of [for _, fr := range fileResults]. *)
Definition addFile (acc : tally) (fr : FileValidationResult.t) : tally :=
  mkTally (files acc ++ [fr])
    (if HasErrors fr then true else hasErrors acc)
    (errorsCount acc + ErrorsCount fr)
    (if 0 <? CoercionCount fr then totalCoercions acc + CoercionCount fr
     else totalCoercions acc).

(** Validate performs a full feed validation.  The result is the pair
    the Go function returns (report, error); [Panic] is a run-time panic.
    The map [fileResults] is ranged over in the order [map_to_list] gives,
    one of the orders Go may choose. *)
Definition Validate (v : Validator) (gbfsURL : string)
    : Net (outcome (ValidationResult.t * option string)) :=
  let summary (ver : VersionInfo.t) (he : bool) (n : Z) (unimpl : bool)
      (cs : option CoercionSummary.t) :=
    ValidationSummary.mk "1.0.0" ver he n unimpl (Options.LenientMode (options v)) cs in
  g <- validateGBFS v gbfsURL ;;
  let '(gbfsResult, gbfsFeed, err) := g in
  match err, gbfsFeed with
  | None, Some gbfsFeed =>
      let detectedVersion :=
        if String.eqb (gbfs.GBFSFeed.Version gbfsFeed) "" then "1.0"
        else gbfs.GBFSFeed.Version gbfsFeed in
      let validatedVersion :=
        if String.eqb (Options.Version (options v)) "" then detectedVersion
        else Options.Version (options v) in
      let feedURLs := buildFeedURLMap gbfsFeed gbfsURL in
      match version.GetFileRequirements validatedVersion
              (version.mkOptions (Options.Docked (options v))
                 (Options.Freefloating (options v))) with
      | Panic why => ret (Panic why)
      | Ret requirements =>
          fileResults <- validateFiles v feedURLs requirements validatedVersion ;;
          let fileResults := crossValidate fileResults validatedVersion in
          let acc :=
            foldl addFile (mkTally [gbfsResult] false 0 0)
              (map_to_list fileResults).*2 in
          let he := if HasErrors gbfsResult then true else hasErrors acc in
          let cs :=
            if Options.LenientMode (options v) && (0 <? totalCoercions acc)
            then Some (CoercionSummary.mk (totalCoercions acc) ∅)
            else None in
          ret (Ret (ValidationResult.mk
                      (summary (VersionInfo.mk detectedVersion validatedVersion)
                         he (errorsCount acc) false cs)
                      (files acc),
                    None))
      end
  | _, _ =>
      ret (Ret (ValidationResult.mk
                  (summary (VersionInfo.mk "" "") false 0 true None)
                  [gbfsResult],
                None))
  end.

End WithRuntime.

End validator.

(** ** A reference runtime for closed examples

    The general results below hold for every runtime.  Closed examples
    are evaluated on this one: float64 values that are integers (each
    stands for itself), integer literals, no date strings, and decoders
    that read the fields kept in [gbfs]. *)

Module reference.

(** The float64 nearest to the integer [n], ties to even. *)
Definition roundToFloat64 (n : Z) : Z :=
  let a := Z.abs n in
  if a <=? 2 ^ 53 then n
  else
    let sh := Z.log2 a - 52 in
    let q := a / 2 ^ sh in
    let r := a mod 2 ^ sh in
    let half := 2 ^ (sh - 1) in
    let q' := if (half <? r) || ((r =? half) && Z.odd q) then q + 1 else q in
    Z.sgn n * (q' * 2 ^ sh).

Definition parseFloat (s : string) : option Z :=
  match parseDecimal s with
  | Some n =>
      let f := roundToFloat64 n in
      if Z.abs f <? 2 ^ 1024 then Some f else None
  | None => None
  end.

Definition runtime : GoRuntime := {|
  float64 := Z;
  f64_of_int64 := roundToFloat64;
  (* out of range: the amd64 result *)
  int64_of_f64 := fun f => if (minInt64 <=? f) && (f <=? maxInt64) then f else minInt64;
  f64_eqb := Z.eqb;
  f64_encodable := fun _ => true;
  ParseFloat := parseFloat;
  FormatFloat := fun f => pretty f;
  timeParseUnix := fun _ _ => None
|}.

Section Decoders.
#[local] Existing Instance runtime.

(** A string field: absent or null leaves the zero value. *)
Definition strField (m : gmap string wire) (k : string) : option string :=
  match m !! k with
  | None | Some JNull => Some ""
  | Some (JStr s) => Some s
  | Some _ => None
  end.

Definition intField (m : gmap string wire) (k : string) : option Z :=
  match m !! k with
  | None | Some JNull => Some 0
  | Some (JNum lit) => ParseInt lit
  | Some _ => None
  end.

Definition floatField (m : gmap string wire) (k : string) : option (@float64 runtime) :=
  match m !! k with
  | None | Some JNull => Some 0
  | Some (JNum lit) => parseFloat lit
  | Some _ => None
  end.

(** A slice of structs: a null element leaves the zero struct. *)
Definition structList {T : Type} (zero : T) (entry : gmap string wire -> option T)
    (m : gmap string wire) (k : string) : option (list T) :=
  match m !! k with
  | None | Some JNull => Some []
  | Some (JArr l) =>
      mapM (fun e =>
              match e with
              | JObj o => entry o
              | JNull => Some zero
              | _ => None
              end) l
  | Some _ => None
  end.

(** The [data] member of a document, then [inner] on it. *)
Definition inData {T : Type} (zero : T) (inner : gmap string wire -> option T)
    (b : bytes) : option T :=
  match b with
  | Text (JObj top) =>
      match top !! "data" with
      | None | Some JNull => Some zero
      | Some (JObj d) => inner d
      | Some _ => None
      end
  | Text JNull => Some zero
  | _ => None
  end.

Definition feedInfo (o : gmap string wire) : option gbfs.FeedInfo.t :=
  name ← strField o "name"; url ← strField o "url"; Some (gbfs.FeedInfo.mk name url).

(** [GBFSData.UnmarshalJSON]: the flat list when it is not empty, else
    the feeds of a language (here the first key), and never an error. *)
Definition feedsOf (d : wire) : list gbfs.FeedInfo.t :=
  match d with
  | JObj o =>
      match structList (gbfs.FeedInfo.mk "" "") feedInfo o "feeds" with
      | Some (f :: fs) => f :: fs
      | _ =>
          match map_to_list o with
          | (_, JObj lang) :: _ =>
              default [] (structList (gbfs.FeedInfo.mk "" "") feedInfo lang "feeds")
          | _ => []
          end
      end
  | _ => []
  end.

Definition gbfsFeed (b : bytes) : option gbfs.GBFSFeed.t :=
  match b with
  | Text (JObj top) =>
      ttl ← intField top "ttl";
      ver ← strField top "version";
      Some (gbfs.GBFSFeed.mk ttl ver (default [] (feedsOf <$> top !! "data")))
  | Text JNull => Some (gbfs.GBFSFeed.mk 0 "" [])
  | _ => None
  end.

Definition vehicleType (o : gmap string wire) : option gbfs.VehicleType.t :=
  id ← strField o "vehicle_type_id";
  pt ← strField o "propulsion_type";
  pp ← strField o "default_pricing_plan_id";
  Some (gbfs.VehicleType.mk id pt pp).

Definition vehicle (o : gmap string wire) : option gbfs.Vehicle.t :=
  id ← strField o "vehicle_type_id";
  pp ← strField o "pricing_plan_id";
  range ← floatField o "current_range_meters";
  Some (gbfs.Vehicle.mk id pp range).

Definition zeroVehicle : gbfs.Vehicle.t := @gbfs.Vehicle.mk runtime "" "" 0%Z.

Definition vehicleStatus (d : gmap string wire) : option gbfs.VehicleStatusData.t :=
  vs ← structList zeroVehicle vehicle d "vehicles";
  bs ← structList zeroVehicle vehicle d "bikes";
  Some (gbfs.VehicleStatusData.mk vs bs).

Definition decoder : JSONDecoder := {|
  decodeGBFSFeed := gbfsFeed;
  decodeVehicleTypes :=
    inData [] (fun d => structList gbfs.VehicleType.zero vehicleType d "vehicle_types");
  decodeVehicleStatus := inData (gbfs.VehicleStatusData.mk [] []) vehicleStatus;
  decodePricingPlans :=
    inData [] (fun d =>
      structList (gbfs.PricingPlan.mk "")
        (fun o => gbfs.PricingPlan.mk <$> strField o "plan_id") d "plans");
  decodeStationInformation :=
    inData [] (fun d =>
      structList (gbfs.Station.mk "")
        (fun o => gbfs.Station.mk <$> strField o "station_id") d "stations");
  decodeStationStatus :=
    inData [] (fun d =>
      structList (gbfs.StationStatusEntry.mk "")
        (fun o => gbfs.StationStatusEntry.mk <$> strField o "station_id") d "stations");
  decodeErrorText := fun _ => "invalid character"
|}.

End Decoders.

(** Building documents for the examples. *)
Definition obj (l : list (string * wire)) : wire := JObj (list_to_map l).

End reference.

(** ** Vocabulary of the statements *)

(** The station-based documents and the vehicle-based availability
    documents of the requirement tables. *)
Definition stationOrVehicleDocs : list string :=
  ["station_information"; "station_status"; "free_bike_status"; "vehicle_status"].

(** Is the manifest fetched a second time?  The guard of the fallback in
    [validateGBFS]. *)
Definition manifestRetried `{fetcher.Network} (gbfsURL : string) : bool :=
  validator.isSome (fetcher.Error (fetcher.Fetch gbfsURL))
  && negb (HasSuffix gbfsURL "gbfs.json").

(** The file result of a required document that was not found. *)
Definition reportedMissing (name : string) (fr : validator.FileValidationResult.t) : Prop :=
  validator.FileValidationResult.File fr = name +:+ ".json" /\
  validator.FileValidationResult.Required fr = true /\
  validator.FileValidationResult.Exists fr = false /\
  validator.FileValidationResult.HasErrors fr = true /\
  exists e, e ∈ validator.FileValidationResult.Errors fr
            /\ validator.ValidationError.Severity e = validator.SeverityError.

(** A vehicle whose vehicle_type_id is set and is not a known type. *)
Definition danglingReference `{GoRuntime}
    (vehicleTypes : gmap string gbfs.VehicleType.t) (vehicle : gbfs.Vehicle.t) : bool :=
  negb (String.eqb (gbfs.Vehicle.VehicleTypeID vehicle) "")
  && negb (validator.isSome (vehicleTypes !! gbfs.Vehicle.VehicleTypeID vehicle)).

(** Where the reference check reports on the vehicle at index [i]. *)
Definition vehicleTypeIDPath (i : nat) : string :=
  "/data/vehicles/" +:+ pretty i +:+ "/vehicle_type_id".

Definition isErrorAt (path : string) (e : validator.ValidationError.t) : bool :=
  bool_decide (validator.ValidationError.Severity e = validator.SeverityError)
  && String.eqb (validator.ValidationError.InstancePath e) path.

(** The issues [checkVehicleTypeReference] appends for one vehicle. *)
Definition referenceIssues `{GoRuntime}
    (vehicleTypes : gmap string gbfs.VehicleType.t) (i : nat) (vehicle : gbfs.Vehicle.t)
    : list validator.ValidationError.t :=
  let id := gbfs.Vehicle.VehicleTypeID vehicle in
  (if danglingReference vehicleTypes vehicle
   then [validator.issue validator.SeverityError
           ("vehicle_type_id '" +:+ id +:+ "' not found in vehicle_types.json")
           (vehicleTypeIDPath i)]
   else [])
  ++ (if negb (String.eqb id "")
         && validator.isMotorized
              (gbfs.VehicleType.PropulsionType
                 (default gbfs.VehicleType.zero (vehicleTypes !! id)))
         && f64_eqb (gbfs.Vehicle.CurrentRangeMeters vehicle) (f64_of_int64 0)
      then [validator.issue validator.SeverityWarning
              "current_range_meters is recommended for motorized vehicles"
              ("/data/vehicles/" +:+ pretty i)]
      else []).

(** ** A small feed for the closed examples *)

Module example.
Import reference.

Definition manifestURL : string := "https://example.org/gbfs.json".
Definition systemInformationURL : string := "https://example.org/system_information.json".
Definition vehicleStatusURL : string := "https://example.org/vehicle_status.json".

(** A manifest of version 3.0 that lists [feeds] and carries [ttl]. *)
Definition manifest (ttl : string) (feeds : list (string * string)) : bytes :=
  Text (obj [ ("last_updated", JNum "1700000000");
              ("ttl", JNum ttl);
              ("version", JStr "3.0");
              ("data", obj [("feeds",
                 JArr (map (fun f => obj [("name", JStr f.1); ("url", JStr f.2)]) feeds))]) ]).

Definition systemInformation : bytes :=
  Text (obj [ ("last_updated", JNum "1700000000");
              ("ttl", JNum "0");
              ("version", JStr "3.0");
              ("data", obj [ ("system_id", JStr "test");
                             ("name", JStr "Test");
                             ("timezone", JStr "UTC") ]) ]).

(** One vehicle, of the vehicle type "ghost". *)
Definition vehicleStatus : bytes :=
  Text (obj [ ("last_updated", JNum "1700000000");
              ("ttl", JNum "0");
              ("version", JStr "3.0");
              ("data", obj [("vehicles",
                 JArr [obj [ ("vehicle_id", JStr "v1");
                             ("vehicle_type_id", JStr "ghost") ]])]) ]).

(** A network that serves [docs] and answers 404 elsewhere. *)
Definition serving (docs : list (string * bytes)) : fetcher.Network :=
  {| fetcher.roundTrip := fun url =>
       match (list_to_map docs : gmap string bytes) !! url with
       | Some body => fetcher.Response 200 (Some body) ""
       | None => fetcher.Response 404 None ""
       end |}.

(** A network where nothing is reachable. *)
Definition unreachable : fetcher.Network :=
  {| fetcher.roundTrip := fun _ => fetcher.DoFailed "connection refused" |}.

(** The manifest has a negative ttl; system_information is fine. *)
Definition negativeTTLFeed : fetcher.Network :=
  serving [ (manifestURL, manifest "-1" [("system_information", systemInformationURL)]);
            (systemInformationURL, systemInformation) ].

Definition strictOptions : validator.Options.t :=
  validator.Options.mk false false "" false None.

(** The manifest lists system_information only. *)
Definition onlySystemInformation : bytes :=
  manifest "0" [("system_information", systemInformationURL)].

Definition onlySystemInformationFeed : fetcher.Network :=
  serving [ (manifestURL, onlySystemInformation);
            (systemInformationURL, systemInformation) ].

Definition dockedOptions : validator.Options.t :=
  validator.Options.mk true false "" false None.

Definition vehicleTypesURL : string := "https://example.org/vehicle_types.json".

(** One vehicle type, "bike1". *)
Definition vehicleTypes : bytes :=
  Text (obj [ ("last_updated", JNum "1700000000");
              ("ttl", JNum "0");
              ("version", JStr "3.0");
              ("data", obj [("vehicle_types",
                 JArr [obj [ ("vehicle_type_id", JStr "bike1");
                             ("form_factor", JStr "bicycle");
                             ("propulsion_type", JStr "human") ]])]) ]).

(** What [vehicleStatus] decodes to. *)
Definition ghostVehicle : @gbfs.Vehicle.t runtime :=
  @gbfs.Vehicle.mk runtime "ghost" "" 0%Z.

Definition ghostFleet : @gbfs.VehicleStatusData.t runtime :=
  @gbfs.VehicleStatusData.mk runtime [ghostVehicle] [].

(** The file result of a document that was fetched and is clean. *)
Definition fetched (name url : string) (raw : bytes) : validator.FileValidationResult.t :=
  validator.FileValidationResult.setRawData (Some raw)
    (validator.FileValidationResult.setExists true
       (validator.FileValidationResult.setURL url
          (validator.FileValidationResult.new (name +:+ ".json") false))).

(** The availability document alone. *)
Definition resultsWithoutTypes : gmap string validator.FileValidationResult.t :=
  {[ "vehicle_status" := fetched "vehicle_status" vehicleStatusURL vehicleStatus ]}.

(** The availability document and vehicle_types.json. *)
Definition resultsWithTypes : gmap string validator.FileValidationResult.t :=
  <[ "vehicle_types" := fetched "vehicle_types" vehicleTypesURL vehicleTypes ]>
    resultsWithoutTypes.

End example.

(** ** The field map of the coercer, as a table

    Each entry function of the coercer runs a fixed sequence of steps on
    one map: the rule of a kind applied to a field.  The proofs below
    read the entry functions through [runSteps]. *)

Module fieldmap.
Section WithRuntime.
Context `{GoRuntime}.

Inductive kind : Type := KBool | KInt | KFloat | KNumber | KTimestamp.

Definition ruleOf (k : kind) : value -> value * bool :=
  match k with
  | KBool => coerce.boolRule
  | KInt => coerce.intRule
  | KFloat => coerce.floatRule
  | KNumber => coerce.coerceToNumber
  | KTimestamp => coerce.coerceTimestamp
  end.

Definition step : Type := kind * string.

Fixpoint runSteps (path : string) (steps : list step) (m : gmap string value)
    : coerce.Co (gmap string value) :=
  match steps with
  | [] => coerce.ret m
  | (k, field) :: rest =>
      coerce.bind (coerce.coerceField (ruleOf k) path field m)
        (fun m' => runSteps path rest m')
  end.

Definition onFields (k : kind) (fields : list string) : list step :=
  map (fun f => (k, f)) fields.

Definition enabled (b : bool) (steps : list step) : list step :=
  if b then steps else [].

Definition commonSteps (o : coerce.Options) : list step :=
  enabled (coerce.CoerceTimestamps o) [(KTimestamp, "last_updated")]
  ++ enabled (coerce.CoerceNumericStrings o) [(KInt, "ttl")].

Definition stationStatusSteps (o : coerce.Options) : list step :=
  enabled (coerce.CoerceBooleans o) (onFields KBool coerce.stationStatusBoolFields)
  ++ enabled (coerce.CoerceNumericStrings o) (onFields KInt coerce.stationStatusNumericFields)
  ++ enabled (coerce.CoerceTimestamps o) [(KTimestamp, "last_reported")].

Definition stationInformationSteps (o : coerce.Options) : list step :=
  enabled (coerce.CoerceCoordinates o) (onFields KFloat ["lat"; "lon"])
  ++ enabled (coerce.CoerceNumericStrings o) [(KInt, "capacity")]
  ++ enabled (coerce.CoerceBooleans o) (onFields KBool coerce.stationInformationBoolFields).

Definition vehicleSteps (o : coerce.Options) : list step :=
  enabled (coerce.CoerceCoordinates o) (onFields KFloat ["lat"; "lon"])
  ++ enabled (coerce.CoerceBooleans o) (onFields KBool coerce.vehicleBoolFields)
  ++ enabled (coerce.CoerceNumericStrings o) (onFields KInt coerce.vehicleNumericFields)
  ++ enabled (coerce.CoerceTimestamps o) [(KTimestamp, "last_reported")].

Definition vehicleTypeSteps (o : coerce.Options) : list step :=
  enabled (coerce.CoerceNumericStrings o)
    (onFields KNumber coerce.vehicleTypeNumericFields).

Definition systemInformationSteps (o : coerce.Options) : list step :=
  enabled (coerce.CoerceTimestamps o) (onFields KTimestamp ["start_date"; "end_date"]).

Definition ruleSteps (o : coerce.Options) : list step :=
  enabled (coerce.CoerceBooleans o) [(KBool, "ride_through_allowed")]
  ++ enabled (coerce.CoerceNumericStrings o)
       (onFields KNumber ["maximum_speed_kph"; "station_parking"]).

(** The fields of one object: where it is in the document (for the
    log), its steps, and whether its null members are deleted after. *)
Record fields : Type := mkFields {
  at_ : string;
  steps : list step;
  dropNulls : bool
}.

Definition onFieldsOf (f : fields) (m : gmap string value)
    : coerce.Co (gmap string value) :=
  coerce.bind (runSteps (at_ f) (steps f) m)
    (fun m => coerce.ret (if dropNulls f then coerce.deleteNulls m else m)).

(** How the coercer walks a document: at an object it coerces the fields,
    then goes down into the object under a key, or into the array under
    the first of several keys that holds one, each object element with
    its own fields. *)
Inductive schema : Type :=
| Done (f : fields)
| Object (f : fields) (key : string) (inner : schema)
| Array (f : fields) (keys : list string) (inner : string -> nat -> schema).

Fixpoint firstArray (keys : list string) (m : gmap string value)
    : option (string * list value) :=
  match keys with
  | [] => None
  | key :: rest =>
      match m !! key with
      | Some (JArr l) => Some (key, l)
      | _ => firstArray rest m
      end
  end.

Fixpoint apply (s : schema) (m : gmap string value)
    : coerce.Co (gmap string value) :=
  match s with
  | Done f => onFieldsOf f m
  | Object f key inner =>
      coerce.bind (onFieldsOf f m) (fun m =>
        match m !! key with
        | Some (JObj o) =>
            coerce.bind (apply inner o) (fun o' =>
              coerce.ret (<[key := JObj o']> m))
        | _ => coerce.ret m
        end)
  | Array f keys inner =>
      coerce.bind (onFieldsOf f m) (fun m =>
        match firstArray keys m with
        | Some (key, l) =>
            coerce.bind (coerce.forEachMap (fun i => apply (inner key i)) 0 l)
              (fun l' => coerce.ret (<[key := JArr l']> m))
        | None => coerce.ret m
        end)
  end.

Definition noFields : fields := mkFields "" [] false.

Definition commonFields (o : coerce.Options) : fields :=
  mkFields "" (commonSteps o) (coerce.TreatNullAsAbsent o).

(** The collection under [data] whose elements have the fields [entry]. *)
Definition collection (o : coerce.Options) (keys : list string)
    (entry : string -> nat -> fields) : schema :=
  Object (commonFields o) "data"
    (Array noFields keys (fun key i => Done (entry key i))).

Definition ruleSchema (o : coerce.Options) (i j : nat) : schema :=
  Done (mkFields
          (("/data/geofencing_zones/features/" +:+ pretty i +:+ "/properties")
             +:+ "/rules/" +:+ pretty j)
          (ruleSteps o) false).

(** The walk of [Coerce] on a document of type [feedType]. *)
Definition docSchema (o : coerce.Options) (feedType : string) : schema :=
  if bool_decide (feedType = "station_status") then
    collection o ["stations"] (fun _ i =>
      mkFields ("/data/stations/" +:+ pretty i) (stationStatusSteps o)
        (coerce.TreatNullAsAbsent o))
  else if bool_decide (feedType = "station_information") then
    collection o ["stations"] (fun _ i =>
      mkFields ("/data/stations/" +:+ pretty i) (stationInformationSteps o) false)
  else if bool_decide (feedType = "vehicle_status")
          || bool_decide (feedType = "free_bike_status") then
    collection o ["vehicles"; "bikes"] (fun key i =>
      mkFields ("/data/" +:+ key +:+ "/" +:+ pretty i) (vehicleSteps o) false)
  else if bool_decide (feedType = "vehicle_types") then
    collection o ["vehicle_types"] (fun _ i =>
      mkFields ("/data/vehicle_types/" +:+ pretty i) (vehicleTypeSteps o) false)
  else if bool_decide (feedType = "system_information") then
    Object (commonFields o) "data"
      (Done (mkFields "/data" (systemInformationSteps o) false))
  else if bool_decide (feedType = "geofencing_zones") then
    Object (commonFields o) "data"
      (Object noFields "geofencing_zones"
         (Array noFields ["features"] (fun _ i =>
            Object noFields "properties"
              (Array noFields ["rules"] (fun _ j => ruleSchema o i j)))))
  else Done (commonFields o).

(** May a step of kind [later] follow one of kind [earlier] on the same
    field?  What [later] writes must be a value [earlier] leaves alone
    once it has gone through the encoder and back. *)
Definition compat (earlier later : kind) : bool :=
  match later, earlier with
  | KBool, _ => true
  | (KInt | KTimestamp), KBool => false
  | (KInt | KTimestamp), _ => true
  | (KFloat | KNumber), (KInt | KFloat | KNumber) => true
  | (KFloat | KNumber), _ => false
  end.

Fixpoint coherent (l : list step) : bool :=
  match l with
  | [] => true
  | (k, f) :: rest =>
      forallb (fun s => negb (String.eqb f s.2) || compat k s.1) rest
      && coherent rest
  end.

Fixpoint wellFormed (s : schema) : Prop :=
  match s with
  | Done f => coherent (steps f) = true
  | Object f _ inner => coherent (steps f) = true /\ wellFormed inner
  | Array f _ inner =>
      coherent (steps f) = true /\ forall key i, wellFormed (inner key i)
  end.

End WithRuntime.
End fieldmap.

(** [forEachMap] element by element: what an entry is after the loop,
    and the records the loop appends for it. *)
Definition entryAfter `{GoRuntime}
    (body : nat -> gmap string value -> coerce.Co (gmap string value))
    (i : nat) (s : value) : value :=
  match s with
  | JObj m => JObj (body i m).1
  | _ => s
  end.

Definition entryLog `{GoRuntime}
    (body : nat -> gmap string value -> coerce.Co (gmap string value))
    (i : nat) (s : value) : coerce.CoercionLog :=
  match s with
  | JObj m => (body i m).2
  | _ => []
  end.

(** The fields of the station at index [i] of a station_status
    document. *)
Definition statusEntry (o : coerce.Options) (i : nat) : fieldmap.fields :=
  fieldmap.mkFields ("/data/stations/" +:+ pretty i) (fieldmap.stationStatusSteps o)
    (coerce.TreatNullAsAbsent o).

(** ** Through the encoder and back

    An int64 the coercer stored is written as its digits and read back as
    a float64; up to 2^53 in magnitude nothing is lost. *)

Definition exactInt (n : Z) : bool := Z.abs n <=? 2 ^ 53.

Class GoRuntimeLaws `{GoRuntime} : Prop := {
  (** the literal written for a finite float64 reads back as it *)
  ParseFloat_FormatFloat (f : float64) :
    f64_encodable f = true -> ParseFloat (FormatFloat f) = Some f;
  ParseFloat_FormatInt (n : Z) :
    exactInt n = true -> ParseFloat (FormatInt n) = Some (f64_of_int64 n);
  FormatFloat_of_int64 (n : Z) :
    exactInt n = true -> FormatFloat (f64_of_int64 n) = FormatInt n;
  int64_of_int64 (n : Z) :
    exactInt n = true -> int64_of_f64 (f64_of_int64 n) = n;
  f64_eqb_of_int64 (n : Z) :
    exactInt n = true -> f64_eqb (f64_of_int64 n) (f64_of_int64 n) = true;
  encodable_of_int64 (n : Z) :
    exactInt n = true -> f64_encodable (f64_of_int64 n) = true
}.

Section Settled.
Context `{GoRuntime}.

(** Is every int64 in the document exact as a float64? *)
Definition exactNum (n : gonum) : bool :=
  match n with
  | GFloat _ => true
  | GInt i => exactInt i
  end.

Definition exactDoc (v : value) : Prop := jall exactNum v = true.

(** Every int64 the records of a log say was written is exact. *)
Definition exactLog (l : coerce.CoercionLog) : Prop :=
  Forall (fun c => exactDoc (coerce.To c)) l.

(** What a number is after [json.Marshal] and [json.Unmarshal]. *)
Definition settleNum (n : gonum) : gonum :=
  match n with
  | GFloat f => GFloat f
  | GInt i => GFloat (f64_of_int64 i)
  end.

Definition settle (v : value) : value := jmap settleNum v.

(** The rule of kind [k] leaves the settled [v] alone. *)
Definition stable (k : fieldmap.kind) (v : value) : Prop :=
  (fieldmap.ruleOf k (settle v)).2 = false.

(** The state of an object once its fields were coerced: every field is
    stable for the steps on it, and no member is null if those are
    deleted. *)
Definition fieldsSettled (f : fieldmap.fields) (m : gmap string value) : Prop :=
  (forall k field v,
      (k, field) ∈ fieldmap.steps f -> m !! field = Some v -> stable k v)
  /\ (fieldmap.dropNulls f = true -> forall field, m !! field <> Some JNull).

(** One element of [forEachMap]. *)
Definition onEntry (body : nat -> gmap string value -> coerce.Co (gmap string value))
    (i : nat) (s : value) : coerce.Co value :=
  match s with
  | JObj m => coerce.bind (body i m) (fun m' => coerce.ret (JObj m'))
  | _ => coerce.ret s
  end.

(** A coercion of objects that keeps integers exact and, run again on its
    settled result, returns it with nothing logged. *)
Definition soundOn (body : gmap string value -> coerce.Co (gmap string value)) : Prop :=
  forall m,
    exactLog (body m).2 ->
    map_Forall (fun _ v => exactDoc v) m ->
    map_Forall (fun _ v => exactDoc v) (body m).1
    /\ body (settle <$> (body m).1) = coerce.ret (settle <$> (body m).1).

(** A number [json.Marshal] accepts and reads back as it settles. *)
Definition writable (n : gonum) : bool := numEncodable n && exactNum n.

End Settled.

(** ** Vocabulary for station_status documents *)

(** A number literal that decodes to a finite float64. *)
Definition finiteLiteral `{GoRuntime} (lit : string) : bool :=
  match ParseFloat lit with
  | Some f => f64_encodable f
  | None => false
  end.

(** Where the coercer and the validator report on the station at index
    [i] and on one of its fields. *)
Definition stationPath (i : nat) : string := "/data/stations/" +:+ pretty i.

Definition stationFieldPath (i : nat) (field : string) : string :=
  "/data/stations/" +:+ pretty i +:+ "/" +:+ field.

(** The member [field] of the station at index [i] of a document. *)
Definition stationField (b : bytes) (i : nat) (field : string) : option wire :=
  match b with
  | Text (JObj top) =>
      match top !! "data" with
      | Some (JObj d) =>
          match d !! "stations" with
          | Some (JArr stations) =>
              match stations !! i with
              | Some (JObj station) => station !! field
              | _ => None
              end
          | _ => None
          end
      | _ => None
      end
  | _ => None
  end.

(** The steps whose rules write booleans and int64 only. *)
Definition writesNoFloat (s : fieldmap.step) : bool :=
  match s.1 with
  | fieldmap.KBool | fieldmap.KInt | fieldmap.KTimestamp => true
  | _ => false
  end.

(** A document [json.Marshal] accepts. *)
Definition encodable `{GoRuntime} (v : value) : Prop := jall numEncodable v = true.

(** The records of the log about [is_installed] of the station at [i]. *)
Definition aboutInstalled `{GoRuntime} (i : nat) (c : coerce.Coercion) : Prop :=
  coerce.Path c = stationPath i /\ coerce.Field c = "is_installed".

#[global] Instance aboutInstalled_dec `{GoRuntime} i c : Decision (aboutInstalled i c).
Proof. unfold aboutInstalled. apply _. Defined.

(** ** The reference runtime, with its float64 values marked

    In [reference.runtime] every integer stands for a float64, also
    those that are none.  Here [json.Marshal] accepts the integers that
    are float64 values only; everything else is as in the reference. *)

Module checked.

Definition isFloat64 (f : Z) : bool :=
  (reference.roundToFloat64 f =? f) && (Z.abs f <? 2 ^ 1024).

Definition runtime : GoRuntime := {|
  float64 := Z;
  f64_of_int64 := reference.roundToFloat64;
  int64_of_f64 := fun f => if (minInt64 <=? f) && (f <=? maxInt64) then f else minInt64;
  f64_eqb := Z.eqb;
  f64_encodable := isFloat64;
  ParseFloat := reference.parseFloat;
  FormatFloat := fun f => pretty f;
  timeParseUnix := fun _ _ => None
|}.

End checked.

(** ** Documents for the closed examples of the coercer *)

Module sample.
Import reference.

(** One station; the numbers and the flag are strings. *)
Definition station : gmap string wire :=
  list_to_map [ ("station_id", JStr "s1");
                ("is_installed", JStr "1");
                ("num_bikes_available", JStr "3") ].

Definition stationData : gmap string wire :=
  list_to_map [("stations", JArr [JObj station])].

Definition stationTop : gmap string wire :=
  list_to_map [ ("last_updated", JNum "1700000000");
                ("ttl", JStr "60");
                ("data", JObj stationData) ].

Definition stationStatus : bytes := Text (JObj stationTop).

(** What the lenient coercer returns for it. *)
Definition stationStatusCoerced : bytes :=
  Text (obj [ ("last_updated", JNum "1700000000");
              ("ttl", JNum "60");
              ("data", obj [("stations",
                 JArr [obj [ ("station_id", JStr "s1");
                             ("is_installed", JBool true);
                             ("num_bikes_available", JNum "3") ]])]) ]).

Definition firstPass : @coerce.Result checked.runtime :=
  @coerce.mkResult checked.runtime stationStatusCoerced
    [ @coerce.mkCoercion checked.runtime "" "ttl" "string" "int64"
        (JStr "60") (JNum (@GInt checked.runtime 60));
      @coerce.mkCoercion checked.runtime "/data/stations/0" "is_installed" "string" "bool"
        (JStr "1") (JBool true);
      @coerce.mkCoercion checked.runtime "/data/stations/0" "num_bikes_available"
        "string" "int64" (JStr "3") (JNum (@GInt checked.runtime 3)) ].

(** Null members at the top level and in the one element of
    [collection]. *)
Definition onlyNullAsAbsent : coerce.Options :=
  coerce.mkOptions false false false false true false false.

Definition withNulls (collection : string) : bytes :=
  Text (obj [ ("last_updated", JNum "1700000000");
              ("ttl", JNum "0");
              ("note", JNull);
              ("data", obj [(collection,
                 JArr [obj [ ("id", JStr "a"); ("capacity", JNull) ]])]) ]).

Definition withoutTopLevelNulls (collection : string) : gmap string wire :=
  list_to_map [ ("last_updated", JNum "1700000000");
                ("ttl", JNum "0");
                ("data", obj [(collection,
                   JArr [obj [ ("id", JStr "a"); ("capacity", JNull) ]])]) ].

Definition withoutNulls (collection : string) : bytes :=
  Text (obj [ ("last_updated", JNum "1700000000");
              ("ttl", JNum "0");
              ("data", obj [(collection, JArr [obj [ ("id", JStr "a") ]])]) ]).

End sample.

(** ** Vocabulary for the coercion log *)

Section LogRecords.
Context `{GoRuntime}.

(** A record as [logCoercion] writes it for a rule that reported a
    change: the type names are those of the two values, the old value
    is a string or a number, the new one a boolean or a number, and the
    two differ in type. *)
Definition ruleRecord (r : coerce.Coercion) : Prop :=
  coerce.FromType r = typeName (coerce.From r)
  /\ coerce.ToType r = typeName (coerce.To r)
  /\ coerce.FromType r ∈ ["string"; "float64"; "int64"]
  /\ coerce.ToType r ∈ ["bool"; "int64"; "float64"]
  /\ coerce.FromType r <> coerce.ToType r.

(** The fields of the object a walk starts at. *)
Definition rootOf (s : fieldmap.schema) : fieldmap.fields :=
  match s with
  | fieldmap.Done f | fieldmap.Object f _ _ | fieldmap.Array f _ _ => f
  end.

(** No step anywhere and no null deleted: the walk of a coercer with
    every coercion off. *)
Fixpoint idle (s : fieldmap.schema) : Prop :=
  match s with
  | fieldmap.Done f => fieldmap.steps f = [] /\ fieldmap.dropNulls f = false
  | fieldmap.Object f _ inner =>
      fieldmap.steps f = [] /\ fieldmap.dropNulls f = false /\ idle inner
  | fieldmap.Array f _ inner =>
      fieldmap.steps f = [] /\ fieldmap.dropNulls f = false
      /\ forall key i, idle (inner key i)
  end.

End LogRecords.

(** [after] has the members of [before], and the null ones are still
    null. *)
Definition keepsMembers `{GoRuntime} (before after : gmap string value) : Prop :=
  forall k, (after !! k = None <-> before !! k = None)
            /\ (before !! k = Some JNull -> after !! k = Some JNull).

(** ** Vocabulary for the cross-reference passes *)

Section References.
Import validator.

(** [r] after the Error-level issues [es] were recorded one by one:
    appended, counted, and the flag set if there is one. *)
Definition recorded (es : list ValidationError.t) (r : FileValidationResult.t)
    : FileValidationResult.t :=
  FileValidationResult.setErrorsCount
    (FileValidationResult.ErrorsCount r + Z.of_nat (length es))
    (FileValidationResult.setHasErrors
       (FileValidationResult.HasErrors r || negb (Nat.eqb (length es) 0))
       (FileValidationResult.setErrors (FileValidationResult.Errors r ++ es) r)).

(** The issue for the station_status entry [s] at index [i]. *)
Definition unknownStationIssue (stationIDs : gmap string bool) (i : nat)
    (s : gbfs.StationStatusEntry.t) : list ValidationError.t :=
  let id := gbfs.StationStatusEntry.StationID s in
  if default false (stationIDs !! id) then []
  else [issue SeverityError
          ("station_id '" +:+ id +:+ "' not found in station_information.json")
          ("/data/stations/" +:+ pretty i +:+ "/station_id")].

(** The issue for the vehicle type [t] at index [i]. *)
Definition unknownPlanIssue (pricingPlans : gmap string gbfs.PricingPlan.t) (i : nat)
    (t : gbfs.VehicleType.t) : list ValidationError.t :=
  let id := gbfs.VehicleType.DefaultPricingPlanID t in
  if negb (String.eqb id "") && negb (validator.isSome (pricingPlans !! id))
  then [issue SeverityError
          ("default_pricing_plan_id '" +:+ id
           +:+ "' not found in system_pricing_plans.json")
          ("/data/vehicle_types/" +:+ pretty i +:+ "/default_pricing_plan_id")]
  else [].

(** The results the cross-reference passes may write. *)
Definition crossValidated (ver : string) : list string :=
  [ version.GetVehicleStatusFileName ver; "vehicle_types"; "station_status";
    "system_pricing_plans" ].

End References.

(** Results and documents for the cross-reference passes. *)
Module crossSample.
Import reference.

Definition stationStatusURL : string := "https://example.org/station_status.json".

(** station_status.json with the one station "s1", fetched. *)
Definition stationResult : validator.FileValidationResult.t :=
  example.fetched "station_status" stationStatusURL sample.stationStatusCoerced.

Definition stationResults : gmap string validator.FileValidationResult.t :=
  {[ "station_status" := stationResult ]}.

(** station_information.json knows "s2" only. *)
Definition knownStations : gmap string bool := {[ "s2" := true ]}.

(** One vehicle type whose default plan is "gold". *)
Definition goldTypes : bytes :=
  Text (obj [ ("last_updated", JNum "1700000000");
              ("ttl", JNum "0");
              ("version", JStr "3.0");
              ("data", obj [("vehicle_types",
                 JArr [obj [ ("vehicle_type_id", JStr "bike1");
                             ("form_factor", JStr "bicycle");
                             ("propulsion_type", JStr "human");
                             ("default_pricing_plan_id", JStr "gold") ]])]) ]).

Definition goldType : gbfs.VehicleType.t := gbfs.VehicleType.mk "bike1" "human" "gold".

Definition typesResult : validator.FileValidationResult.t :=
  example.fetched "vehicle_types" example.vehicleTypesURL goldTypes.

Definition typesResults : gmap string validator.FileValidationResult.t :=
  {[ "vehicle_types" := typesResult ]}.

(** system_pricing_plans.json knows "silver" only. *)
Definition knownPlans : gmap string gbfs.PricingPlan.t :=
  {[ "silver" := gbfs.PricingPlan.mk "silver" ]}.

(** One vehicle on the plan "gold", without a vehicle type. *)
Definition pricedStatus : bytes :=
  Text (obj [ ("last_updated", JNum "1700000000");
              ("ttl", JNum "0");
              ("version", JStr "3.0");
              ("data", obj [("vehicles",
                 JArr [obj [ ("vehicle_id", JStr "v1");
                             ("pricing_plan_id", JStr "gold") ]])]) ]).

Definition pricedVehicle : @gbfs.Vehicle.t runtime :=
  @gbfs.Vehicle.mk runtime "" "gold" 0%Z.

Definition pricedResult : validator.FileValidationResult.t :=
  example.fetched "vehicle_status" example.vehicleStatusURL pricedStatus.

Definition pricedResults : gmap string validator.FileValidationResult.t :=
  {[ "vehicle_status" := pricedResult ]}.

End crossSample.

(** ** Vocabulary for the per-document pass *)

(** The count and the flag of [r] follow its list of issues, whatever
    their severity. *)
Definition counted (r : validator.FileValidationResult.t) : Prop :=
  validator.FileValidationResult.ErrorsCount r
  = Z.of_nat (length (validator.FileValidationResult.Errors r))
  /\ validator.FileValidationResult.HasErrors r
     = negb (Nat.eqb (length (validator.FileValidationResult.Errors r)) 0).

(** The last feed of the manifest with the name [name]. *)
Definition lastNamed (name : string) (feeds : list gbfs.FeedInfo.t)
    : option gbfs.FeedInfo.t :=
  last (filter (fun f => gbfs.FeedInfo.Name f = name) feeds).

(** The document types [validateFileStructure] has checks for beyond
    the header. *)
Definition checkedTypes : list string :=
  [ "system_information"; "station_information"; "station_status";
    "vehicle_status"; "free_bike_status"; "vehicle_types" ].

Definition isObject {N : Type} (v : json N) : bool :=
  match v with JObj _ => true | _ => false end.

(** A station_status document whose "data" is a string. *)
Module headerSample.

Definition dataIsString : gmap string wire :=
  list_to_map [ ("last_updated", JNum "1700000000");
                ("ttl", JNum "0");
                ("data", JStr "oops") ].

End headerSample.

(** ** Package coerce: the summary of a log *)

Module coercelog.
Section WithRuntime.
Context `{GoRuntime}.

(** CoercionSummaryDetail is a grouped coercion count. *)
Record CoercionSummaryDetail : Type := mkDetail {
  Field : string;
  FromType : string;
  ToType : string;
  Count : Z
}.

(** CoercionSummary aggregates coercion counts. *)
Record CoercionSummary : Type := mkSummary {
  TotalCoercions : Z;
  ByType : gmap string Z;
  ByField : gmap string Z;
  Details : list CoercionSummaryDetail
}.

(** [m[k]++] on a [map[string]int]. *)
Definition increment (k : string) (m : gmap string Z) : gmap string Z :=
  <[k := default 0 (m !! k) + 1]> m.

Definition typeKey (c : coerce.Coercion) : string :=
  coerce.FromType c +:+ "->" +:+ coerce.ToType c.

Definition detailKey (c : coerce.Coercion) : string :=
  coerce.Field c +:+ ":" +:+ coerce.FromType c +:+ ":" +:+ coerce.ToType c.

(** The state of the loop of [Summarize]. *)
Record counts : Type := mkCounts {
  byType : gmap string Z;
  byField : gmap string Z;
  detailMap : gmap string CoercionSummaryDetail
}.

(** The body of [for _, c := range log.Coercions]. *)
Definition count (acc : counts) (c : coerce.Coercion) : counts :=
  mkCounts
    (increment (typeKey c) (byType acc))
    (increment (coerce.Field c) (byField acc))
    (match detailMap acc !! detailKey c with
     | Some d =>
         <[detailKey c := mkDetail (Field d) (FromType d) (ToType d) (Count d + 1)]>
           (detailMap acc)
     | None =>
         <[detailKey c :=
             mkDetail (coerce.Field c) (coerce.FromType c) (coerce.ToType c) 1]>
           (detailMap acc)
     end).

(** Summarize aggregates coercions into counts and details.  The
    details are listed in the order [map_to_list] gives, one of the
    orders Go may choose. *)
Definition Summarize (log : coerce.CoercionLog) : CoercionSummary :=
  let acc := foldl count (mkCounts ∅ ∅ ∅) log in
  mkSummary (Z.of_nat (length log)) (byType acc) (byField acc)
    (map_to_list (detailMap acc)).*2.

End WithRuntime.
End coercelog.

(** How often [key] gives [k] on the records of a log. *)
Definition occurrences `{GoRuntime} (key : coerce.Coercion -> string) (k : string)
    (log : list coerce.Coercion) : Z :=
  Z.of_nat (length (filter (fun c => key c = k) log)).

Definition sumZ (l : list Z) : Z := foldr Z.add 0 l.

(** The records the details of a loop state count. *)
Definition detailTotal (dm : gmap string coercelog.CoercionSummaryDetail) : Z :=
  sumZ (coercelog.Count <$> (map_to_list dm).*2).

(** Every count the loop holds is of at least one record. *)
Definition positive (acc : coercelog.counts) : Prop :=
  map_Forall (fun _ n => 1 <= n) (coercelog.byType acc)
  /\ map_Forall (fun _ n => 1 <= n) (coercelog.byField acc)
  /\ map_Forall (fun _ d => 1 <= coercelog.Count d) (coercelog.detailMap acc).

(** ** Vocabulary for the paths of the availability document *)

(** Where, in the availability document, the vehicle_type_id of the
    entry at index [i] of [GetVehicles] is: in the array "vehicles" when
    that is not empty, in the array "bikes" otherwise. *)
Definition documentPath `{GoRuntime} (vs : gbfs.VehicleStatusData.t) (i : nat) : string :=
  (if (0 <? length (gbfs.VehicleStatusData.Vehicles vs))%nat
   then "/data/vehicles/" else "/data/bikes/")
  +:+ pretty i +:+ "/vehicle_type_id".

(** Is the dangling reference of [vehicle] reported at its path in the
    document?  It is when a type was extracted and the entries are in
    "vehicles". *)
Definition reportedInPlace `{GoRuntime} (vehicleTypes : gmap string gbfs.VehicleType.t)
    (vs : gbfs.VehicleStatusData.t) (vehicle : gbfs.Vehicle.t) : bool :=
  negb (size vehicleTypes =? 0)%nat
  && danglingReference vehicleTypes vehicle
  && (0 <? length (gbfs.VehicleStatusData.Vehicles vs))%nat.

Module bikes.
Import reference.

Definition freeBikeStatusURL : string := "https://example.org/free_bike_status.json".

(** free_bike_status.json of version 2.3: one bike, of the vehicle type
    "ghost", in the array "bikes". *)
Definition freeBikeStatus : bytes :=
  Text (obj [ ("last_updated", JNum "1700000000");
              ("ttl", JNum "0");
              ("version", JStr "2.3");
              ("data", obj [("bikes",
                 JArr [obj [ ("bike_id", JStr "b1");
                             ("vehicle_type_id", JStr "ghost") ]])]) ]).

Definition ghostBikes : @gbfs.VehicleStatusData.t runtime :=
  @gbfs.VehicleStatusData.mk runtime [] [example.ghostVehicle].

(** The availability document and vehicle_types.json (with "bike1"). *)
Definition results : gmap string validator.FileValidationResult.t :=
  <[ "vehicle_types" :=
       example.fetched "vehicle_types" example.vehicleTypesURL example.vehicleTypes ]>
    {[ "free_bike_status" :=
         example.fetched "free_bike_status" freeBikeStatusURL freeBikeStatus ]}.

End bikes.

(** ** Vocabulary for the failures of a run *)

Section Failures.
Context `{JSONDecoder} `{fetcher.Network}.
Import validator.

(** The answer [validateGBFS] goes on with: that of the alternate URL
    when the manifest is fetched a second time. *)
Definition manifestAnswer (gbfsURL : string) : fetcher.FetchResult :=
  if manifestRetried gbfsURL
  then fetcher.Fetch (fetcher.BuildFeedURL gbfsURL "gbfs")
  else fetcher.Fetch gbfsURL.

(** The guard [fetchResult.Error != nil || !fetchResult.Exists]. *)
Definition notFetched (r : fetcher.FetchResult) : bool :=
  isSome (fetcher.Error r) || negb (fetcher.Exists r).

(** The version a run validates against: the configured one, else the
    one the manifest declares, else "1.0". *)
Definition validatedVersion (v : Validator) (feed : gbfs.GBFSFeed.t) : string :=
  if String.eqb (Options.Version (options v)) ""
  then (if String.eqb (gbfs.GBFSFeed.Version feed) "" then "1.0"
        else gbfs.GBFSFeed.Version feed)
  else Options.Version (options v).

(** The bytes the structure checks of a fetched document run on: what
    the coercer returns when there is one and it succeeds, else the
    body. *)
Definition validatedData (v : Validator) (body : bytes) (file : string) : bytes :=
  match coercer v with
  | Some c =>
      match (coerce.Coerce c body file).1 with
      | Some res => coerce.Data res
      | None => body
      end
  | None => body
  end.

(** The two documents cross-validation can make required. *)
Definition escalated : list string := ["vehicle_types"; "system_pricing_plans"].

(** What a report says of a document that was not listed or not
    fetched: a required one carries the Error [msg] first; an optional
    one carries nothing, unless cross-validation made it required. *)
Definition missingEncoded (req : version.FileRequirement) (msg : string)
    (fr : FileValidationResult.t) : Prop :=
  FileValidationResult.Exists fr = false
  /\ if version.Required req
     then FileValidationResult.Required fr = true
          /\ FileValidationResult.HasErrors fr = true
          /\ exists more,
               FileValidationResult.Errors fr = issue SeverityError msg "" :: more
     else version.File req ∉ escalated ->
          FileValidationResult.Errors fr = []
          /\ FileValidationResult.HasErrors fr = false.

(** What a report says of the requirement [req] in the result [fr]. *)
Definition documentEncoded (v : Validator) (feedURLs : gmap string string)
    (ver : string) (req : version.FileRequirement) (fr : FileValidationResult.t) : Prop :=
  let file := version.File req in
  FileValidationResult.File fr = file +:+ ".json"
  /\ match feedURLs !! file with
     | None =>
         missingEncoded req
           ("Required file " +:+ file +:+ ".json not found in autodiscovery") fr
     | Some url =>
         if notFetched (fetcher.Fetch url)
         then missingEncoded req
                ("Required file " +:+ file +:+ ".json could not be fetched: "
                 +:+ errorText (fetcher.Error (fetcher.Fetch url))) fr
         else FileValidationResult.Exists fr = true
              /\ exists more,
                   FileValidationResult.Errors fr
                   = validateFileStructure
                       (validatedData v (bodyBytes (fetcher.Body (fetcher.Fetch url))) file)
                       file ver
                     ++ more
     end.

End Failures.

(** [r'] is [r] after issues were added: the same document, nothing
    taken back. *)
Definition grows (r r' : validator.FileValidationResult.t) : Prop :=
  validator.FileValidationResult.File r' = validator.FileValidationResult.File r
  /\ validator.FileValidationResult.Exists r' = validator.FileValidationResult.Exists r
  /\ (validator.FileValidationResult.Required r = true ->
      validator.FileValidationResult.Required r' = true)
  /\ (validator.FileValidationResult.HasErrors r = true ->
      validator.FileValidationResult.HasErrors r' = true)
  /\ exists more,
       validator.FileValidationResult.Errors r'
       = validator.FileValidationResult.Errors r ++ more.

(** What a pass of cross-validation does to the results: every result
    stays and grows, and the result of a document that was not fetched
    is left as it was unless it is one of the two that can be made
    required. *)
Definition keeps (results results' : gmap string validator.FileValidationResult.t) : Prop :=
  forall (k : string) r,
    results !! k = Some r ->
    exists r', results' !! k = Some r' /\ grows r r'
               /\ (validator.FileValidationResult.Exists r = false ->
                   k ∉ escalated -> r' = r).

(** Runs for the failures that leave no issue. *)
Module silent.
Import reference.

(** Version 1.0 is configured: gbfs.json is optional. *)
Definition version10Options : validator.Options.t :=
  validator.Options.mk false false "1.0" false None.

Definition systemAlertsURL : string := "https://example.org/system_alerts.json".

(** The manifest lists system_information and system_alerts. *)
Definition manifest : bytes :=
  example.manifest "0" [ ("system_information", example.systemInformationURL);
                         ("system_alerts", systemAlertsURL) ].

(** system_alerts.json answers 500; the manifest and system_information
    are served. *)
Definition alertsDown : fetcher.Network :=
  {| fetcher.roundTrip := fun url =>
       if String.eqb url systemAlertsURL then fetcher.Response 500 None ""
       else @fetcher.roundTrip
              (example.serving [ (example.manifestURL, manifest);
                                 (example.systemInformationURL, example.systemInformation) ])
              url |}.

End silent.

(** ** Package fetcher: requests and authentication

    [fetcher.Fetch] above answers from one [roundTrip] per URL.  Here is
    what is behind it: the request [Fetch] builds, [applyAuth], the
    token request of [getOAuthToken] with its cache [f.token], and the
    requests handed to the HTTP client. *)

Module auth.

Definition AuthNone : string := "none".
Definition AuthBasic : string := "basic_auth".
Definition AuthBearerToken : string := "bearer_token".
Definition AuthOAuthClientCredentials : string := "oauthclient_credentials_grant".
Definition AuthHeaders : string := "headers".

(** BasicAuthConfig holds username/password credentials. *)
Module BasicAuthConfig.
Record t : Type := mk { User : string; Password : string }.
End BasicAuthConfig.

(** BearerTokenConfig holds a bearer token. *)
Module BearerTokenConfig.
Record t : Type := mk { Token : string }.
End BearerTokenConfig.

(** OAuthConfig holds client credentials config. *)
Module OAuthConfig.
Record t : Type := mk { User : string; Password : string; TokenURL : string }.
End OAuthConfig.

(** HeaderConfig defines a header to send with requests. *)
Module HeaderConfig.
Record t : Type := mk { Key : string; Value : string }.
End HeaderConfig.

(** AuthConfig configures authentication for feed requests. *)
Module AuthConfig.
Record t : Type := mk {
  Type_ : string;
  BasicAuth : option BasicAuthConfig.t;
  BearerToken : option BearerTokenConfig.t;
  OAuthClientCredentials : option OAuthConfig.t;
  Headers : list HeaderConfig.t
}.
End AuthConfig.

(** An [*http.Request]: method, URL, header and body. *)
Module Request.
Record t : Type := mk {
  Method : string;
  URL : string;
  Header : gmap string string;
  Body : string
}.
End Request.

(** What [f.client.Do] returns: an error, or a response with its status
    and its body ([None] when reading it fails, with the error). *)
Inductive reply : Type :=
| Failed (err : string)
| Answer (status : Z) (body : option bytes) (readErr : string).

(** The HTTP client and the library functions the fetcher calls. *)
Class Transport : Type := {
  (** the error of [http.NewRequestWithContext] for a method and a URL *)
  requestError : string -> string -> option string;
  (** [f.client.Do] *)
  Do : Request.t -> reply;
  (** the key [Header.Set] files a value under *)
  CanonicalHeaderKey : string -> string;
  (** [base64.StdEncoding.EncodeToString] *)
  EncodeToString : string -> string;
  (** decoding a token response: its access_token, [None] on an error *)
  decodeAccessToken : bytes -> option string;
  decodeTokenErrorText : bytes -> string
}.

Section WithTransport.
Context `{Transport}.

(** [req.Header.Set(key, value)] *)
Definition HeaderSet (key value : string) (req : Request.t) : Request.t :=
  Request.mk (Request.Method req) (Request.URL req)
    (<[CanonicalHeaderKey key := value]> (Request.Header req)) (Request.Body req).

(** Fetcher wraps an HTTP client with auth support. *)
Record Fetcher : Type := mkFetcher {
  auth : option AuthConfig.t;
  userAgent : string;
  token : string
}.

Definition setToken (t : string) (f : Fetcher) : Fetcher :=
  mkFetcher (auth f) (userAgent f) t.

(** getOAuthToken fetches an OAuth token with client credentials.  The
    result is the token and the error, the fetcher with its cache, and
    the requests handed to the client. *)
Definition getOAuthToken (f : Fetcher) (cfg : OAuthConfig.t)
    : string * option string * Fetcher * list Request.t :=
  if negb (String.eqb (token f) "") then (token f, None, f, [])
  else
    match requestError "POST" (OAuthConfig.TokenURL cfg) with
    | Some err => ("", Some err, f, [])
    | None =>
        let req :=
          Request.mk "POST" (OAuthConfig.TokenURL cfg) ∅ "grant_type=client_credentials" in
        let req := HeaderSet "Content-Type" "application/x-www-form-urlencoded" req in
        let req :=
          HeaderSet "Authorization"
            ("Basic " +:+ EncodeToString
                            (OAuthConfig.User cfg +:+ ":" +:+ OAuthConfig.Password cfg))
            req in
        match Do req with
        | Failed err => ("", Some err, f, [req])
        | Answer _ None readErr => ("", Some readErr, f, [req])
        | Answer _ (Some body) _ =>
            match decodeAccessToken body with
            | None => ("", Some (decodeTokenErrorText body), f, [req])
            | Some accessToken => (accessToken, None, setToken accessToken f, [req])
            end
        end
    end.

(** applyAuth adds auth headers to a request. *)
Definition applyAuth (f : Fetcher) (req : Request.t)
    : option string * Request.t * Fetcher * list Request.t :=
  match auth f with
  | None => (None, req, f, [])
  | Some a =>
      let ty := AuthConfig.Type_ a in
      if String.eqb ty AuthNone then (None, req, f, [])
      else if String.eqb ty AuthBasic then
        match AuthConfig.BasicAuth a with
        | Some b =>
            (None,
             HeaderSet "Authorization"
               ("Basic " +:+ EncodeToString
                               (BasicAuthConfig.User b +:+ ":"
                                +:+ BasicAuthConfig.Password b)) req,
             f, [])
        | None => (None, req, f, [])
        end
      else if String.eqb ty AuthBearerToken then
        match AuthConfig.BearerToken a with
        | Some b =>
            (None, HeaderSet "Authorization" ("Bearer " +:+ BearerTokenConfig.Token b) req, f, [])
        | None => (None, req, f, [])
        end
      else if String.eqb ty AuthOAuthClientCredentials then
        match AuthConfig.OAuthClientCredentials a with
        | Some cfg =>
            let '(tok, err, f, sent) := getOAuthToken f cfg in
            match err with
            | Some e => (Some e, req, f, sent)
            | None => (None, HeaderSet "Authorization" ("Bearer " +:+ tok) req, f, sent)
            end
        | None => (None, req, f, [])
        end
      else if String.eqb ty AuthHeaders then
        (None,
         foldl (fun req h =>
                  if negb (String.eqb (HeaderConfig.Key h) "")
                     && negb (String.eqb (HeaderConfig.Value h) "")
                  then HeaderSet (HeaderConfig.Key h) (HeaderConfig.Value h) req
                  else req) req (AuthConfig.Headers a),
         f, [])
      else (None, req, f, [])
  end.

(** The part of [Fetch] up to the response: what [fetcher.Fetch] takes
    as the answer of the network, the fetcher afterwards, and the
    requests handed to the client. *)
Definition roundTrip (f : Fetcher) (targetURL : string)
    : fetcher.httpReply * Fetcher * list Request.t :=
  match requestError "GET" targetURL with
  | Some err => (fetcher.BadRequest err, f, [])
  | None =>
      let req := Request.mk "GET" targetURL ∅ "" in
      let req := HeaderSet "User-Agent" (userAgent f) req in
      let req := HeaderSet "Accept" "application/json" req in
      let '(err, req, f, sent) := applyAuth f req in
      match err with
      | Some e => (fetcher.AuthFailed e, f, sent)
      | None =>
          match Do req with
          | Failed e => (fetcher.DoFailed e, f, sent ++ [req])
          | Answer status body readErr =>
              (fetcher.Response status body readErr, f, sent ++ [req])
          end
      end
  end.

(** Fetch retrieves a URL and returns the raw response body. *)
Definition Fetch (f : Fetcher) (targetURL : string)
    : fetcher.FetchResult * Fetcher * list Request.t :=
  let '(answer, f, sent) := roundTrip f targetURL in
  (@fetcher.Fetch {| fetcher.roundTrip := fun _ => answer |} targetURL, f, sent).

(** The requests of the calls of [Fetch] for [urls], one after another. *)
Fixpoint requestsOf (f : Fetcher) (urls : list string) : list Request.t :=
  match urls with
  | [] => []
  | url :: rest =>
      let '(_, f', sent) := Fetch f url in
      sent ++ requestsOf f' rest
  end.

(** The network [fetcher.Fetch] sees when the fetcher is [f]. *)
Definition network (f : Fetcher) : fetcher.Network :=
  {| fetcher.roundTrip := fun url => (roundTrip f url).1.1 |}.

(** The OAuth configuration [applyAuth] uses, when there is one. *)
Definition oauthOf (f : Fetcher) : option OAuthConfig.t :=
  match auth f with
  | Some a =>
      if String.eqb (AuthConfig.Type_ a) AuthOAuthClientCredentials
      then AuthConfig.OAuthClientCredentials a
      else None
  | None => None
  end.

(** The configuration whose token [Fetch] has to ask for: OAuth is
    configured and no token is cached. *)
Definition tokenWanted (f : Fetcher) : option OAuthConfig.t :=
  if String.eqb (token f) "" then oauthOf f else None.

(** The token requests among [sent]. *)
Definition tokenRequests (sent : list Request.t) : list string :=
  Request.URL <$> filter (fun r => Request.Method r = "POST") sent.

(** The document requests among [sent]. *)
Definition documentRequests (sent : list Request.t) : list string :=
  Request.URL <$> filter (fun r => Request.Method r = "GET") sent.

(** The token request [Fetch f targetURL] sends: none when the request
    for the document cannot be created or no token is wanted. *)
Definition tokenAsked (f : Fetcher) (targetURL : string) : list string :=
  match requestError "GET" targetURL, tokenWanted f with
  | None, Some cfg =>
      match requestError "POST" (OAuthConfig.TokenURL cfg) with
      | None => [OAuthConfig.TokenURL cfg]
      | Some _ => []
      end
  | _, _ => []
  end.

End WithTransport.
End auth.

(** ** Vocabulary for the fetches of a run *)

Section Fetches.
Context `{JSONDecoder} `{fetcher.Network}.
Import validator.

(** The alternate URL of the manifest, for a URL that does not end in
    gbfs.json. *)
Definition alternateURL (gbfsURL : string) : string :=
  gbfsURL +:+ (if HasSuffix gbfsURL "/" then "gbfs.json" else "/gbfs.json").

(** The documents a run fetches after the manifest: one per requirement
    of the validated version that the manifest lists, none when the
    manifest was not fetched or does not decode. *)
Definition documentFetches (v : Validator) (gbfsURL : string) : list string :=
  if notFetched (manifestAnswer gbfsURL) then []
  else
    match decodeGBFSFeed (bodyBytes (fetcher.Body (manifestAnswer gbfsURL))) with
    | None => []
    | Some feed =>
        match version.GetFileRequirements (validatedVersion v feed)
                (version.mkOptions (Options.Docked (options v))
                   (Options.Freefloating (options v))) with
        | Ret reqs =>
            omap (fun req => buildFeedURLMap feed gbfsURL !! version.File req) reqs
        | Panic _ => []
        end
    end.

End Fetches.


(** Runs for the fetch histories. *)
Module retries.
Import reference.

(** A manifest URL that does not end in gbfs.json, and answers. *)
Definition feedURL : string := "https://example.org/feed".

Definition answering : fetcher.Network :=
  example.serving [ (feedURL, example.onlySystemInformation);
                    (example.systemInformationURL, example.systemInformation) ].

(** [base64.StdEncoding.EncodeToString] *)
Definition alphabet : string :=
  "ABCDEFGHIJKLMNOPQRSTUVWXYZabcdefghijklmnopqrstuvwxyz0123456789+/".

Definition sextet (n : N) (shift : N) : string :=
  match String.get (N.to_nat (N.land (N.shiftr n shift) 63)) alphabet with
  | Some c => String c EmptyString
  | None => ""
  end.

Fixpoint EncodeToString (s : string) : string :=
  match s with
  | String a (String b (String c rest)) =>
      let n := (N_of_ascii a * 65536 + N_of_ascii b * 256 + N_of_ascii c)%N in
      sextet n 18 +:+ sextet n 12 +:+ sextet n 6 +:+ sextet n 0 +:+ EncodeToString rest
  | String a (String b EmptyString) =>
      let n := (N_of_ascii a * 65536 + N_of_ascii b * 256)%N in
      sextet n 18 +:+ sextet n 12 +:+ sextet n 6 +:+ "="
  | String a EmptyString =>
      let n := (N_of_ascii a * 65536)%N in
      sextet n 18 +:+ sextet n 12 +:+ "=="
  | EmptyString => ""
  end.

Definition tokenURL : string := "https://example.org/oauth/token".

(** The token endpoint answers an object without access_token; the
    manifest and system_information are served whatever the headers. *)
Definition emptyToken : auth.Transport :=
  {| auth.requestError := fun _ _ => None;
     auth.Do := fun req =>
       if String.eqb (auth.Request.Method req) "POST"
       then auth.Answer 200 (Some (Text (obj []))) ""
       else
         match (list_to_map
                  [ (example.manifestURL, example.onlySystemInformation);
                    (example.systemInformationURL, example.systemInformation) ]
                : gmap string bytes) !! auth.Request.URL req with
         | Some body => auth.Answer 200 (Some body) ""
         | None => auth.Answer 404 None ""
         end;
     auth.CanonicalHeaderKey := fun key => key;
     auth.EncodeToString := EncodeToString;
     auth.decodeAccessToken := fun body =>
       match body with
       | Text (JObj o) =>
           match o !! "access_token" with
           | None | Some JNull => Some ""
           | Some (JStr t) => Some t
           | Some _ => None
           end
       | Text JNull => Some ""
       | _ => None
       end;
     auth.decodeTokenErrorText := fun _ => "invalid character" |}.

(** A fetcher with OAuth client credentials and no token yet. *)
Definition oauthFetcher : auth.Fetcher :=
  auth.mkFetcher
    (Some (auth.AuthConfig.mk auth.AuthOAuthClientCredentials None None
             (Some (auth.OAuthConfig.mk "id" "secret" tokenURL)) []))
    "GBFS-Validator-Go/1.0" "".

End retries.

(** * Properties *)

(** ** The version policy *)

Lemma Configs_keys : version.configEntries.*1 = version.SupportedVersions.
Proof. reflexivity. Qed.

Lemma Configs_unknown (v : string) :
  v ∉ version.SupportedVersions -> version.Configs !! v = None.
Proof.
  intros Hv. unfold version.Configs.
  apply not_elem_of_list_to_map_1. by rewrite Configs_keys.
Qed.

Lemma Configs_known (v : string) (cfg : version.Config) :
  version.Configs !! v = Some cfg -> (v, cfg) ∈ version.configEntries.
Proof. unfold version.Configs. apply elem_of_list_to_map_2. Qed.

(** Every entry of the table carries its [Files] function, so the lookup
    never calls a nil function. *)
Lemma GetFileRequirements_total (v : string) (opts : version.Options) :
  exists reqs, version.GetFileRequirements v opts = Ret reqs.
Proof.
  unfold version.GetFileRequirements.
  destruct (version.Configs !! v) as [cfg|] eqn:Hv.
  - apply Configs_known in Hv. unfold version.configEntries in Hv.
    repeat (apply elem_of_cons in Hv as [Hv|Hv];
            [injection Hv as -> ->; eexists; reflexivity|]).
    by apply elem_of_nil in Hv.
  - eexists. reflexivity.
Qed.

(** C9. For each of the eight supported versions and every combination of
    the deployment flags, the lookup returns the list the table entry of
    that version produces, with one requirement per document name (the
    names are pairwise distinct and do not depend on the flags); and with
    docked=false and freefloating=false the only required document is
    system_information, so no station-based and no vehicle-based
    availability document is required. *)
Theorem requirements_follow_table (v : string) (opts : version.Options) :
  v ∈ version.SupportedVersions ->
  exists cfg files,
    version.Configs !! v = Some cfg /\
    version.Files cfg = Some files /\
    version.GetFileRequirements v opts = Ret (files opts) /\
    NoDup (version.File <$> files opts) /\
    version.File <$> files opts
      = version.File <$> files (version.mkOptions false false) /\
    filter (fun r => version.Required r = true) (files (version.mkOptions false false))
      = [version.mkReq "system_information" true] /\
    Forall (fun r => version.Required r = true -> version.File r ∉ stationOrVehicleDocs)
      (files (version.mkOptions false false)).
Proof.
  intros Hv. unfold version.SupportedVersions in Hv.
  destruct opts as [d f].
  repeat (apply elem_of_cons in Hv as [->|Hv];
    [ eexists; eexists;
      split; [vm_compute; reflexivity|];
      split; [reflexivity|];
      split; [reflexivity|];
      split; [apply (bool_decide_unpack _); vm_compute; exact I|];
      split; [reflexivity|];
      split; [reflexivity|];
      repeat constructor; simpl; intros Hreq; try discriminate Hreq;
      unfold stationOrVehicleDocs; intros Hin;
      repeat (apply elem_of_cons in Hin as [Hin|Hin]; [discriminate Hin|]);
      by apply elem_of_nil in Hin
    |]).
  by apply elem_of_nil in Hv.
Qed.

Lemma requirements_follow_table_witness :
  "2.3" ∈ version.SupportedVersions /\
  (exists cfg files,
    version.Configs !! "2.3" = Some cfg /\
    version.Files cfg = Some files /\
    version.GetFileRequirements "2.3" (version.mkOptions true false)
      = Ret (files (version.mkOptions true false)) /\
    NoDup (version.File <$> files (version.mkOptions true false)) /\
    version.File <$> files (version.mkOptions true false)
      = version.File <$> files (version.mkOptions false false) /\
    filter (fun r => version.Required r = true) (files (version.mkOptions false false))
      = [version.mkReq "system_information" true] /\
    Forall (fun r => version.Required r = true -> version.File r ∉ stationOrVehicleDocs)
      (files (version.mkOptions false false))).
Proof.
  assert (Hv : "2.3" ∈ version.SupportedVersions).
  { unfold version.SupportedVersions. set_solver. }
  split; [exact Hv|].
  exact (requirements_follow_table "2.3" (version.mkOptions true false) Hv).
Defined.

(** C5, as the code has it. For every version string that is not one of
    the eight supported versions the lookup does not fail: it returns the
    requirements of the table entry of version 3.0. *)
Theorem unknown_version_falls_back_to_3_0 (v : string) (opts : version.Options) :
  v ∉ version.SupportedVersions ->
  exists cfg files,
    version.Configs !! "3.0" = Some cfg /\
    version.Files cfg = Some files /\
    version.GetFileRequirements v opts = Ret (files opts).
Proof.
  intros Hv. eexists; eexists.
  split; [vm_compute; reflexivity|]. split; [reflexivity|].
  unfold version.GetFileRequirements. by rewrite (Configs_unknown v Hv).
Qed.

Lemma unknown_version_falls_back_to_3_0_witness :
  ("4.0" ∉ version.SupportedVersions) /\
  (exists cfg files,
    version.Configs !! "3.0" = Some cfg /\
    version.Files cfg = Some files /\
    version.GetFileRequirements "4.0" (version.mkOptions true true)
      = Ret (files (version.mkOptions true true))).
Proof.
  assert (Hv : "4.0" ∉ version.SupportedVersions).
  { unfold version.SupportedVersions. intros Hin.
    repeat (apply elem_of_cons in Hin as [Hin|Hin]; [discriminate Hin|]).
    by apply elem_of_nil in Hin. }
  split; [exact Hv|].
  exact (unknown_version_falls_back_to_3_0 "4.0" (version.mkOptions true true) Hv).
Defined.

(** C5, as the claim states it, fails: the entry of 3.1-RC2 lists twelve
    documents, and the unsupported version "4.0" gets the eleven of 3.0. *)
Lemma unknown_version_not_newest_entry :
  ("4.0" ∉ version.SupportedVersions) /\
  (exists cfg files,
    version.Configs !! "3.1-RC2" = Some cfg /\
    version.Files cfg = Some files /\
    length (files (version.mkOptions false false)) = 12%nat /\
    (exists reqs,
      version.GetFileRequirements "4.0" (version.mkOptions false false) = Ret reqs /\
      length reqs = 11%nat /\
      reqs <> files (version.mkOptions false false))).
Proof.
  split.
  { unfold version.SupportedVersions. intros Hin.
    repeat (apply elem_of_cons in Hin as [Hin|Hin]; [discriminate Hin|]).
    by apply elem_of_nil in Hin. }
  eexists; eexists.
  split; [vm_compute; reflexivity|]. split; [reflexivity|].
  split; [reflexivity|].
  eexists. split; [vm_compute; reflexivity|]. split; [reflexivity|].
  discriminate.
Qed.

(** ** The orchestrator *)

Section Orchestrator.
Context `{JSONDecoder} `{fetcher.Network}.

Import validator.

(** *** Fetch histories *)

Lemma validateGBFS_trace (v : Validator) (gbfsURL : string) (tr : list string) :
  (validateGBFS v gbfsURL tr).2
  = tr ++ gbfsURL ::
      (if manifestRetried gbfsURL then [fetcher.BuildFeedURL gbfsURL "gbfs"] else []).
Proof.
  unfold validateGBFS, manifestRetried, bind, fetch, ret.
  destruct (isSome (fetcher.Error (fetcher.Fetch gbfsURL))
            && negb (HasSuffix gbfsURL "gbfs.json")); simpl.
  - rewrite <- app_assoc. simpl.
    repeat match goal with
           | |- context [if ?b then _ else _] => destruct b
           | |- context [match ?o with Some _ => _ | None => _ end] => destruct o
           end; reflexivity.
  - repeat match goal with
           | |- context [if ?b then _ else _] => destruct b
           | |- context [match ?o with Some _ => _ | None => _ end] => destruct o
           end; reflexivity.
Qed.

Lemma validateFile_trace (v : Validator) (feedURLs : gmap string string)
    (ver : string) (req : version.FileRequirement) (tr : list string) :
  (validateFile v feedURLs ver req tr).2
  = tr ++ match feedURLs !! version.File req with Some url => [url] | None => [] end.
Proof.
  unfold validateFile, bind, fetch, ret.
  destruct (feedURLs !! version.File req) as [url|]; simpl.
  - repeat match goal with
           | |- context [if ?b then _ else _] => destruct b
           | |- context [match ?o with Some _ => _ | None => _ end] => destruct o
           | |- context [let '(_, _) := ?p in _] => destruct p
           end; reflexivity.
  - by rewrite app_nil_r.
Qed.

Lemma validateFilesFrom_trace (v : Validator) (feedURLs : gmap string string)
    (ver : string) (reqs : list version.FileRequirement)
    (results : gmap string FileValidationResult.t) (tr : list string) :
  (validateFilesFrom v feedURLs ver reqs results tr).2
  = tr ++ omap (fun req => feedURLs !! version.File req) reqs.
Proof.
  revert results tr. induction reqs as [|req rest IH]; intros results tr; simpl.
  - by rewrite app_nil_r.
  - unfold bind.
    pose proof (validateFile_trace v feedURLs ver req tr) as Hreq.
    destruct (validateFile v feedURLs ver req tr) as [r tr1]. simpl in Hreq.
    rewrite IH, Hreq, <- app_assoc. f_equal.
    destruct (feedURLs !! version.File req); reflexivity.
Qed.

End Orchestrator.

(** ** What the cross-reference passes leave alone *)

Section CrossValidation.
Context `{JSONDecoder}.

Import validator.

Lemma fileName_cases (ver : string) :
  version.GetVehicleStatusFileName ver = "vehicle_status"
  \/ version.GetVehicleStatusFileName ver = "free_bike_status".
Proof. unfold version.GetVehicleStatusFileName. destruct (version.IsV3OrLater ver); auto. Qed.

Lemma rawOf_not_fetched (results : gmap string FileValidationResult.t)
    (name : string) (r : FileValidationResult.t) :
  results !! name = Some r -> FileValidationResult.Exists r = false ->
  rawOf results name = None.
Proof. intros Hr He. unfold rawOf. by rewrite Hr, He. Qed.

Lemma validateVehicleTypeReferences_other results vehicleTypes ver (k : string) :
  k <> version.GetVehicleStatusFileName ver ->
  validateVehicleTypeReferences results vehicleTypes ver !! k = results !! k.
Proof.
  intros Hk. unfold validateVehicleTypeReferences.
  repeat match goal with
         | |- context [match ?o with Some _ => _ | None => _ end] => destruct o
         | |- context [if ?b then _ else _] => destruct b
         end; try reflexivity.
  by rewrite lookup_insert_ne.
Qed.

Lemma validatePricingPlanReferences_other results pricingPlans ver (k : string) :
  k <> "vehicle_types" ->
  validatePricingPlanReferences results pricingPlans ver !! k = results !! k.
Proof.
  intros Hk. unfold validatePricingPlanReferences.
  repeat match goal with
         | |- context [match ?o with Some _ => _ | None => _ end] => destruct o
         | |- context [if ?b then _ else _] => destruct b
         end; try reflexivity.
  by rewrite lookup_insert_ne.
Qed.

Lemma validateStationIDReferences_other results stationIDs ver (k : string) :
  k <> "station_status" ->
  validateStationIDReferences results stationIDs ver !! k = results !! k.
Proof.
  intros Hk. unfold validateStationIDReferences.
  repeat match goal with
         | |- context [match ?o with Some _ => _ | None => _ end] => destruct o
         | |- context [if ?b then _ else _] => destruct b
         end; try reflexivity.
  by rewrite lookup_insert_ne.
Qed.

Lemma validateStationIDReferences_not_fetched results stationIDs ver :
  rawOf results "station_status" = None ->
  validateStationIDReferences results stationIDs ver = results.
Proof.
  intros Hraw. unfold validateStationIDReferences. rewrite Hraw.
  destruct (size stationIDs =? 0)%nat; [reflexivity|].
  by destruct (results !! "station_status").
Qed.

Lemma escalate_other results (name msg k : string) :
  k <> name -> escalate results name msg !! k = results !! k.
Proof.
  intros Hk. unfold escalate.
  destruct (results !! name) as [r|].
  - destruct (FileValidationResult.Exists r); [reflexivity|]. by rewrite lookup_insert_ne.
  - by rewrite lookup_insert_ne.
Qed.

Lemma checkConditionalVehicleTypes_other results ver (k : string) :
  k <> "vehicle_types" ->
  checkConditionalVehicleTypes results ver !! k = results !! k.
Proof.
  intros Hk. unfold checkConditionalVehicleTypes.
  repeat match goal with
         | |- context [match ?o with Some _ => _ | None => _ end] => destruct o
         | |- context [if ?b then _ else _] => destruct b
         end; try reflexivity.
  by apply escalate_other.
Qed.

Lemma checkConditionalPricingPlans_other results ver (k : string) :
  k <> "system_pricing_plans" ->
  checkConditionalPricingPlans results ver !! k = results !! k.
Proof.
  intros Hk. unfold checkConditionalPricingPlans.
  repeat match goal with
         | |- context [match ?o with Some _ => _ | None => _ end] => destruct o
         | |- context [if ?b then _ else _] => destruct b
         end; try reflexivity.
  by apply escalate_other.
Qed.

(** No pass writes the result of station_information. *)
Lemma crossValidate_station_information results ver :
  crossValidate results ver !! "station_information" = results !! "station_information".
Proof.
  unfold crossValidate.
  rewrite checkConditionalPricingPlans_other by discriminate.
  rewrite checkConditionalVehicleTypes_other by discriminate.
  rewrite validateStationIDReferences_other by discriminate.
  rewrite validatePricingPlanReferences_other by discriminate.
  rewrite validateVehicleTypeReferences_other; [reflexivity|].
  destruct (fileName_cases ver) as [-> | ->]; discriminate.
Qed.

(** The result of station_status is written only when the document was
    fetched. *)
Lemma crossValidate_station_status_not_fetched results ver r :
  results !! "station_status" = Some r ->
  FileValidationResult.Exists r = false ->
  crossValidate results ver !! "station_status" = Some r.
Proof.
  intros Hr He. unfold crossValidate.
  rewrite checkConditionalPricingPlans_other by discriminate.
  rewrite checkConditionalVehicleTypes_other by discriminate.
  rewrite validateStationIDReferences_not_fetched.
  - rewrite validatePricingPlanReferences_other by discriminate.
    rewrite validateVehicleTypeReferences_other; [exact Hr|].
    destruct (fileName_cases ver) as [-> | ->]; discriminate.
  - apply rawOf_not_fetched with r; [|exact He].
    rewrite validatePricingPlanReferences_other by discriminate.
    rewrite validateVehicleTypeReferences_other; [exact Hr|].
    destruct (fileName_cases ver) as [-> | ->]; discriminate.
Qed.

End CrossValidation.

(** ** The per-document results *)

Section FileResults.
Context `{JSONDecoder} `{fetcher.Network}.

Import validator.

Lemma validateFilesFrom_lookup_other (v : Validator) feedURLs ver reqs results tr (k : string) :
  k ∉ version.File <$> reqs ->
  (validateFilesFrom v feedURLs ver reqs results tr).1 !! k = results !! k.
Proof.
  revert results tr. induction reqs as [|req rest IH]; intros results tr Hk; [reflexivity|].
  simpl. unfold bind. destruct (validateFile v feedURLs ver req tr) as [r tr1].
  rewrite fmap_cons, not_elem_of_cons in Hk. destruct Hk as [Hne Hk].
  rewrite IH by exact Hk. by rewrite lookup_insert_ne.
Qed.

(** With pairwise distinct names, the entry of a requirement is what its
    own goroutine computed. *)
Lemma validateFilesFrom_lookup (v : Validator) feedURLs ver reqs results tr req :
  NoDup (version.File <$> reqs) -> req ∈ reqs ->
  exists tr0,
    (validateFilesFrom v feedURLs ver reqs results tr).1 !! version.File req
    = Some (validateFile v feedURLs ver req tr0).1.
Proof.
  revert results tr. induction reqs as [|r0 rest IH]; intros results tr Hnd Hin.
  - by apply elem_of_nil in Hin.
  - rewrite fmap_cons in Hnd. apply NoDup_cons in Hnd as [Hfresh Hnd].
    simpl. unfold bind.
    destruct (validateFile v feedURLs ver r0 tr) as [res tr1] eqn:Hres.
    apply elem_of_cons in Hin as [-> | Hin].
    + exists tr. rewrite validateFilesFrom_lookup_other by exact Hfresh.
      rewrite lookup_insert_eq, Hres. reflexivity.
    + apply IH; assumption.
Qed.

(** A required document that the manifest does not list. *)
Lemma validateFile_unlisted (v : Validator) feedURLs ver (name : string) tr :
  feedURLs !! name = None ->
  (validateFile v feedURLs ver (version.mkReq name true) tr).1
  = failWith
      (issue SeverityError ("Required file " +:+ name +:+ ".json not found in autodiscovery") "")
      (FileValidationResult.setExists false (FileValidationResult.new (name +:+ ".json") true)).
Proof. intros Hno. unfold validateFile. simpl. rewrite Hno. reflexivity. Qed.

Lemma tally_files (acc : tally) (l : list FileValidationResult.t) :
  files (foldl addFile acc l) = files acc ++ l.
Proof.
  revert acc. induction l as [|fr l IH]; intros acc; simpl.
  - by rewrite app_nil_r.
  - rewrite IH. simpl. by rewrite <- app_assoc.
Qed.

Lemma tally_errorsCount (acc : tally) (l : list FileValidationResult.t) :
  errorsCount (foldl addFile acc l)
  = errorsCount acc + foldr Z.add 0 (FileValidationResult.ErrorsCount <$> l).
Proof.
  revert acc. induction l as [|fr l IH]; intros acc; [simpl; lia|].
  rewrite fmap_cons. cbn [foldl foldr]. rewrite IH. cbn [addFile errorsCount]. lia.
Qed.

Lemma tally_hasErrors (acc : tally) (l : list FileValidationResult.t) :
  hasErrors (foldl addFile acc l)
  = hasErrors acc || existsb FileValidationResult.HasErrors l.
Proof.
  revert acc. induction l as [|fr l IH]; intros acc; simpl.
  - by rewrite orb_false_r.
  - rewrite IH. simpl. destruct (FileValidationResult.HasErrors fr), (hasErrors acc); reflexivity.
Qed.

End FileResults.

Lemma docked_requirements (ver : string) (opts : version.Options) :
  version.Docked opts = true ->
  exists reqs,
    version.GetFileRequirements ver opts = Ret reqs /\
    NoDup (version.File <$> reqs) /\
    version.mkReq "station_information" true ∈ reqs /\
    version.mkReq "station_status" true ∈ reqs.
Proof.
  intros Hd. destruct opts as [d f]. simpl in Hd. subst d.
  assert (Hcase : forall files,
    (files = version.files_1_0 \/ files = version.files_1_1 \/ files = version.files_2_0
     \/ files = version.files_2_1 \/ files = version.files_2_2 \/ files = version.files_2_3
     \/ files = version.files_3_0 \/ files = version.files_3_1_RC2) ->
    NoDup (version.File <$> files (version.mkOptions true f)) /\
    version.mkReq "station_information" true ∈ files (version.mkOptions true f) /\
    version.mkReq "station_status" true ∈ files (version.mkOptions true f)).
  { intros files Hf.
    repeat (destruct Hf as [-> | Hf]);
      try subst files;
      (split; [apply (bool_decide_unpack _); vm_compute; exact I|]);
      split; simpl; set_solver. }
  unfold version.GetFileRequirements.
  destruct (version.Configs !! ver) as [cfg|] eqn:Hv.
  - apply Configs_known in Hv. unfold version.configEntries in Hv.
    repeat (apply elem_of_cons in Hv as [Hv|Hv];
            [injection Hv as -> ->; eexists; split; [reflexivity|];
             apply Hcase; tauto|]).
    by apply elem_of_nil in Hv.
  - eexists. split; [reflexivity|]. apply Hcase; tauto.
Qed.

(** ** Documents required by the deployment flags *)

Section DockedRun.
Context `{JSONDecoder} `{fetcher.Network}.

Import validator.

Lemma validateGBFS_fetched (v : Validator) gbfsURL tr body readErr feed :
  fetcher.roundTrip gbfsURL = fetcher.Response 200 (Some body) readErr ->
  decodeGBFSFeed body = Some feed ->
  exists gbfsResult,
    validateGBFS v gbfsURL tr = ((gbfsResult, Some feed, None), tr ++ [gbfsURL]).
Proof.
  intros Hrt Hdec. unfold validateGBFS, bind, fetch, ret, fetcher.Fetch.
  rewrite Hrt. cbn. rewrite Hdec. eexists. reflexivity.
Qed.

Lemma unlisted_reportedMissing (name : string) :
  reportedMissing name
    (failWith
       (issue SeverityError ("Required file " +:+ name +:+ ".json not found in autodiscovery") "")
       (FileValidationResult.setExists false (FileValidationResult.new (name +:+ ".json") true))).
Proof.
  repeat split. eexists. split; [apply list_elem_of_here|reflexivity].
Qed.

(** C4. A run whose manifest is fetched, decodes, and declares only
    system_information, with docked=true (any version override, any
    other option): the report holds file results for station_information
    and station_status with required=true, exists=false, the error flag
    set and an Error-severity issue. *)
Theorem docked_station_documents_reported
    (v : Validator) (gbfsURL : string) (tr : list string)
    (body : bytes) (readErr : string) (feed : gbfs.GBFSFeed.t) (url : string) :
  fetcher.roundTrip gbfsURL = fetcher.Response 200 (Some body) readErr ->
  decodeGBFSFeed body = Some feed ->
  gbfs.GBFSFeed.Feeds feed = [gbfs.FeedInfo.mk "system_information" url] ->
  Options.Docked (options v) = true ->
  exists report tr',
    Validate v gbfsURL tr = (Ret (report, None), tr') /\
    Forall (fun name =>
              exists fr, fr ∈ ValidationResult.Files report /\ reportedMissing name fr)
      ["station_information"; "station_status"].
Proof.
  intros Hrt Hdec Hfeeds Hdocked.
  destruct (validateGBFS_fetched v gbfsURL tr body readErr feed Hrt Hdec) as [g Hg].
  unfold Validate, bind. rewrite Hg.
  set (ver := if String.eqb (Options.Version (options v)) "" then _ else _).
  destruct (docked_requirements ver
              (version.mkOptions (Options.Docked (options v))
                 (Options.Freefloating (options v))) Hdocked)
    as (reqs & -> & Hnd & Hsi & Hss).
  assert (Hurls : forall name : string,
            name <> "system_information" ->
            buildFeedURLMap feed gbfsURL !! name = None).
  { intros name Hne. unfold buildFeedURLMap. rewrite Hfeeds. simpl.
    rewrite lookup_insert_ne by congruence. apply lookup_empty. }
  unfold validateFiles.
  destruct (validateFilesFrom_lookup v (buildFeedURLMap feed gbfsURL) ver reqs ∅
              (tr ++ [gbfsURL]) _ Hnd Hsi) as [t1 H1'].
  destruct (validateFilesFrom_lookup v (buildFeedURLMap feed gbfsURL) ver reqs ∅
              (tr ++ [gbfsURL]) _ Hnd Hss) as [t2 H2'].
  destruct (validateFilesFrom v (buildFeedURLMap feed gbfsURL) ver reqs ∅ (tr ++ [gbfsURL]))
    as [rs tr2].
  simpl in H1', H2'.
  rewrite validateFile_unlisted in H1' by (apply Hurls; discriminate).
  rewrite validateFile_unlisted in H2' by (apply Hurls; discriminate).
  eexists; eexists. split; [reflexivity|].
  cbn [ValidationResult.Files]. rewrite tally_files. cbn [files].
  repeat constructor.
  - eexists. split; [|apply (unlisted_reportedMissing "station_information")].
    apply elem_of_cons. right. apply list_elem_of_fmap.
    eexists (_, _). split; [reflexivity|].
    apply elem_of_map_to_list.
    rewrite crossValidate_station_information. exact H1'.
  - eexists. split; [|apply (unlisted_reportedMissing "station_status")].
    apply elem_of_cons. right. apply list_elem_of_fmap.
    eexists (_, _). split; [reflexivity|].
    apply elem_of_map_to_list.
    apply crossValidate_station_status_not_fetched; [exact H2'|reflexivity].
Qed.

End DockedRun.

Lemma docked_station_documents_reported_witness :
  exists report tr',
    @validator.Validate reference.runtime reference.decoder example.onlySystemInformationFeed
      (validator.New example.dockedOptions) example.manifestURL []
    = (Ret (report, None), tr') /\
    Forall (fun name =>
              exists fr, fr ∈ validator.ValidationResult.Files report
                         /\ reportedMissing name fr)
      ["station_information"; "station_status"].
Proof.
  apply (@docked_station_documents_reported
           reference.runtime reference.decoder example.onlySystemInformationFeed
           (validator.New example.dockedOptions) example.manifestURL []
           example.onlySystemInformation ""
           (gbfs.GBFSFeed.mk 0 "3.0"
              [gbfs.FeedInfo.mk "system_information" example.systemInformationURL])
           example.systemInformationURL).
  - vm_compute. reflexivity.
  - vm_compute. reflexivity.
  - reflexivity.
  - reflexivity.
Defined.

(** ** The aggregate of the report *)

(** C1 fails on the code for the root manifest.  In the first run the
    manifest has a negative ttl and everything else is clean: the result
    of gbfs.json records one error, the report's flag is set, but the
    aggregate count is 0.  In the second run the manifest cannot be
    fetched: its result records one error, and the report carries
    neither the flag nor the count. *)
Theorem root_manifest_errors_not_aggregated :
  (exists report root rest tr',
     @validator.Validate reference.runtime reference.decoder example.negativeTTLFeed
       (validator.New example.strictOptions) example.manifestURL []
     = (Ret (report, None), tr') /\
     validator.ValidationResult.Files report = root :: rest /\
     validator.FileValidationResult.File root = "gbfs.json" /\
     validator.FileValidationResult.Errors root
       = [validator.issue validator.SeverityError "ttl must be non-negative" "/ttl"] /\
     validator.FileValidationResult.ErrorsCount root = 1 /\
     Forall (fun fr => validator.FileValidationResult.Errors fr = []) rest /\
     validator.ValidationSummary.HasErrors (validator.ValidationResult.Summary report) = true /\
     validator.ValidationSummary.ErrorsCount (validator.ValidationResult.Summary report) = 0)
  /\
  (exists report root tr',
     @validator.Validate reference.runtime reference.decoder example.unreachable
       (validator.New example.strictOptions) example.manifestURL []
     = (Ret (report, None), tr') /\
     validator.ValidationResult.Files report = [root] /\
     validator.FileValidationResult.HasErrors root = true /\
     validator.FileValidationResult.ErrorsCount root = 1 /\
     validator.ValidationSummary.HasErrors (validator.ValidationResult.Summary report) = false /\
     validator.ValidationSummary.ErrorsCount (validator.ValidationResult.Summary report) = 0).
Proof.
  split.
  - eexists; eexists; eexists; eexists.
    split; [vm_compute; reflexivity|].
    split; [reflexivity|].
    repeat (split; [reflexivity|]).
    split; [|split; reflexivity].
    repeat constructor.
  - eexists; eexists; eexists.
    split; [vm_compute; reflexivity|].
    repeat (split; [reflexivity|]). reflexivity.
Qed.

(** ** Strings: cancelling a common prefix or suffix *)

Lemma append_length (s t : string) :
  String.length (s +:+ t) = (String.length s + String.length t)%nat.
Proof. induction s as [|a s IH]; simpl; [reflexivity|]. by rewrite IH. Qed.

Lemma append_same_length (s1 s2 t1 t2 : string) :
  String.length s1 = String.length s2 ->
  s1 +:+ t1 = s2 +:+ t2 -> s1 = s2 /\ t1 = t2.
Proof.
  revert s2. induction s1 as [|a s1 IH]; intros [|b s2] Hlen Heq; simpl in *;
    try discriminate; [by split|].
  injection Heq as -> Heq. injection Hlen as Hlen.
  destruct (IH s2 Hlen Heq) as [-> ->]. by split.
Qed.

Lemma append_cancel_suffix (s1 s2 t : string) : s1 +:+ t = s2 +:+ t -> s1 = s2.
Proof.
  intros Heq. apply (append_same_length s1 s2 t t); [|exact Heq].
  apply (f_equal String.length) in Heq. rewrite !append_length in Heq. lia.
Qed.

Lemma vehicleTypeIDPath_inj (i j : nat) : vehicleTypeIDPath i = vehicleTypeIDPath j -> i = j.
Proof.
  unfold vehicleTypeIDPath. intros Heq.
  apply (String.app_inj "/data/vehicles/") in Heq.
  apply append_cancel_suffix in Heq.
  by apply pretty_nat_inj in Heq.
Qed.

(** ** References from vehicles to vehicle types *)

Section VehicleTypeReferences.
Context `{JSONDecoder}.

Import validator.

Lemma checkVehicleTypeReference_errors vehicleTypes i vehicle result :
  FileValidationResult.Errors (checkVehicleTypeReference vehicleTypes i vehicle result)
  = FileValidationResult.Errors result ++ referenceIssues vehicleTypes i vehicle.
Proof.
  unfold checkVehicleTypeReference, referenceIssues, danglingReference, vehicleTypeIDPath.
  destruct (String.eqb (gbfs.Vehicle.VehicleTypeID vehicle) ""); simpl;
    [by rewrite app_nil_r|].
  destruct (vehicleTypes !! gbfs.Vehicle.VehicleTypeID vehicle) as [vt|]; simpl;
    try match goal with
        | |- context [if ?b then _ else _] => destruct b
        end; simpl; by rewrite ?app_nil_r, <- ?app_assoc.
Qed.

Lemma referenceIssues_count vehicleTypes i j vehicle :
  length (filter (fun e => isErrorAt (vehicleTypeIDPath i) e = true)
            (referenceIssues vehicleTypes j vehicle))
  = if bool_decide (i = j) && danglingReference vehicleTypes vehicle then 1%nat else 0%nat.
Proof.
  unfold referenceIssues.
  rewrite filter_app, length_app.
  replace (length (filter _ (if _ && _ && _ then _ else _))) with 0%nat.
  2:{ match goal with |- context [if ?b then _ else _] => destruct b end; reflexivity. }
  rewrite Nat.add_0_r.
  destruct (danglingReference vehicleTypes vehicle); [|by rewrite andb_false_r].
  rewrite andb_true_r, filter_cons.
  assert (Hat : isErrorAt (vehicleTypeIDPath i)
                  (issue SeverityError
                     ("vehicle_type_id '" +:+ gbfs.Vehicle.VehicleTypeID vehicle
                      +:+ "' not found in vehicle_types.json")
                     (vehicleTypeIDPath j))
                = bool_decide (i = j)).
  { unfold isErrorAt, issue.
    cbn [ValidationError.Severity ValidationError.InstancePath].
    rewrite (bool_decide_eq_true_2 (SeverityError = SeverityError) eq_refl), andb_true_l.
    case_bool_decide as Hij.
    - subst j. apply String.eqb_refl.
    - apply String.eqb_neq. intros Heq. apply vehicleTypeIDPath_inj in Heq. congruence. }
  rewrite Hat. case_bool_decide as Hij.
  - by rewrite decide_True.
  - by rewrite decide_False.
Qed.

(** The loop over the vehicles appends, for the vehicle at index [i],
    the issues [referenceIssues] lists. *)
Lemma foldIndexed_reference_errors vehicleTypes vehicles i0 result :
  exists added,
    FileValidationResult.Errors
      (foldIndexed (checkVehicleTypeReference vehicleTypes) i0 vehicles result)
    = FileValidationResult.Errors result ++ added /\
    forall i,
      length (filter (fun e => isErrorAt (vehicleTypeIDPath i) e = true) added)
      = match (if (i0 <=? i)%nat then vehicles !! (i - i0)%nat else None) with
        | Some vehicle => if danglingReference vehicleTypes vehicle then 1%nat else 0%nat
        | None => 0%nat
        end.
Proof.
  revert i0 result. induction vehicles as [|vehicle rest IH]; intros i0 result.
  - exists []. split; [by rewrite app_nil_r|].
    intros i. simpl. by destruct (i0 <=? i)%nat.
  - simpl.
    destruct (IH (S i0) (checkVehicleTypeReference vehicleTypes i0 vehicle result))
      as (added & Hadded & Hcount).
    exists (referenceIssues vehicleTypes i0 vehicle ++ added). split.
    + rewrite Hadded, checkVehicleTypeReference_errors. by rewrite app_assoc.
    + intros i. rewrite filter_app, length_app, referenceIssues_count, Hcount.
      destruct (Nat.leb_spec i0 i) as [Hle|Hlt].
      * case_bool_decide as Hi.
        -- subst i. rewrite (proj2 (Nat.leb_gt (S i0) i0)) by lia.
           rewrite Nat.sub_diag, andb_true_l, Nat.add_0_r. reflexivity.
        -- rewrite (proj2 (Nat.leb_le (S i0) i)) by lia.
           replace (i - i0)%nat with (S (i - S i0)) by lia. reflexivity.
      * case_bool_decide; [lia|].
        rewrite (proj2 (Nat.leb_gt (S i0) i)) by lia. reflexivity.
Qed.

(** Only the first pass writes the result of the availability document. *)
Lemma crossValidate_availability results ver :
  crossValidate results ver !! version.GetVehicleStatusFileName ver
  = validateVehicleTypeReferences results (extractVehicleTypes results) ver
      !! version.GetVehicleStatusFileName ver.
Proof.
  unfold crossValidate.
  destruct (fileName_cases ver) as [-> | ->].
  - rewrite checkConditionalPricingPlans_other by discriminate.
    rewrite checkConditionalVehicleTypes_other by discriminate.
    rewrite validateStationIDReferences_other by discriminate.
    by rewrite validatePricingPlanReferences_other by discriminate.
  - rewrite checkConditionalPricingPlans_other by discriminate.
    rewrite checkConditionalVehicleTypes_other by discriminate.
    rewrite validateStationIDReferences_other by discriminate.
    by rewrite validatePricingPlanReferences_other by discriminate.
Qed.

End VehicleTypeReferences.


(** ** Documents: induction and the traversals *)

Section Documents.
Context {N : Type}.

Lemma jsize_elem (l : list (json N)) (x : json N) :
  x ∈ l -> (jsize x < jsize (JArr l))%nat.
Proof.
  intros Hx. simpl. induction Hx as [x l|x y l _ IH]; simpl; lia.
Qed.

Lemma jsize_lookup (m : gmap string (json N)) (k : string) (v : json N) :
  m !! k = Some v -> (jsize v < jsize (JObj m))%nat.
Proof.
  intros Hk. simpl.
  rewrite (map_fold_delete_L _ _ k v m); [lia| |exact Hk].
  intros. lia.
Qed.

(** Induction on a document, with the hypothesis for every member. *)
Lemma json_induction (P : json N -> Prop) :
  P JNull ->
  (forall b, P (JBool b)) ->
  (forall n, P (JNum n)) ->
  (forall s, P (JStr s)) ->
  (forall l, Forall P l -> P (JArr l)) ->
  (forall m, map_Forall (fun _ v => P v) m -> P (JObj m)) ->
  forall j, P j.
Proof.
  intros Hnull Hbool Hnum Hstr Harr Hobj j.
  remember (jsize j) as n eqn:Hn. revert j Hn.
  induction n as [n IH] using lt_wf_ind. intros j ->.
  destruct j as [|b|x|s|l|m]; auto.
  - apply Harr. apply Forall_forall. intros x Hx.
    apply (IH (jsize x)); [by apply jsize_elem|reflexivity].
  - apply Hobj. intros k v Hk.
    apply (IH (jsize v)); [by apply (jsize_lookup m k)|reflexivity].
Qed.

Lemma jall_arr (p : N -> bool) (l : list (json N)) :
  jall p (JArr l) = true <-> Forall (fun v => jall p v = true) l.
Proof.
  simpl. rewrite forallb_forall, Forall_forall.
  split; intros Hl x Hx; apply Hl; by apply list_elem_of_In.
Qed.

Lemma jall_obj (p : N -> bool) (m : gmap string (json N)) :
  jall p (JObj m) = true <-> map_Forall (fun _ v => jall p v = true) m.
Proof.
  simpl.
  apply (map_fold_weak_ind
           (fun (r : bool) (m : gmap string (json N)) =>
              r = true <-> map_Forall (fun _ v => jall p v = true) m)).
  - split; [intros _; apply map_Forall_empty|reflexivity].
  - intros k v m' r Hk IH. rewrite andb_true_iff, IH.
    rewrite map_Forall_insert by exact Hk. reflexivity.
Qed.

End Documents.

Lemma jall_jmap {A B : Type} (p : B -> bool) (f : A -> B) (j : json A) :
  jall p (jmap f j) = jall (fun a => p (f a)) j.
Proof.
  induction j as [|b|n|s|l IH|m IH] using json_induction; try reflexivity.
  - simpl. induction IH as [|x l Hx _ IHl]; simpl; [reflexivity|].
    by rewrite Hx, IHl.
  - apply Bool.eq_iff_eq_true. cbn [jmap]. rewrite !jall_obj, map_Forall_fmap.
    split; intros Hm k v Hk; specialize (Hm k v Hk); specialize (IH k v Hk);
      simpl in *; congruence.
Qed.

Lemma jmap_jmap {A B C : Type} (g : B -> C) (f : A -> B) (j : json A) :
  jmap g (jmap f j) = jmap (fun a => g (f a)) j.
Proof.
  induction j as [|b|n|s|l IH|m IH] using json_induction; try reflexivity.
  - simpl. f_equal. rewrite map_map. apply map_ext_Forall. exact IH.
  - simpl. f_equal. rewrite <- map_fmap_compose. apply map_fmap_ext. exact IH.
Qed.

(** Leaves related by [R]: the two documents agree away from numbers. *)
Lemma jmap_ext_jall {A B : Type} (p : A -> bool) (f g : A -> B) (j : json A) :
  (forall a, p a = true -> f a = g a) ->
  jall p j = true -> jmap f j = jmap g j.
Proof.
  intros Hfg. induction j as [|b|n|s|l IH|m IH] using json_induction;
    intros Hall; try reflexivity.
  - simpl. f_equal. apply Hfg. exact Hall.
  - simpl. f_equal. apply jall_arr in Hall.
    apply map_ext_Forall. rewrite Forall_forall in *.
    intros x Hx. apply IH; [exact Hx|]. by apply Hall.
  - simpl. f_equal. apply jall_obj in Hall.
    apply map_fmap_ext. intros k v Hk. apply (IH k v Hk). by apply (Hall k).
Qed.

(** ** The coercer, step by step *)

Section CoercerSteps.
Context `{GoRuntime}.

Import coerce fieldmap.

Lemma bind_ret_l {A B} (a : A) (k : A -> Co B) : bind (ret a) k = k a.
Proof. unfold bind, ret. simpl. by destruct (k a). Qed.

Lemma bind_ret_r {A} (m : Co A) : bind m ret = m.
Proof. unfold bind, ret. destruct m as [a l]. simpl. by rewrite app_nil_r. Qed.

Lemma bind_assoc {A B C} (m : Co A) (k : A -> Co B) (k2 : B -> Co C) :
  bind (bind m k) k2 = bind m (fun a => bind (k a) k2).
Proof.
  unfold bind. destruct m as [a l]. simpl.
  destruct (k a) as [b l1]. simpl. destruct (k2 b) as [c l2].
  by rewrite app_assoc.
Qed.

Lemma bind_fst {A B} (m : Co A) (k : A -> Co B) : (bind m k).1 = (k m.1).1.
Proof. unfold bind. by destruct (k m.1). Qed.

Lemma bind_snd {A B} (m : Co A) (k : A -> Co B) : (bind m k).2 = m.2 ++ (k m.1).2.
Proof. unfold bind. by destruct (k m.1). Qed.

Lemma bind_ext {A B} (m : Co A) (k k2 : A -> Co B) :
  (forall a, k a = k2 a) -> bind m k = bind m k2.
Proof. intros Hk. unfold bind. by rewrite Hk. Qed.

Lemma runSteps_app path (s1 s2 : list step) (m : gmap string value) :
  runSteps path (s1 ++ s2) m = bind (runSteps path s1 m) (runSteps path s2).
Proof.
  revert m. induction s1 as [|[k f] s1 IH]; intros m; simpl.
  - by rewrite bind_ret_l.
  - rewrite bind_assoc. apply bind_ext. intros m2. apply IH.
Qed.

Lemma coerceFields_steps (k : kind) path fields (m : gmap string value) :
  coerceFields (ruleOf k) path fields m = runSteps path (onFields k fields) m.
Proof.
  revert m. induction fields as [|f fields IH]; intros m; simpl; [reflexivity|].
  apply bind_ext. intros m2. apply IH.
Qed.

Lemma coerceField_step (k : kind) path field (m : gmap string value) :
  coerceField (ruleOf k) path field m = runSteps path [(k, field)] m.
Proof. simpl. by rewrite bind_ret_r. Qed.

Lemma when_steps (b : bool) path steps (m : gmap string value) :
  when b (runSteps path steps) m = runSteps path (enabled b steps) m.
Proof. by destruct b. Qed.

Lemma when_coerceFields (b : bool) (k : kind) path fields (m : gmap string value) :
  when b (coerceFields (ruleOf k) path fields) m
  = runSteps path (enabled b (onFields k fields)) m.
Proof. destruct b; [apply coerceFields_steps|reflexivity]. Qed.

Lemma when_coerceField (b : bool) (k : kind) path field (m : gmap string value) :
  when b (coerceField (ruleOf k) path field) m = runSteps path (enabled b [(k, field)]) m.
Proof. destruct b; [apply coerceField_step|reflexivity]. Qed.

(** The entry functions are their step tables. *)
Lemma coerceCommonFields_steps o (data : gmap string value) path :
  coerceCommonFields o data path
  = bind (runSteps path (commonSteps o) data)
      (fun data => ret (if TreatNullAsAbsent o then deleteNulls data else data)).
Proof.
  unfold coerceCommonFields, commonSteps.
  rewrite runSteps_app, bind_assoc.
  change coerceTimestamp with (ruleOf KTimestamp). change intRule with (ruleOf KInt).
  rewrite when_coerceField. apply bind_ext; intros m1.
  rewrite when_coerceField. reflexivity.
Qed.

Lemma coerceStationStatusEntry_steps o i (station : gmap string value) :
  coerceStationStatusEntry o i station
  = bind (runSteps ("/data/stations/" +:+ pretty i) (stationStatusSteps o) station)
      (fun station => ret (if TreatNullAsAbsent o then deleteNulls station else station)).
Proof.
  unfold coerceStationStatusEntry, stationStatusSteps.
  change boolRule with (ruleOf KBool). change intRule with (ruleOf KInt).
  change coerceTimestamp with (ruleOf KTimestamp).
  rewrite runSteps_app, bind_assoc, when_coerceFields. apply bind_ext; intros m1.
  rewrite runSteps_app, bind_assoc, when_coerceFields. apply bind_ext; intros m2.
  rewrite when_coerceField. reflexivity.
Qed.

Lemma coerceStationInformationEntry_steps o i (station : gmap string value) :
  coerceStationInformationEntry o i station
  = runSteps ("/data/stations/" +:+ pretty i) (stationInformationSteps o) station.
Proof.
  unfold coerceStationInformationEntry, stationInformationSteps.
  change boolRule with (ruleOf KBool). change intRule with (ruleOf KInt).
  change floatRule with (ruleOf KFloat).
  rewrite runSteps_app, when_coerceFields. apply bind_ext; intros m1.
  rewrite runSteps_app, when_coerceField. apply bind_ext; intros m2.
  apply when_coerceFields.
Qed.

Lemma coerceVehicleEntry_steps o key i (vehicle : gmap string value) :
  coerceVehicleEntry o key i vehicle
  = runSteps ("/data/" +:+ key +:+ "/" +:+ pretty i) (vehicleSteps o) vehicle.
Proof.
  unfold coerceVehicleEntry, vehicleSteps.
  change boolRule with (ruleOf KBool). change intRule with (ruleOf KInt).
  change floatRule with (ruleOf KFloat). change coerceTimestamp with (ruleOf KTimestamp).
  rewrite runSteps_app, when_coerceFields. apply bind_ext; intros m1.
  rewrite runSteps_app, when_coerceFields. apply bind_ext; intros m2.
  rewrite runSteps_app, when_coerceFields. apply bind_ext; intros m3.
  apply when_coerceField.
Qed.

Lemma coerceVehicleTypeEntry_steps o i (vehicleType : gmap string value) :
  coerceVehicleTypeEntry o i vehicleType
  = runSteps ("/data/vehicle_types/" +:+ pretty i) (vehicleTypeSteps o) vehicleType.
Proof.
  unfold coerceVehicleTypeEntry, vehicleTypeSteps.
  change coerceToNumber with (ruleOf KNumber). apply when_coerceFields.
Qed.

Lemma coerceRule_steps o path j (rule : gmap string value) :
  coerceRule o path j rule
  = runSteps (path +:+ "/rules/" +:+ pretty j) (ruleSteps o) rule.
Proof.
  unfold coerceRule, ruleSteps. rewrite runSteps_app.
  change boolRule with (ruleOf KBool). change coerceToNumber with (ruleOf KNumber).
  rewrite when_coerceField. apply bind_ext; intros m1.
  apply when_coerceFields.
Qed.

End CoercerSteps.

(** ** What a run of steps does to a map and to the log *)

Section StepRuns.
Context `{GoRuntime}.

Import coerce fieldmap.

(** One step either rewrites its field and logs it, or does nothing. *)
Lemma coerceField_cases (rule : value -> value * bool) path field (m : gmap string value) :
  (exists v w,
      m !! field = Some v /\ rule v = (w, true) /\
      coerceField rule path field m
      = (<[field := w]> m, [mkCoercion path field (typeName v) (typeName w) v w]))
  \/ (coerceField rule path field m = (m, []) /\
      forall v, m !! field = Some v -> (rule v).2 = false).
Proof.
  unfold coerceField. destruct (m !! field) as [v|] eqn:Hv.
  - destruct (rule v) as [w [|]] eqn:Hr.
    + left. exists v, w. split; [reflexivity|]. split; [exact Hr|]. reflexivity.
    + right. split; [reflexivity|]. intros v2 [= <-]. by rewrite Hr.
  - right. split; [reflexivity|]. intros v2 Hv2. discriminate.
Qed.

Lemma runSteps_cons path (k : kind) field rest (m : gmap string value) :
  runSteps path ((k, field) :: rest) m
  = bind (coerceField (ruleOf k) path field m) (runSteps path rest).
Proof. reflexivity. Qed.

(** Fields outside the table are not touched. *)
Lemma runSteps_frame path steps (m : gmap string value) (f : string) :
  f ∉ steps.*2 -> (runSteps path steps m).1 !! f = m !! f.
Proof.
  revert m. induction steps as [|[k field] rest IH]; intros m Hf; [reflexivity|].
  rewrite fmap_cons, not_elem_of_cons in Hf. destruct Hf as [Hne Hf].
  rewrite runSteps_cons, bind_fst, IH by exact Hf.
  destruct (coerceField_cases (ruleOf k) path field m)
    as [(v & w & _ & _ & ->)|[-> _]]; simpl; [|reflexivity].
  by rewrite lookup_insert_ne.
Qed.

(** Steps write only where a value already is. *)
Lemma runSteps_dom path steps (m : gmap string value) (f : string) :
  (runSteps path steps m).1 !! f = None <-> m !! f = None.
Proof.
  revert m. induction steps as [|[k field] rest IH]; intros m; [reflexivity|].
  rewrite runSteps_cons, bind_fst, IH.
  destruct (coerceField_cases (ruleOf k) path field m)
    as [(v & w & Hv & _ & ->)|[-> _]]; simpl; [|reflexivity].
  destruct (decide (field = f)) as [->|Hne].
  - rewrite lookup_insert_eq, Hv. split; discriminate.
  - by rewrite lookup_insert_ne.
Qed.

(** Every record a run appends carries the run's path and the field of
    one of its steps. *)
Lemma runSteps_log path steps (m : gmap string value) :
  Forall (fun c => Path c = path /\ Field c ∈ steps.*2) (runSteps path steps m).2.
Proof.
  revert m. induction steps as [|[k field] rest IH]; intros m; [constructor|].
  rewrite runSteps_cons, bind_snd. apply Forall_app. split.
  - destruct (coerceField_cases (ruleOf k) path field m)
      as [(v & w & _ & _ & ->)|[-> _]]; simpl; [|constructor].
    constructor; [|constructor]. simpl. split; [reflexivity|]. apply list_elem_of_here.
  - eapply Forall_impl; [apply IH|]. simpl. intros c [Hp Hf].
    split; [exact Hp|]. by apply list_elem_of_further.
Qed.

(** A property of values that the rules of the table establish is kept
    by the run. *)
Lemma runSteps_preserves (P : value -> Prop) path steps (m : gmap string value) :
  (forall k v w, k ∈ steps.*1 -> ruleOf k v = (w, true) -> P w) ->
  map_Forall (fun _ v => P v) m ->
  map_Forall (fun _ v => P v) (runSteps path steps m).1.
Proof.
  revert m. induction steps as [|[k field] rest IH]; intros m Hrule Hm; [exact Hm|].
  rewrite runSteps_cons, bind_fst. apply IH.
  - intros k2 v w Hk. apply Hrule. rewrite fmap_cons. by apply list_elem_of_further.
  - destruct (coerceField_cases (ruleOf k) path field m)
      as [(v & w & Hv & Hr & ->)|[-> _]]; simpl; [|exact Hm].
    apply map_Forall_insert_2; [|exact Hm].
    apply (Hrule k v w); [|exact Hr]. rewrite fmap_cons. apply list_elem_of_here.
Qed.

(** What is in the map after a run was there before or was logged. *)
Lemma runSteps_written path steps (m : gmap string value) (f : string) (w : value) :
  (runSteps path steps m).1 !! f = Some w ->
  m !! f = Some w \/ exists c, c ∈ (runSteps path steps m).2 /\ To c = w.
Proof.
  revert m. induction steps as [|[k field] rest IH]; intros m Hw; [by left|].
  rewrite runSteps_cons, bind_fst in Hw. rewrite runSteps_cons, bind_snd.
  destruct (IH _ Hw) as [Hprev|(c & Hc & Hto)].
  - destruct (coerceField_cases (ruleOf k) path field m)
      as [(v & w2 & Hv & Hr & Heq)|[Heq _]]; rewrite Heq in Hprev |- *; simpl in *.
    + destruct (decide (field = f)) as [->|Hne].
      * rewrite lookup_insert_eq in Hprev. injection Hprev as ->.
        right. eexists. split; [apply list_elem_of_here|reflexivity].
      * rewrite lookup_insert_ne in Hprev by exact Hne. by left.
    + by left.
  - right. exists c. split; [|exact Hto]. apply elem_of_app. by right.
Qed.

(** [forEachMap] in closed form. *)
Lemma forEachMap_closed body (i0 : nat) (l : list value) :
  forEachMap body i0 l
  = (imap (fun j => entryAfter body (i0 + j)) l,
     concat (imap (fun j => entryLog body (i0 + j)) l)).
Proof.
  revert i0. induction l as [|s l IH]; intros i0; [reflexivity|].
  cbn [forEachMap imap concat]. rewrite IH.
  rewrite Nat.add_0_r.
  rewrite (imap_ext (fun j => entryAfter body (S i0 + j))
             ((fun j => entryAfter body (i0 + j)) ∘ S))
    by (intros; simpl; f_equal; lia).
  rewrite (imap_ext (fun j => entryLog body (S i0 + j))
             ((fun j => entryLog body (i0 + j)) ∘ S))
    by (intros; simpl; f_equal; lia).
  destruct s as [|b|n|str|l2|m]; unfold bind, ret; simpl;
    rewrite ?app_nil_r; reflexivity.
Qed.

End StepRuns.

(** ** The coercer is the walk of its schema *)

Section CoercerSchema.
Context `{GoRuntime}.

Import coerce fieldmap.

Lemma forEachMap_ext body1 body2 (i0 : nat) (l : list value) :
  (forall i m, body1 i m = body2 i m) ->
  forEachMap body1 i0 l = forEachMap body2 i0 l.
Proof.
  intros Hb. rewrite !forEachMap_closed. f_equal; [|f_equal];
    apply imap_ext; intros i x _; destruct x; simpl; by rewrite ?Hb.
Qed.

Lemma onFieldsOf_noFields (m : gmap string value) : onFieldsOf noFields m = ret m.
Proof. reflexivity. Qed.

Lemma coerceCommonFields_fields o (m : gmap string value) :
  coerceCommonFields o m "" = onFieldsOf (commonFields o) m.
Proof. apply coerceCommonFields_steps. Qed.

(** Below the common fields: a collection under [data]. *)
Lemma collection_walk (keys : list string) (entry : string -> nat -> fields)
    (m : gmap string value) :
  match m !! "data" with
  | Some (JObj o) =>
      bind (apply (Array noFields keys (fun key i => Done (entry key i))) o)
        (fun o' => ret (<["data" := JObj o']> m))
  | _ => ret m
  end
  = match m !! "data" with
    | Some (JObj o) =>
        match firstArray keys o with
        | Some (key, l) =>
            bind (forEachMap (fun i => onFieldsOf (entry key i)) 0 l)
              (fun l' => ret (<["data" := JObj (<[key := JArr l']> o)]> m))
        | None => ret (<["data" := JObj o]> m)
        end
    | _ => ret m
    end.
Proof.
  destruct (m !! "data") as [[| | | | |o]|]; try reflexivity.
  cbn [apply]. rewrite onFieldsOf_noFields, bind_ret_l.
  destruct (firstArray keys o) as [[key l]|]; [|by rewrite bind_ret_l].
  rewrite bind_assoc. apply bind_ext. intros l2. by rewrite bind_ret_l.
Qed.

Lemma apply_Object f key inner (m : gmap string value) :
  apply (Object f key inner) m
  = bind (onFieldsOf f m) (fun m =>
      match m !! key with
      | Some (JObj o) => bind (apply inner o) (fun o' => ret (<[key := JObj o']> m))
      | _ => ret m
      end).
Proof. reflexivity. Qed.

Lemma apply_Array f keys inner (m : gmap string value) :
  apply (Array f keys inner) m
  = bind (onFieldsOf f m) (fun m =>
      match firstArray keys m with
      | Some (key, l) =>
          bind (forEachMap (fun i => apply (inner key i)) 0 l)
            (fun l' => ret (<[key := JArr l']> m))
      | None => ret m
      end).
Proof. reflexivity. Qed.

Lemma firstArray_one (key : string) (o : gmap string value) :
  firstArray [key] o
  = match o !! key with Some (JArr l) => Some (key, l) | _ => None end.
Proof. simpl. by repeat case_match. Qed.

Lemma coerceStationStatus_walk o (m : gmap string value) :
  coerceStationStatus o m
  = match m !! "data" with
    | Some (JObj d) =>
        bind (apply (Array noFields ["stations"] (fun _ i =>
                Done (mkFields ("/data/stations/" +:+ pretty i)
                        (stationStatusSteps o) (TreatNullAsAbsent o)))) d)
          (fun d' => ret (<["data" := JObj d']> m))
    | _ => ret m
    end.
Proof.
  rewrite collection_walk. unfold coerceStationStatus.
  destruct (m !! "data") as [[| | | | |d]|] eqn:Ed; try reflexivity.
  cbn [firstArray]. unfold value in *.
  destruct (d !! "stations") as [[| | | |l|]|] eqn:Es; cbn [firstArray]; rewrite ?Es;
    rewrite ?insert_id by exact Ed; try reflexivity.
  f_equal. apply forEachMap_ext. intros i e. apply coerceStationStatusEntry_steps.
Qed.

Lemma coerceStationInformation_walk o (m : gmap string value) :
  coerceStationInformation o m
  = match m !! "data" with
    | Some (JObj d) =>
        bind (apply (Array noFields ["stations"] (fun _ i =>
                Done (mkFields ("/data/stations/" +:+ pretty i)
                        (stationInformationSteps o) false))) d)
          (fun d' => ret (<["data" := JObj d']> m))
    | _ => ret m
    end.
Proof.
  rewrite collection_walk. unfold coerceStationInformation.
  destruct (m !! "data") as [[| | | | |d]|] eqn:Ed; try reflexivity.
  cbn [firstArray]. unfold value in *.
  destruct (d !! "stations") as [[| | | |l|]|] eqn:Es; cbn [firstArray]; rewrite ?Es;
    rewrite ?insert_id by exact Ed; try reflexivity.
  f_equal. apply forEachMap_ext. intros i e.
  rewrite coerceStationInformationEntry_steps. unfold onFieldsOf. cbn [at_ steps dropNulls].
  by rewrite bind_ret_r.
Qed.

Lemma coerceVehicleTypes_walk o (m : gmap string value) :
  coerceVehicleTypes o m
  = match m !! "data" with
    | Some (JObj d) =>
        bind (apply (Array noFields ["vehicle_types"] (fun _ i =>
                Done (mkFields ("/data/vehicle_types/" +:+ pretty i)
                        (vehicleTypeSteps o) false))) d)
          (fun d' => ret (<["data" := JObj d']> m))
    | _ => ret m
    end.
Proof.
  rewrite collection_walk. unfold coerceVehicleTypes.
  destruct (m !! "data") as [[| | | | |d]|] eqn:Ed; try reflexivity.
  cbn [firstArray]. unfold value in *.
  destruct (d !! "vehicle_types") as [[| | | |l|]|] eqn:Es; cbn [firstArray]; rewrite ?Es;
    rewrite ?insert_id by exact Ed; try reflexivity.
  f_equal. apply forEachMap_ext. intros i e.
  rewrite coerceVehicleTypeEntry_steps. unfold onFieldsOf. cbn [at_ steps dropNulls].
  by rewrite bind_ret_r.
Qed.

Lemma coerceVehicleStatus_walk o (m : gmap string value) :
  coerceVehicleStatus o m
  = match m !! "data" with
    | Some (JObj d) =>
        bind (apply (Array noFields ["vehicles"; "bikes"] (fun key i =>
                Done (mkFields ("/data/" +:+ key +:+ "/" +:+ pretty i)
                        (vehicleSteps o) false))) d)
          (fun d' => ret (<["data" := JObj d']> m))
    | _ => ret m
    end.
Proof.
  rewrite collection_walk. unfold coerceVehicleStatus.
  destruct (m !! "data") as [[| | | | |d]|] eqn:Ed; try reflexivity.
  assert (Hbody : forall key l,
    bind (forEachMap (coerceVehicleEntry o key) 0 l)
      (fun l' => ret (<["data" := JObj (<[key := JArr l']> d)]> m))
    = bind (forEachMap (fun i => onFieldsOf
              (mkFields ("/data/" +:+ key +:+ "/" +:+ pretty i) (vehicleSteps o) false))
              0 l)
        (fun l' => ret (<["data" := JObj (<[key := JArr l']> d)]> m))).
  { intros key l. f_equal. apply forEachMap_ext. intros i e.
    rewrite coerceVehicleEntry_steps. unfold onFieldsOf. cbn [at_ steps dropNulls].
    by rewrite bind_ret_r. }
  cbn [firstArray]. unfold value in *.
  destruct (d !! "vehicles") as [[| | | |l|]|] eqn:Ev;
    try (destruct (d !! "bikes") as [[| | | |l2|]|] eqn:Eb);
    cbn [firstArray]; rewrite ?Ev, ?Eb;
    rewrite ?insert_id by exact Ed; try reflexivity; apply Hbody.
Qed.

Lemma coerceSystemInformation_walk o (m : gmap string value) :
  coerceSystemInformation o m
  = match m !! "data" with
    | Some (JObj d) =>
        bind (apply (Done (mkFields "/data" (systemInformationSteps o) false)) d)
          (fun d' => ret (<["data" := JObj d']> m))
    | _ => ret m
    end.
Proof.
  unfold coerceSystemInformation.
  destruct (m !! "data") as [[| | | | |d]|] eqn:Ed; try reflexivity.
  f_equal. cbn [apply]. unfold onFieldsOf. cbn [at_ steps dropNulls]. rewrite bind_ret_r.
  change coerceTimestamp with (ruleOf KTimestamp). apply when_coerceFields.
Qed.

Lemma coerceFeature_walk o (i : nat) (feature : gmap string value) :
  coerceFeature o i feature
  = apply (Object noFields "properties"
             (Array noFields ["rules"] (fun _ j => ruleSchema o i j))) feature.
Proof.
  unfold coerceFeature. cbn [apply]. rewrite onFieldsOf_noFields, bind_ret_l.
  destruct (feature !! "properties") as [[| | | | |props]|] eqn:Ep; try reflexivity.
  rewrite onFieldsOf_noFields, bind_ret_l.
  cbn [firstArray]. unfold value in *.
  destruct (props !! "rules") as [[| | | |l|]|] eqn:Er; cbn [firstArray]; rewrite ?Er;
    rewrite ?bind_ret_l, ?insert_id by exact Ep; try reflexivity.
  rewrite bind_assoc.
  rewrite (forEachMap_ext _ (fun j => apply (ruleSchema o i j))).
  - apply bind_ext. intros l2. by rewrite bind_ret_l.
  - intros j r. rewrite coerceRule_steps. unfold ruleSchema. cbn [apply]. unfold onFieldsOf. cbn [at_ steps dropNulls].
    by rewrite bind_ret_r.
Qed.

Lemma coerceGeofencingZones_walk o (m : gmap string value) :
  coerceGeofencingZones o m
  = match m !! "data" with
    | Some (JObj d) =>
        bind (apply (Object noFields "geofencing_zones"
                (Array noFields ["features"] (fun _ i =>
                   Object noFields "properties"
                     (Array noFields ["rules"] (fun _ j => ruleSchema o i j))))) d)
          (fun d' => ret (<["data" := JObj d']> m))
    | _ => ret m
    end.
Proof.
  unfold coerceGeofencingZones.
  destruct (m !! "data") as [[| | | | |d]|] eqn:Ed; try reflexivity.
  rewrite apply_Object, onFieldsOf_noFields, bind_ret_l. unfold value in *.
  destruct (d !! "geofencing_zones") as [[| | | | |z]|] eqn:Ez;
    rewrite ?bind_ret_l, ?insert_id by exact Ed; try reflexivity.
  rewrite apply_Array, onFieldsOf_noFields, bind_ret_l.
  cbn [firstArray]. unfold value in *.
  destruct (z !! "features") as [[| | | |l|]|] eqn:Ef;
    rewrite ?bind_ret_l;
    try (rewrite (insert_id d) by exact Ez; rewrite (insert_id m) by exact Ed);
    try reflexivity.
  rewrite !bind_assoc.
  erewrite (forEachMap_ext (coerceFeature o)); [|intros; apply coerceFeature_walk].
  apply bind_ext. intros l2. by rewrite !bind_ret_l.
Qed.

Lemma Coerce_walk o (feedType : string) (m : gmap string value) :
  bind (coerceCommonFields o m "") (coerceByType o feedType)
  = apply (docSchema o feedType) m.
Proof.
  rewrite coerceCommonFields_fields.
  unfold coerceByType, docSchema, collection.
  destruct (bool_decide (feedType = "station_status")).
  { rewrite apply_Object. apply bind_ext. intros. apply coerceStationStatus_walk. }
  destruct (bool_decide (feedType = "station_information")).
  { rewrite apply_Object. apply bind_ext. intros. apply coerceStationInformation_walk. }
  destruct (bool_decide (feedType = "vehicle_status") || bool_decide (feedType = "free_bike_status")).
  { rewrite apply_Object. apply bind_ext. intros. apply coerceVehicleStatus_walk. }
  destruct (bool_decide (feedType = "vehicle_types")).
  { rewrite apply_Object. apply bind_ext. intros. apply coerceVehicleTypes_walk. }
  destruct (bool_decide (feedType = "system_information")).
  { rewrite apply_Object. apply bind_ext. intros. apply coerceSystemInformation_walk. }
  destruct (bool_decide (feedType = "geofencing_zones")).
  { rewrite apply_Object. apply bind_ext. intros. apply coerceGeofencingZones_walk. }
  apply bind_ret_r.
Qed.

End CoercerSchema.

(** ** A second pass finds nothing to do *)

Section SecondPass.
Context `{GoRuntime} {laws : GoRuntimeLaws}.

Import coerce fieldmap.

Lemma stable_same (k : kind) (v : value) :
  settle v = v -> (ruleOf k v).2 = false -> stable k v.
Proof. unfold stable. by intros ->. Qed.

Lemma stable_container (k : kind) (v : value) :
  match v with JNull | JBool _ | JArr _ | JObj _ => True | _ => False end ->
  stable k v.
Proof. unfold stable. by destruct k, v. Qed.

Lemma stable_float (k : kind) (f : float64) :
  compat k KFloat = true -> stable k (JNum (GFloat f)).
Proof. unfold stable. by destruct k. Qed.

Lemma stable_int (k : kind) (n : Z) :
  compat k KInt = true -> exactInt n = true -> stable k (JNum (GInt n)).
Proof.
  unfold stable. destruct k; try done. intros _ Hn. simpl.
  by rewrite int64_of_int64, f64_eqb_of_int64.
Qed.

(** What a rule writes when it reports a change. *)
Lemma rule_output (k : kind) (v w : value) :
  ruleOf k v = (w, true) ->
  match k with
  | KBool => exists b, w = JBool b
  | KInt | KTimestamp => exists n, w = JNum (GInt n)
  | KFloat => exists f, w = JNum (GFloat f)
  | KNumber => exists n, w = JNum n
  end.
Proof.
  destruct k; cbn [ruleOf]; unfold boolRule, intRule, floatRule, coerceToNumber,
    coerceTimestamp, coerceToBool, coerceToInt, coerceToFloat;
    intros Hr; repeat case_match; simplify_eq; eauto.
Qed.

Lemma rule_changed_stable (k k2 : kind) (v w : value) :
  compat k k2 = true -> ruleOf k2 v = (w, true) -> exactDoc w -> stable k w.
Proof.
  intros Hc Hr Hw. apply rule_output in Hr.
  destruct k2.
  - destruct Hr as [b ->]. by apply stable_container.
  - destruct Hr as [n ->]. by apply stable_int.
  - destruct Hr as [f ->]. by apply stable_float.
  - destruct Hr as [[f|n] ->].
    + apply stable_float. by destruct k.
    + apply stable_int; [by destruct k|exact Hw].
  - destruct Hr as [n ->]. apply stable_int; [by destruct k|exact Hw].
Qed.

Lemma compat_refl (k : kind) : compat k k = true.
Proof. by destruct k. Qed.

Lemma rule_unchanged_stable (k : kind) (v : value) :
  (ruleOf k v).2 = false -> exactDoc v -> stable k v.
Proof.
  intros Hr Hv. destruct v as [|b|[f|n]|s|l|m].
  - by apply stable_container.
  - by apply stable_container.
  - by apply stable_same.
  - destruct k; try done; by apply stable_int.
  - by apply stable_same.
  - by apply stable_container.
  - by apply stable_container.
Qed.


(** *** One object *)

Lemma runSteps_exact path steps (m : gmap string value) :
  exactLog (runSteps path steps m).2 ->
  map_Forall (fun _ v => exactDoc v) m ->
  map_Forall (fun _ v => exactDoc v) (runSteps path steps m).1.
Proof.
  intros Hlog Hm f w Hw.
  destruct (runSteps_written _ _ _ _ _ Hw) as [Hprev|(c & Hc & <-)].
  - exact (Hm f w Hprev).
  - unfold exactLog in Hlog. rewrite Forall_forall in Hlog. by apply Hlog.
Qed.

(** Where the value of a field comes from after a run. *)
Lemma runSteps_value path steps (m : gmap string value) (f : string) (w : value) :
  (runSteps path steps m).1 !! f = Some w ->
  m !! f = Some w
  \/ exists k v c, (k, f) ∈ steps /\ ruleOf k v = (w, true)
                   /\ c ∈ (runSteps path steps m).2 /\ To c = w.
Proof.
  revert m. induction steps as [|[k field] rest IH]; intros m Hw; [by left|].
  rewrite runSteps_cons, bind_fst in Hw. rewrite runSteps_cons, bind_snd.
  destruct (IH _ Hw) as [Hprev|(k2 & v & c & Hin & Hr & Hc & Hto)].
  - destruct (coerceField_cases (ruleOf k) path field m)
      as [(v & w2 & Hv & Hr & Heq)|[Heq _]]; rewrite Heq in Hprev |- *; simpl in *.
    + destruct (decide (field = f)) as [->|Hne].
      * rewrite lookup_insert_eq in Hprev. injection Hprev as ->.
        right. exists k, v. eexists. split; [apply list_elem_of_here|].
        split; [exact Hr|]. split; [apply list_elem_of_here|reflexivity].
      * rewrite lookup_insert_ne in Hprev by exact Hne. by left.
    + by left.
  - right. exists k2, v, c. split; [by apply list_elem_of_further|].
    split; [exact Hr|]. split; [|exact Hto]. apply elem_of_app. by right.
Qed.

Lemma coherent_cons (k : kind) (f : string) (rest : list step) :
  coherent ((k, f) :: rest) = true ->
  (forall k2, (k2, f) ∈ rest -> compat k k2 = true) /\ coherent rest = true.
Proof.
  simpl. rewrite andb_true_iff, forallb_forall. intros [Hall Hrest].
  split; [|exact Hrest]. intros k2 Hin.
  specialize (Hall (k2, f)). simpl in Hall.
  rewrite String.eqb_refl in Hall. apply Hall. by apply list_elem_of_In.
Qed.

(** After a coherent run every field is stable for each of its steps. *)
Lemma runSteps_settles path steps (m : gmap string value) :
  coherent steps = true ->
  exactLog (runSteps path steps m).2 ->
  map_Forall (fun _ v => exactDoc v) m ->
  forall k f v,
    (k, f) ∈ steps -> (runSteps path steps m).1 !! f = Some v -> stable k v.
Proof.
  revert m. induction steps as [|[k0 f0] rest IH]; intros m Hco Hlog Hm k f v Hin Hv.
  { by apply elem_of_nil in Hin. }
  apply coherent_cons in Hco. destruct Hco as [Hcompat Hco].
  rewrite runSteps_cons, bind_snd in Hlog. apply Forall_app in Hlog.
  destruct Hlog as [Hlog0 Hlog].
  rewrite runSteps_cons, bind_fst in Hv.
  assert (Hm1 : map_Forall (fun _ v => exactDoc v)
                  (coerceField (ruleOf k0) path f0 m).1).
  { destruct (coerceField_cases (ruleOf k0) path f0 m)
      as [(v1 & w & Hv1 & Hr & Heq)|[Heq Hun]]; rewrite Heq in Hlog0 |- *; simpl;
      [|exact Hm].
    apply map_Forall_insert_2; [|exact Hm]. by apply Forall_inv in Hlog0. }
  apply elem_of_cons in Hin. destruct Hin as [[= -> ->]|Hin];
    [|by apply (IH _ Hco Hlog Hm1 k f v)].
  destruct (runSteps_value _ _ _ _ _ Hv) as [Hprev|(k2 & v0 & c & Hin & Hr & Hc & Hto)].
  - destruct (coerceField_cases (ruleOf k0) path f0 m)
      as [(v1 & w & Hv1 & Hr & Heq)|[Heq Hun]]; rewrite Heq in Hprev, Hm1; simpl in *.
    + rewrite lookup_insert_eq in Hprev. injection Hprev as ->.
      apply (rule_changed_stable k0 k0 v1 v); [apply compat_refl|exact Hr|].
      apply (Hm1 f0). apply lookup_insert_eq.
    + apply rule_unchanged_stable; [by apply Hun|by apply (Hm f0)].
  - apply (rule_changed_stable k0 k2 v0 v); [by apply Hcompat|exact Hr|].
    subst v. unfold exactLog in Hlog. rewrite Forall_forall in Hlog. by apply Hlog.
Qed.

Lemma coerceField_unchanged rule path field (m : gmap string value) :
  (forall v, m !! field = Some v -> (rule v).2 = false) ->
  coerceField rule path field m = ret m.
Proof.
  intros Hun. unfold coerceField. destruct (m !! field) as [v|]; [|reflexivity].
  specialize (Hun v eq_refl). destruct (rule v) as [w [|]]; [discriminate|reflexivity].
Qed.

Lemma runSteps_fixed path steps (m : gmap string value) :
  (forall k f v, (k, f) ∈ steps -> m !! f = Some v -> stable k v) ->
  runSteps path steps (settle <$> m) = ret (settle <$> m).
Proof.
  induction steps as [|[k f] rest IH]; intros Hst; [reflexivity|].
  rewrite runSteps_cons, coerceField_unchanged, bind_ret_l.
  - apply IH. intros k2 f2 v Hin. apply Hst. by apply list_elem_of_further.
  - intros v. rewrite lookup_fmap, fmap_Some. intros (v0 & Hv0 & ->).
    apply (Hst k f v0); [apply list_elem_of_here|exact Hv0].
Qed.

Lemma deleteNulls_lookup (m : gmap string value) (f : string) (v : value) :
  deleteNulls m !! f = Some v <-> m !! f = Some v /\ isNull v = false.
Proof. unfold deleteNulls. apply map_lookup_filter_Some. Qed.

Lemma deleteNulls_fixed (m : gmap string value) :
  (forall f, m !! f <> Some JNull) -> deleteNulls (settle <$> m) = settle <$> m.
Proof.
  intros Hm. unfold deleteNulls. apply map_filter_id.
  intros f v. rewrite lookup_fmap, fmap_Some. intros (v0 & Hv0 & ->). simpl.
  destruct v0; try reflexivity. by destruct (Hm f).
Qed.

Lemma onFieldsOf_fst (f : fields) (m : gmap string value) :
  (onFieldsOf f m).1
  = if dropNulls f then deleteNulls (runSteps (at_ f) (steps f) m).1
    else (runSteps (at_ f) (steps f) m).1.
Proof. unfold onFieldsOf. by rewrite bind_fst. Qed.

Lemma onFieldsOf_snd (f : fields) (m : gmap string value) :
  (onFieldsOf f m).2 = (runSteps (at_ f) (steps f) m).2.
Proof. unfold onFieldsOf. rewrite bind_snd. apply app_nil_r. Qed.

Lemma onFieldsOf_exact (f : fields) (m : gmap string value) :
  exactLog (onFieldsOf f m).2 ->
  map_Forall (fun _ v => exactDoc v) m ->
  map_Forall (fun _ v => exactDoc v) (onFieldsOf f m).1.
Proof.
  rewrite onFieldsOf_fst, onFieldsOf_snd. intros Hlog Hm.
  pose proof (runSteps_exact _ _ _ Hlog Hm) as Hm1.
  destruct (dropNulls f); [|exact Hm1].
  intros k v Hk. apply deleteNulls_lookup in Hk. by apply (Hm1 k), Hk.
Qed.

Lemma onFieldsOf_settles (f : fields) (m : gmap string value) :
  coherent (steps f) = true ->
  exactLog (onFieldsOf f m).2 ->
  map_Forall (fun _ v => exactDoc v) m ->
  fieldsSettled f (onFieldsOf f m).1.
Proof.
  rewrite onFieldsOf_fst, onFieldsOf_snd. intros Hco Hlog Hm.
  pose proof (runSteps_settles _ _ _ Hco Hlog Hm) as Hst.
  split.
  - intros k field v Hin Hv. apply (Hst k field v Hin).
    destruct (dropNulls f); [|exact Hv]. by apply deleteNulls_lookup in Hv as [Hv _].
  - intros Hd field Hnull. rewrite Hd in Hnull.
    by destruct (proj1 (deleteNulls_lookup _ _ _) Hnull) as [_ Hn].
Qed.

Lemma onFieldsOf_fixed (f : fields) (m : gmap string value) :
  fieldsSettled f m -> onFieldsOf f (settle <$> m) = ret (settle <$> m).
Proof.
  intros [Hst Hnull]. unfold onFieldsOf.
  rewrite runSteps_fixed by exact Hst. rewrite bind_ret_l.
  destruct (dropNulls f); [|reflexivity].
  by rewrite deleteNulls_fixed by (by apply Hnull).
Qed.

Lemma fieldsSettled_insert (f : fields) (m : gmap string value) (key : string)
    (c : value) :
  match c with JArr _ | JObj _ => True | _ => False end ->
  fieldsSettled f m -> fieldsSettled f (<[key := c]> m).
Proof.
  intros Hc [Hst Hnull]. split.
  - intros k field v Hin. destruct (decide (key = field)) as [->|Hne].
    + rewrite lookup_insert_eq. intros [= <-]. apply stable_container. by destruct c.
    + rewrite lookup_insert_ne by exact Hne. by apply Hst.
  - intros Hdrop field. destruct (decide (key = field)) as [->|Hne].
    + rewrite lookup_insert_eq. intros [= ->]. exact Hc.
    + rewrite lookup_insert_ne by exact Hne. by apply Hnull.
Qed.


(** *** The elements of an array *)

Lemma forEachMap_cons body (i : nat) (s : value) (l : list value) :
  forEachMap body i (s :: l)
  = bind (onEntry body i s) (fun s' =>
      bind (forEachMap body (S i) l) (fun rest' => ret (s' :: rest'))).
Proof. reflexivity. Qed.

Lemma exactDoc_obj (m : gmap string value) :
  exactDoc (JObj m) <-> map_Forall (fun _ v => exactDoc v) m.
Proof. apply jall_obj. Qed.

Lemma exactDoc_arr (l : list value) :
  exactDoc (JArr l) <-> Forall exactDoc l.
Proof. apply jall_arr. Qed.

Lemma onEntry_sound body (i : nat) (s : value) :
  soundOn (body i) ->
  exactLog (onEntry body i s).2 ->
  exactDoc s ->
  exactDoc (onEntry body i s).1
  /\ onEntry body i (settle (onEntry body i s).1) = ret (settle (onEntry body i s).1).
Proof.
  intros Hb Hlog Hs. destruct s as [|b|n|str|l|m]; try (split; [exact Hs|reflexivity]).
  unfold onEntry in *. rewrite bind_snd, app_nil_r in Hlog. rewrite bind_fst.
  destruct (Hb m Hlog (proj1 (exactDoc_obj m) Hs)) as [Hm1 Hfix].
  split; [by apply exactDoc_obj|].
  cbn [ret fst settle jmap]. fold (settle : value -> value).
  change (jmap settleNum <$> (body i m).1) with (settle <$> (body i m).1).
  by rewrite Hfix, bind_ret_l.
Qed.

Lemma forEachMap_sound body (i0 : nat) (l : list value) :
  (forall i, soundOn (body i)) ->
  exactLog (forEachMap body i0 l).2 ->
  Forall exactDoc l ->
  Forall exactDoc (forEachMap body i0 l).1
  /\ forEachMap body i0 (settle <$> (forEachMap body i0 l).1)
     = ret (settle <$> (forEachMap body i0 l).1).
Proof.
  intros Hb. revert i0. induction l as [|s l IH]; intros i0 Hlog Hl.
  { split; [constructor|reflexivity]. }
  rewrite forEachMap_cons in *. rewrite !bind_snd in Hlog. rewrite !bind_fst.
  cbn [ret fst snd] in *. rewrite app_nil_r in Hlog.
  apply Forall_app in Hlog. destruct Hlog as [Hlog0 Hlog].
  apply Forall_cons in Hl. destruct Hl as [Hs Hl].
  destruct (onEntry_sound body i0 s (Hb i0) Hlog0 Hs) as [Hs1 Hfix0].
  destruct (IH (S i0) Hlog Hl) as [Hl1 Hfix].
  split; [by constructor|].
  rewrite fmap_cons, forEachMap_cons, Hfix0, bind_ret_l, Hfix, bind_ret_l.
  reflexivity.
Qed.

(** *** The walk *)

Lemma firstArray_Some keys (m : gmap string value) (key : string) (l : list value) :
  firstArray keys m = Some (key, l) -> m !! key = Some (JArr l).
Proof.
  induction keys as [|k keys IH]; [discriminate|]. simpl.
  destruct (m !! k) as [[| | | |l0|]|] eqn:Ek; try exact IH.
  by intros [= <- <-].
Qed.

Lemma firstArray_settled keys (m : gmap string value) (key : string)
    (l l' : list value) :
  firstArray keys m = Some (key, l) ->
  firstArray keys (settle <$> <[key := JArr l']> m) = Some (key, settle <$> l').
Proof.
  induction keys as [|k keys IH]; [discriminate|]. simpl. intros Hfirst.
  rewrite lookup_fmap. destruct (decide (key = k)) as [->|Hne].
  - by rewrite lookup_insert_eq.
  - rewrite lookup_insert_ne by exact Hne.
    destruct (m !! k) as [[| | | |l0|]|] eqn:Ek; simpl; try (by apply IH).
    by injection Hfirst as -> _.
Qed.

Lemma firstArray_None_settled keys (m : gmap string value) :
  firstArray keys m = None -> firstArray keys (settle <$> m) = None.
Proof.
  induction keys as [|k keys IH]; [reflexivity|]. simpl. rewrite lookup_fmap.
  destruct (m !! k) as [[| | | |l0|]|] eqn:Ek; simpl; try exact IH. discriminate.
Qed.

Lemma lookup_settled (m : gmap string value) (key : string) (v : value) :
  m !! key = Some v -> (settle <$> m) !! key = Some (settle v).
Proof. intros Hk. by rewrite lookup_fmap, Hk. Qed.

Lemma lookup_settled_None (m : gmap string value) (key : string) :
  m !! key = None -> (settle <$> m) !! key = None.
Proof. intros Hk. by rewrite lookup_fmap, Hk. Qed.

Lemma apply_sound (s : schema) : wellFormed s -> soundOn (apply s).
Proof.
  induction s as [f|f key inner IH|f keys inner IH]; intros Hwf m Hlog Hm.
  - cbn [apply] in *. split; [by apply onFieldsOf_exact|].
    apply onFieldsOf_fixed. by apply onFieldsOf_settles.
  - destruct Hwf as [Hco Hwf]. rewrite apply_Object in Hlog |- *.
    rewrite bind_snd in Hlog. apply Forall_app in Hlog. destruct Hlog as [HlogF Hlog].
    rewrite bind_fst.
    pose proof (onFieldsOf_exact f m HlogF Hm) as HmF.
    pose proof (onFieldsOf_settles f m Hco HlogF Hm) as HsF.
    destruct (onFieldsOf f m) as [mF lF]. cbn [fst snd] in *.
    destruct (mF !! key) as [c|] eqn:Ekey.
    2:{ split; [exact HmF|].
        rewrite apply_Object, onFieldsOf_fixed by exact HsF.
        rewrite bind_ret_l. by erewrite lookup_settled_None; [|exact Ekey]. }
    destruct c as [|b|n|str|l|o];
      try (split; [exact HmF|];
           rewrite apply_Object, onFieldsOf_fixed by exact HsF;
           rewrite bind_ret_l; by erewrite lookup_settled; [|exact Ekey]).
    rewrite bind_snd, app_nil_r in Hlog. rewrite bind_fst. cbn [ret fst].
    destruct (IH Hwf o Hlog (proj1 (exactDoc_obj o) (HmF key _ Ekey))) as [Ho1 Hfix].
    split.
    { apply map_Forall_insert_2; [by apply exactDoc_obj|exact HmF]. }
    rewrite apply_Object, onFieldsOf_fixed by (by apply fieldsSettled_insert).
    rewrite bind_ret_l. erewrite lookup_settled; [|apply lookup_insert_eq].
    cbn [settle jmap].
    change (jmap settleNum <$> (apply inner o).1) with (settle <$> (apply inner o).1).
    rewrite Hfix, bind_ret_l. f_equal. apply insert_id.
    by erewrite lookup_settled; [|apply lookup_insert_eq].
  - destruct Hwf as [Hco Hwf]. rewrite apply_Array in Hlog |- *.
    rewrite bind_snd in Hlog. apply Forall_app in Hlog. destruct Hlog as [HlogF Hlog].
    rewrite bind_fst.
    pose proof (onFieldsOf_exact f m HlogF Hm) as HmF.
    pose proof (onFieldsOf_settles f m Hco HlogF Hm) as HsF.
    destruct (onFieldsOf f m) as [mF lF]. cbn [fst snd] in *.
    destruct (firstArray keys mF) as [[key l]|] eqn:Efirst.
    2:{ split; [exact HmF|].
        rewrite apply_Array, onFieldsOf_fixed by exact HsF.
        by rewrite bind_ret_l, firstArray_None_settled. }
    rewrite bind_snd, app_nil_r in Hlog. rewrite bind_fst. cbn [ret fst].
    pose proof (firstArray_Some _ _ _ _ Efirst) as Ekey.
    destruct (forEachMap_sound (fun i => apply (inner key i)) 0 l
                (fun i => IH key i (Hwf key i)) Hlog
                (proj1 (exactDoc_arr l) (HmF key _ Ekey))) as [Hl1 Hfix].
    split.
    { apply map_Forall_insert_2; [by apply exactDoc_arr|exact HmF]. }
    rewrite apply_Array, onFieldsOf_fixed by (by apply fieldsSettled_insert).
    rewrite bind_ret_l, (firstArray_settled _ _ _ _ _ Efirst), Hfix, bind_ret_l.
    f_equal. apply insert_id.
    by erewrite lookup_settled; [|apply lookup_insert_eq].
Qed.


(** *** The whole call *)

Lemma coherent_tables o :
  coherent (commonSteps o) = true
  /\ coherent (stationStatusSteps o) = true
  /\ coherent (stationInformationSteps o) = true
  /\ coherent (vehicleSteps o) = true
  /\ coherent (vehicleTypeSteps o) = true
  /\ coherent (systemInformationSteps o) = true
  /\ coherent (ruleSteps o) = true.
Proof. destruct o as [[] [] [] [] ? ? ?]; repeat split; reflexivity. Qed.

Lemma docSchema_wellFormed o (feedType : string) : wellFormed (docSchema o feedType).
Proof.
  destruct (coherent_tables o) as (Hc & Hss & Hsi & Hv & Hvt & Hsys & Hr).
  unfold docSchema, collection, ruleSchema.
  repeat match goal with
         | |- context [if ?b then _ else _] => destruct b
         end; cbn [wellFormed steps noFields]; repeat split; auto.
Qed.

Lemma runSteps_empty path steps : runSteps path steps (∅ : gmap string value) = ret ∅.
Proof.
  induction steps as [|[k f] rest IH]; [reflexivity|].
  rewrite runSteps_cons, coerceField_unchanged, bind_ret_l; [exact IH|].
  intros v. by rewrite lookup_empty.
Qed.

Lemma apply_empty (s : schema) : apply s (∅ : gmap string value) = ret ∅.
Proof.
  assert (Hf : forall f, onFieldsOf f (∅ : gmap string value) = ret ∅).
  { intros f. unfold onFieldsOf. rewrite runSteps_empty, bind_ret_l.
    destruct (dropNulls f); [|reflexivity]. unfold deleteNulls.
    by rewrite map_filter_empty. }
  destruct s as [f|f key inner|f keys inner].
  - apply Hf.
  - rewrite apply_Object, Hf, bind_ret_l. by rewrite lookup_empty.
  - rewrite apply_Array, Hf, bind_ret_l.
    assert (firstArray keys (∅ : gmap string value) = None) as ->; [|reflexivity].
    induction keys as [|k keys IH]; [reflexivity|]. simpl. by rewrite lookup_empty.
Qed.

Lemma writable_doc (v : value) :
  jall numEncodable v = true -> exactDoc v -> jall writable v = true.
Proof.
  unfold exactDoc. induction v as [|b|n|s|l IH|m IH] using json_induction;
    try reflexivity.
  - simpl. unfold writable. by intros -> ->.
  - rewrite !jall_arr, !Forall_forall in *. intros H1 H2 x Hx.
    apply IH; [exact Hx|by apply H1|by apply H2].
  - rewrite !jall_obj. intros H1 H2 k x Hk.
    apply (IH k x Hk); [by apply (H1 k)|by apply (H2 k)].
Qed.

Lemma jall_impl {A : Type} (p q : A -> bool) (j : json A) :
  (forall a, p a = true -> q a = true) -> jall p j = true -> jall q j = true.
Proof.
  intros Hpq. induction j as [|b|n|s|l IH|m IH] using json_induction;
    try reflexivity.
  - apply Hpq.
  - rewrite !jall_arr, !Forall_forall in *. intros H1 x Hx. apply IH; auto.
  - rewrite !jall_obj. intros H1 k x Hk. apply (IH k x Hk). by apply (H1 k).
Qed.

Lemma writable_cases (n : gonum) :
  writable n = true ->
  literalOK (formatNum n) = true
  /\ parseLiteral (formatNum n) = settleNum n
  /\ numEncodable (settleNum n) = true
  /\ formatNum (settleNum n) = formatNum n.
Proof.
  unfold writable, literalOK, parseLiteral. rewrite andb_true_iff.
  destruct n as [f|i]; simpl; intros [Henc Hex].
  - by rewrite ParseFloat_FormatFloat.
  - rewrite ParseFloat_FormatInt, FormatFloat_of_int64, encodable_of_int64 by exact Hex.
    done.
Qed.

(** What the first pass wrote, read again. *)
Lemma UnmarshalMap_Marshal (m : gmap string value) (b : bytes) :
  Marshal (JObj m) = Some b ->
  map_Forall (fun _ v => exactDoc v) m ->
  UnmarshalMap b = UMap (settle <$> m) /\ Marshal (JObj (settle <$> m)) = Some b.
Proof.
  unfold Marshal. destruct (jall numEncodable (JObj m)) eqn:Henc; [|discriminate].
  intros [= <-] Hm.
  pose proof (writable_doc (JObj m) Henc (proj2 (exactDoc_obj m) Hm)) as Hw.
  assert (Hlit : jall literalOK (jmap formatNum (JObj m)) = true).
  { rewrite jall_jmap. revert Hw. apply jall_impl. intros n Hn.
    by apply writable_cases. }
  assert (Hback : jmap parseLiteral (jmap formatNum (JObj m)) = settle (JObj m)).
  { rewrite jmap_jmap. unfold settle. revert Hw. apply jmap_ext_jall.
    intros n Hn. by apply writable_cases. }
  assert (Henc2 : jall numEncodable (settle (JObj m)) = true).
  { unfold settle. rewrite jall_jmap. revert Hw. apply jall_impl. intros n Hn.
    by apply writable_cases. }
  assert (Hfmt : jmap formatNum (settle (JObj m)) = jmap formatNum (JObj m)).
  { unfold settle. rewrite jmap_jmap. revert Hw. apply jmap_ext_jall.
    intros n Hn. by apply writable_cases. }
  split.
  - cbn [jmap UnmarshalMap] in *. rewrite Hlit. f_equal. by injection Hback.
  - change (JObj (settle <$> m)) with (settle (JObj m)). by rewrite Henc2, Hfmt.
Qed.

Lemma UnmarshalMap_exact (data : bytes) (m : gmap string value) :
  UnmarshalMap data = UMap m -> map_Forall (fun _ v => exactDoc v) m.
Proof.
  destruct data as [[| | | | |t]|]; try discriminate. cbn [UnmarshalMap].
  destruct (jall literalOK (JObj t)); [|discriminate]. intros [= <-].
  apply map_Forall_fmap. intros k v _. simpl. unfold exactDoc.
  rewrite jall_jmap. clear. induction v as [|b|n|s|l IH|m IH] using json_induction;
    try reflexivity.
  - rewrite jall_arr. exact IH.
  - rewrite jall_obj. exact IH.
Qed.

End SecondPass.

Section Idempotence.
Context `{GoRuntime} {laws : GoRuntimeLaws}.

Import coerce fieldmap.

Lemma Coerce_walked (c : Coercer) (data : bytes) (feedType : string) :
  Coerce c data feedType
  = let run (isNil : bool) (m : gmap string value) :=
      match Marshal (if isNil then JNull else JObj (apply (docSchema (opts c) feedType) m).1) with
      | Some coercedData =>
          (Some (mkResult coercedData (apply (docSchema (opts c) feedType) m).2),
           mkCoercer (opts c) (apply (docSchema (opts c) feedType) m).2)
      | None => (None, mkCoercer (opts c) (apply (docSchema (opts c) feedType) m).2)
      end in
    match UnmarshalMap data with
    | UErr => (None, mkCoercer (opts c) [])
    | UNil => run true ∅
    | UMap m => run false m
    end.
Proof.
  unfold Coerce. cbv zeta.
  destruct (UnmarshalMap data) as [| |m]; [reflexivity| |];
    rewrite Coerce_walk; by destruct (apply _ _).
Qed.

(** X1: when every integer the first pass wrote is exact as a
    float64 (at most 2^53 in magnitude), coercing the output of a
    successful [Coerce] again, for the same document type and with the
    same options, succeeds, returns the same bytes and logs nothing. *)
Theorem coerce_twice (c c2 : Coercer) (data : bytes) (feedType : string) (r1 : Result) :
  opts c2 = opts c ->
  (Coerce c data feedType).1 = Some r1 ->
  exactLog (Log r1) ->
  exists r2,
    (Coerce c2 (Data r1) feedType).1 = Some r2 /\ Data r2 = Data r1 /\ Log r2 = [].
Proof.
  intros Hopts. rewrite !Coerce_walked. cbv zeta. rewrite Hopts.
  set (s := docSchema (opts c) feedType).
  destruct (UnmarshalMap data) as [| |m] eqn:Hdata; [discriminate| |].
  - rewrite apply_empty. simpl. intros [= <-] _. simpl. by eexists.
  - destruct (Marshal (JObj (apply s m).1)) as [b|] eqn:Hb; [|discriminate].
    simpl. intros [= <-] Hlog. simpl in *.
    destruct (apply_sound s (docSchema_wellFormed _ _) m Hlog
                (UnmarshalMap_exact _ _ Hdata)) as [Hexact Hfix].
    destruct (UnmarshalMap_Marshal _ _ Hb Hexact) as [-> Hb2].
    rewrite Hfix. simpl. rewrite Hb2. simpl. by eexists.
Qed.

End Idempotence.

(** ** The laws hold on the checked reference runtime *)

Lemma byteOf_pretty_N_char (d : N) :
  (d < 10)%N ->
  byteOf (pretty_N_char d) = 48 + Z.of_N d.
Proof.
  intros Hd.
  assert (d = 0 \/ d = 1 \/ d = 2 \/ d = 3 \/ d = 4 \/ d = 5 \/ d = 6 \/ d = 7
          \/ d = 8 \/ d = 9)%N as Hcases by lia.
  repeat (destruct Hcases as [-> | Hcases]; [reflexivity|]). by subst.
Qed.

(** Reading the digits [pretty_N_go] writes. *)
Lemma parseDigits_pretty_N_go (x : N) (s : string) :
  exists k : Z, 0 <= k /\ forall acc,
    parseDigits (pretty_N_go x s) acc = parseDigits s (acc * 10 ^ k + Z.of_N x).
Proof.
  revert s. induction (N.lt_wf_0 x) as [x _ IH]. intros s.
  destruct (decide (x = 0)%N) as [->|Hx].
  - exists 0. split; [lia|]. intros acc. rewrite pretty_N_go_0. f_equal. lia.
  - rewrite pretty_N_go_step by lia.
    assert (Hlt : (x `div` 10 < x)%N) by (apply N.div_lt; lia).
    destruct (IH (x `div` 10)%N Hlt
                (String (pretty_N_char (x `mod` 10)) s)) as (k & Hk & Hgo).
    exists (k + 1). split; [lia|]. intros acc. rewrite Hgo. cbn [parseDigits].
    assert (Hmod : (x `mod` 10 < 10)%N) by (apply N.mod_lt; lia).
    rewrite byteOf_pretty_N_char by exact Hmod.
    assert (Hdm : x = (10 * (x `div` 10) + x `mod` 10)%N) by (apply N.div_mod; lia).
    clear IH Hgo Hlt.
    set (d := (x `mod` 10)%N) in *. set (q := (x `div` 10)%N) in *.
    clearbody d q.
    replace ((48 <=? 48 + Z.of_N d) && (48 + Z.of_N d <=? 57))
      with true by (symmetry; apply andb_true_iff; split; apply Z.leb_le; lia).
    f_equal. rewrite Z.pow_add_r, Z.pow_1_r by lia.
    replace (acc * (10 ^ k * 10)) with (10 * (acc * 10 ^ k)) by ring. lia.
Qed.

Lemma pretty_N_go_nonempty (x : N) (s : string) :
  (0 < x)%N \/ s <> "" -> pretty_N_go x s <> "".
Proof.
  revert s. induction (N.lt_wf_0 x) as [x _ IH]. intros s Hxs.
  destruct (decide (x = 0)%N) as [->|Hx].
  - rewrite pretty_N_go_0. destruct Hxs as [?|?]; [lia|done].
  - rewrite pretty_N_go_step by lia. apply IH; [apply N.div_lt; lia|by right].
Qed.

Lemma parseDecimal_digits (s : string) (n : Z) :
  s <> "" -> parseDigits s 0 = Some n -> parseDecimal s = Some n.
Proof.
  destruct s as [|a r]; [done|]. intros _ Hn.
  assert (Hdigit : ((48 <=? byteOf a) && (byteOf a <=? 57)) = true).
  { cbn [parseDigits] in Hn. by destruct ((48 <=? byteOf a) && (byteOf a <=? 57)). }
  unfold parseDecimal.
  destruct (Ascii.eqb_spec a "+") as [->|Hplus]; [discriminate|].
  destruct (Ascii.eqb_spec a "-") as [->|Hminus]; [discriminate|].
  assert (Hsign : match String a r with
                  | String "+"%char r0 => (false, r0)
                  | String "-"%char r0 => (true, r0)
                  | _ => (false, String a r)
                  end = (false, String a r)).
  { destruct a as [[] [] [] [] [] [] [] []]; try reflexivity; congruence. }
  rewrite Hsign, Hn. reflexivity.
Qed.

Lemma parseDecimal_pretty (n : Z) : parseDecimal (pretty n) = Some n.
Proof.
  assert (Hpos : forall p, parseDigits (pretty (N.pos p)) 0 = Some (Z.pos p)
                           /\ pretty (N.pos p) <> "").
  { intros p. unfold pretty, pretty_N. rewrite decide_False by done.
    destruct (parseDigits_pretty_N_go (N.pos p) "") as (k & _ & Hgo).
    split; [by rewrite Hgo|]. apply pretty_N_go_nonempty. left. lia. }
  destruct n as [|p|p].
  - reflexivity.
  - destruct (Hpos p) as [Hd Hne]. by apply parseDecimal_digits.
  - destruct (Hpos p) as [Hd Hne].
    change (pretty (Z.neg p)) with (String "-"%char (pretty (N.pos p))).
    unfold parseDecimal. destruct (pretty (N.pos p)) as [|a r] eqn:E; [done|].
    rewrite Hd. reflexivity.
Qed.

Lemma roundToFloat64_exact (n : Z) : exactInt n = true -> reference.roundToFloat64 n = n.
Proof. unfold exactInt, reference.roundToFloat64. by intros ->. Qed.

Lemma checked_laws : @GoRuntimeLaws checked.runtime.
Proof.
  assert (Hbound : forall n, exactInt n = true -> (Z.abs n <? 2 ^ 1024) = true).
  { intros n Hn. apply Z.leb_le in Hn. apply Z.ltb_lt.
    assert (2 ^ 53 < 2 ^ 1024) by (apply Z.pow_lt_mono_r; lia). lia. }
  split; cbn [float64 f64_of_int64 int64_of_f64 f64_eqb f64_encodable ParseFloat
                FormatFloat checked.runtime].
  - intros f Hf. unfold checked.isFloat64 in Hf. apply andb_true_iff in Hf as [Hr Hb].
    apply Z.eqb_eq in Hr. unfold reference.parseFloat.
    by rewrite parseDecimal_pretty, Hr, Hb.
  - intros n Hn. unfold FormatInt, reference.parseFloat.
    by rewrite parseDecimal_pretty, (roundToFloat64_exact n Hn), Hbound.
  - intros n Hn. unfold FormatInt. by rewrite (roundToFloat64_exact n Hn).
  - intros n Hn. rewrite (roundToFloat64_exact n Hn).
    apply Z.leb_le in Hn. unfold minInt64, maxInt64.
    assert (2 ^ 53 < 2 ^ 63) by (apply Z.pow_lt_mono_r; lia).
    rewrite (proj2 (andb_true_iff _ _)); [reflexivity|].
    split; apply Z.leb_le; lia.
  - intros n _. apply Z.eqb_refl.
  - intros n Hn. unfold checked.isFloat64.
    rewrite !(roundToFloat64_exact n Hn). by rewrite Z.eqb_refl, Hbound.
Qed.

Section CheckedRuns.
#[local] Existing Instance checked.runtime.

Lemma coerce_twice_witness :
  exists r2,
    (coerce.Coerce (coerce.New coerce.DefaultLenientOptions)
       (coerce.Data sample.firstPass) "station_status").1 = Some r2
    /\ coerce.Data r2 = coerce.Data sample.firstPass
    /\ coerce.Log r2 = [].
Proof.
  apply (@coerce_twice checked.runtime checked_laws
           (coerce.New coerce.DefaultLenientOptions)
           (coerce.New coerce.DefaultLenientOptions)
           sample.stationStatus "station_status" sample.firstPass).
  - reflexivity.
  - reflexivity.
  - repeat constructor.
Defined.

End CheckedRuns.

(** ** station_status: a string where a boolean is expected *)

Section Lists.
Context {A B : Type}.

Lemma Forall_concat_imap (Q : B -> Prop) (g : nat -> A -> list B) (l : list A) :
  (forall j y, l !! j = Some y -> Forall Q (g j y)) ->
  Forall Q (concat (imap g l)).
Proof.
  revert g. induction l as [|x l IH]; intros g Hg; [constructor|].
  simpl. apply Forall_app. split; [by apply (Hg 0%nat)|].
  apply IH. intros j y Hj. by apply (Hg (S j)).
Qed.

Lemma concat_imap_middle (g : nat -> A -> list B) (l : list A) (i : nat) (x : A) :
  l !! i = Some x ->
  concat (imap g l)
  = concat (imap g (take i l)) ++ g i x
    ++ concat (imap (fun j => g (S i + j)%nat) (drop (S i) l)).
Proof.
  revert g i. induction l as [|y l IH]; intros g i Hi; [done|].
  destruct i as [|i]; simpl in *.
  - injection Hi as ->. by rewrite drop_0.
  - rewrite (IH (g ∘ S) i Hi). by rewrite <- app_assoc.
Qed.

Lemma elem_of_concat (x : B) (ls : list (list B)) :
  x ∈ concat ls <-> exists l, x ∈ l /\ l ∈ ls.
Proof.
  induction ls as [|l0 ls IH]; simpl.
  - split; [by intros ?%elem_of_nil|by intros (l & _ & ?%elem_of_nil)].
  - rewrite elem_of_app, IH. split.
    + intros [Hx|(l & Hx & Hl)]; [exists l0|exists l]; split; auto;
        [apply list_elem_of_here|by apply list_elem_of_further].
    + intros (l & Hx & Hl). apply elem_of_cons in Hl as [->|Hl]; [by left|].
      right. by exists l.
Qed.

Lemma filter_none (P : B -> Prop) `{forall x, Decision (P x)} (l : list B) :
  Forall (fun x => ~ P x) l -> filter P l = [].
Proof.
  induction 1 as [|x l Hx _ IH]; [reflexivity|].
  by rewrite filter_cons_False.
Qed.

End Lists.

Section StationStatusCoercion.
Context `{GoRuntime}.

Import coerce fieldmap.

Lemma rule_writesNoFloat (k : kind) (f : string) (v w : value) :
  writesNoFloat (k, f) = true -> ruleOf k v = (w, true) -> encodable w.
Proof.
  intros Hk Hr. apply rule_output in Hr.
  destruct k; try discriminate; destruct Hr as [x ->]; reflexivity.
Qed.

Lemma runSteps_encodable path steps (m : gmap string value) :
  Forall (fun s => writesNoFloat s = true) steps ->
  map_Forall (fun _ v => encodable v) m ->
  map_Forall (fun _ v => encodable v) (runSteps path steps m).1.
Proof.
  intros Hsteps. apply runSteps_preserves. intros k v w Hk.
  apply list_elem_of_fmap in Hk as ([k2 f] & -> & Hin).
  rewrite Forall_forall in Hsteps. apply (rule_writesNoFloat _ f), (Hsteps _ Hin).
Qed.

Lemma deleteNulls_Forall (P : value -> Prop) (m : gmap string value) :
  map_Forall (fun _ v => P v) m -> map_Forall (fun _ v => P v) (deleteNulls m).
Proof. intros Hm k v Hk. apply deleteNulls_lookup in Hk. by apply (Hm k), Hk. Qed.

Lemma onFieldsOf_encodable (f : fields) (m : gmap string value) :
  Forall (fun s => writesNoFloat s = true) (steps f) ->
  map_Forall (fun _ v => encodable v) m ->
  map_Forall (fun _ v => encodable v) (onFieldsOf f m).1.
Proof.
  intros Hsteps Hm. rewrite onFieldsOf_fst.
  pose proof (runSteps_encodable (at_ f) _ _ Hsteps Hm) as Hm1.
  destruct (dropNulls f); [by apply deleteNulls_Forall|exact Hm1].
Qed.

Lemma forEachMap_lookup body (l : list value) (i : nat) (x : value) :
  l !! i = Some x -> (forEachMap body 0 l).1 !! i = Some (entryAfter body i x).
Proof.
  intros Hi. rewrite forEachMap_closed. cbn [fst].
  by rewrite list_lookup_imap, Hi.
Qed.

Lemma forEachMap_Forall (P : value -> Prop) body (l : list value) :
  (forall i x, P x -> P (entryAfter body i x)) ->
  Forall P l -> Forall P (forEachMap body 0 l).1.
Proof.
  intros Hb Hl. rewrite forEachMap_closed. cbn [fst].
  apply Forall_lookup. intros i y. rewrite list_lookup_imap.
  destruct (l !! i) as [x|] eqn:Hi; [|discriminate]. intros [= <-].
  apply Hb. by apply (Forall_lookup_1 _ _ _ _ Hl Hi).
Qed.

(** The tables of the two levels of a station_status document. *)
Lemma commonSteps_shape o :
  Forall (fun s => writesNoFloat s = true) (commonSteps o)
  /\ ("data" ∉ (commonSteps o).*2).
Proof.
  destruct o as [? [] [] ? ? ? ?]; (split; [repeat constructor|]);
    apply (bool_decide_unpack _); vm_compute; exact I.
Qed.

Lemma stationStatusSteps_shape o :
  CoerceBooleans o = true ->
  exists rest,
    stationStatusSteps o = (KBool, "is_installed") :: rest
    /\ ("is_installed" ∉ rest.*2)
    /\ Forall (fun s => writesNoFloat s = true) (stationStatusSteps o).
Proof.
  destruct o as [[] [] [] ? ? ? ?]; [| | | |discriminate..]; intros _; eexists;
    (split; [reflexivity|]);
    (split; [apply (bool_decide_unpack _); vm_compute; exact I|repeat constructor]).
Qed.

Lemma stationStatusSteps_writesNoFloat o :
  Forall (fun s => writesNoFloat s = true) (stationStatusSteps o).
Proof. destruct o as [[] [] [] ? ? ? ?]; repeat constructor. Qed.

Lemma boolRule_one : boolRule (JStr "1") = (JBool true, true).
Proof. reflexivity. Qed.

(** The entry that holds the string: what the coercer leaves and logs. *)
Lemma coerceStationStatusEntry_installed o (i : nat) (station : gmap string value) :
  CoerceBooleans o = true ->
  station !! "is_installed" = Some (JStr "1") ->
  (coerceStationStatusEntry o i station).1 !! "is_installed" = Some (JBool true)
  /\ filter (aboutInstalled i) (coerceStationStatusEntry o i station).2
     = [mkCoercion (stationPath i) "is_installed" "string" "bool" (JStr "1") (JBool true)].
Proof.
  intros Hb Hst. rewrite coerceStationStatusEntry_steps, bind_fst, bind_snd, app_nil_r.
  destruct (stationStatusSteps_shape o Hb) as (rest & -> & Hrest & _).
  rewrite runSteps_cons, bind_fst, bind_snd.
  assert (Hstep : coerceField (ruleOf KBool) ("/data/stations/" +:+ pretty i)
                    "is_installed" station
                  = (<["is_installed" := JBool true]> station,
                     [mkCoercion (stationPath i) "is_installed" "string" "bool"
                        (JStr "1") (JBool true)])).
  { destruct (coerceField_cases (ruleOf KBool) ("/data/stations/" +:+ pretty i)
                "is_installed" station) as [(v & w & Hv & Hr & ->)|[_ Hun]].
    - pose proof (eq_trans (eq_sym Hv) Hst) as Heq. injection Heq as ->.
      cbn [ruleOf] in Hr. rewrite boolRule_one in Hr. by injection Hr as <-.
    - specialize (Hun _ Hst). cbn [ruleOf] in Hun. by rewrite boolRule_one in Hun. }
  rewrite Hstep. cbn [fst snd]. split.
  - assert (Hkeep : (runSteps ("/data/stations/" +:+ pretty i) rest
                       (<["is_installed" := JBool true]> station)).1 !! "is_installed"
                    = Some (JBool true)).
    { etransitivity; [by apply runSteps_frame|apply lookup_insert_eq]. }
    destruct (TreatNullAsAbsent o); [|exact Hkeep].
    apply deleteNulls_lookup. by split.
  - unfold CoercionLog, Co in *. rewrite filter_app, filter_cons_True by done. rewrite filter_nil. simpl. f_equal.
    apply filter_none. eapply Forall_impl; [apply runSteps_log|].
    intros c [_ Hf] [_ Hc]. by rewrite Hc in Hf.
Qed.

End StationStatusCoercion.

Section StationStatusDocument.
Context `{JSONDecoder}.

Import coerce fieldmap validator.

Lemma UnmarshalMap_finite (top : gmap string wire) :
  jall finiteLiteral (JObj top) = true ->
  UnmarshalMap (Text (JObj top)) = UMap (jmap parseLiteral <$> top)
  /\ map_Forall (fun _ v => encodable v) (jmap parseLiteral <$> top).
Proof.
  intros Hfin. split.
  - cbn [UnmarshalMap].
    rewrite (jall_impl finiteLiteral literalOK (JObj top)); [reflexivity| |exact Hfin].
    intros lit. unfold finiteLiteral, literalOK. by destruct (ParseFloat lit).
  - apply (jall_obj numEncodable (jmap parseLiteral <$> top)).
    change (jall numEncodable (jmap parseLiteral (JObj top)) = true).
    rewrite jall_jmap. revert Hfin. apply jall_impl.
    intros lit. unfold finiteLiteral, parseLiteral. by destruct (ParseFloat lit).
Qed.

Lemma validateByType_station_status (m : gmap string value) (ver : string) :
  validateByType "station_status" m ver = validateStationStatus m ver.
Proof. reflexivity. Qed.

Lemma coerceByType_station_status o (m : gmap string value) :
  coerceByType o "station_status" m = coerceStationStatus o m.
Proof. reflexivity. Qed.


Lemma lookup_jmap {A B : Type} (f : A -> B) (m : gmap string (json A)) (k : string)
    (v : json A) :
  m !! k = Some v -> (jmap f <$> m) !! k = Some (jmap f v).
Proof. intros Hk. by rewrite lookup_fmap, Hk. Qed.

Lemma stationStatusEntry_installed (i : nat) (station : gmap string value) (v : value) :
  station !! "is_installed" = Some v ->
  match v with JBool _ => False | _ => True end ->
  issue SeverityError "is_installed must be a boolean" (stationFieldPath i "is_installed")
    ∈ stationStatusEntry i station.
Proof.
  intros Hst Hv. unfold stationStatusEntry. apply elem_of_app. right.
  cbn [map concat]. apply elem_of_app. left. unfold mustBeBool.
  destruct (station !! "is_installed") as [v2|] eqn:Hv2; [|discriminate].
  injection Hst as ->. destruct v; try contradiction; apply list_elem_of_here.
Qed.

Lemma checkEntries_elem check (l : list value) (e : ValidationError.t) :
  e ∈ checkEntries check l <-> exists j m, l !! j = Some (JObj m) /\ e ∈ check j m.
Proof.
  unfold checkEntries. rewrite elem_of_concat. split.
  - intros (es & He & Hes). apply elem_of_lookup_imap in Hes as (j & x & -> & Hj).
    destruct x; try (by apply elem_of_nil in He). eauto.
  - intros (j & m & Hj & He). eexists. split; [exact He|].
    apply elem_of_lookup_imap. exists j, (JObj m). by split.
Qed.

(** Without coercion the validator reports the string. *)
Lemma station_status_string_rejected (top d st : gmap string wire) (sts : list wire)
    (i : nat) (ver : string) :
  jall finiteLiteral (JObj top) = true ->
  top !! "data" = Some (JObj d) ->
  d !! "stations" = Some (JArr sts) ->
  sts !! i = Some (JObj st) ->
  st !! "is_installed" = Some (JStr "1") ->
  issue SeverityError "is_installed must be a boolean" (stationFieldPath i "is_installed")
    ∈ validateFileStructure (Text (JObj top)) "station_status" ver.
Proof.
  intros Hfin Hd Hsts Hi Hst. unfold validateFileStructure.
  rewrite (proj1 (UnmarshalMap_finite top Hfin)).
  rewrite !elem_of_app. do 3 right.
  rewrite validateByType_station_status. unfold validateStationStatus, value.
  erewrite lookup_jmap; [|exact Hd]. cbn [jmap].
  erewrite lookup_jmap; [|exact Hsts]. cbn [jmap].
  apply checkEntries_elem. exists i, (jmap parseLiteral <$> st). split.
  - rewrite list_lookup_fmap. unfold wire in *. by rewrite Hi.
  - apply (stationStatusEntry_installed i _ (JStr "1")); [|exact I].
    exact (lookup_jmap parseLiteral st "is_installed" (JStr "1") Hst).
Qed.


Lemma stationPath_inj (i j : nat) : stationPath i = stationPath j -> i = j.
Proof.
  unfold stationPath. intros Heq.
  apply (String.app_inj "/data/stations/") in Heq.
  by apply pretty_nat_inj in Heq.
Qed.

Lemma stationFieldPath_inj (i j : nat) (field : string) :
  stationFieldPath i field = stationFieldPath j field -> i = j.
Proof.
  unfold stationFieldPath. intros Heq.
  apply (String.app_inj "/data/stations/") in Heq.
  apply append_cancel_suffix in Heq.
  by apply pretty_nat_inj in Heq.
Qed.

(** The walk on a station_status document that has its stations. *)
Lemma apply_station_status o (m d : gmap string value) (sts : list value) :
  m !! "data" = Some (JObj d) ->
  d !! "stations" = Some (JArr sts) ->
  apply (docSchema o "station_status") m
  = (<["data" := JObj (<["stations" :=
        JArr (forEachMap (fun i => onFieldsOf (statusEntry o i)) 0 sts).1]> d)]>
       (onFieldsOf (commonFields o) m).1,
     (onFieldsOf (commonFields o) m).2
       ++ (forEachMap (fun i => onFieldsOf (statusEntry o i)) 0 sts).2).
Proof.
  intros Hd Hsts.
  change (docSchema o "station_status")
    with (collection o ["stations"] (fun _ i => statusEntry o i)).
  unfold collection. rewrite apply_Object.
  assert (Hd1 : (onFieldsOf (commonFields o) m).1 !! "data" = Some (JObj d)).
  { rewrite onFieldsOf_fst.
    assert (Hrun : (runSteps (at_ (commonFields o)) (steps (commonFields o)) m).1 !! "data"
                   = Some (JObj d)).
    { etransitivity; [apply runSteps_frame, commonSteps_shape|exact Hd]. }
    destruct (dropNulls (commonFields o)); [|exact Hrun].
    apply deleteNulls_lookup. by split. }
  destruct (onFieldsOf (commonFields o) m) as [mA lA]. cbn [fst snd] in *.
  unfold coerce.bind at 1. cbn [fst snd].
  destruct (mA !! "data") as [x|] eqn:Hx; [|discriminate].
  injection Hd1 as ->.
  rewrite apply_Array, onFieldsOf_noFields, bind_ret_l. cbn [firstArray].
  destruct (d !! "stations") as [y|] eqn:Hy; [|discriminate].
  injection Hsts as ->.
  destruct (forEachMap _ 0 sts) as [sts1 lS]. unfold coerce.bind, coerce.ret. cbn.
  by rewrite !app_nil_r.
Qed.


Lemma lookup_map_jmap {A B : Type} (f : A -> B) (l : list (json A)) (i : nat)
    (x : json A) :
  l !! i = Some x -> map (jmap f) l !! i = Some (jmap f x).
Proof.
  intros Hi. change (map (jmap f) l) with (jmap f <$> l).
  by rewrite list_lookup_fmap, Hi.
Qed.

Lemma stationField_Text (top d st : gmap string wire) (l : list wire) (i : nat)
    (field : string) (w : wire) :
  top !! "data" = Some (JObj d) ->
  d !! "stations" = Some (JArr l) ->
  l !! i = Some (JObj st) ->
  st !! field = Some w ->
  stationField (Text (JObj top)) i field = Some w.
Proof.
  intros Hd Hl Hi Hw. unfold stationField, wire in *. by rewrite Hd, Hl, Hi.
Qed.

Lemma jmap_obj_inv {A B : Type} (f : A -> B) (x : json A) (m : gmap string (json B)) :
  jmap f x = JObj m -> exists mw, x = JObj mw /\ m = jmap f <$> mw.
Proof. destruct x; try discriminate. intros [= <-]. eauto. Qed.

Lemma jmap_arr_inv {A B : Type} (f : A -> B) (x : json A) (l : list (json B)) :
  jmap f x = JArr l -> exists lw, x = JArr lw /\ l = jmap f <$> lw.
Proof. destruct x; try discriminate. intros [= <-]. eauto. Qed.

Lemma lookup_jmap_inv {A B : Type} (f : A -> B) (m : gmap string (json A)) (k : string)
    (v : json B) :
  (jmap f <$> m) !! k = Some v -> exists w, m !! k = Some w /\ v = jmap f w.
Proof. rewrite lookup_fmap, fmap_Some. intros (w & Hw & ->). eauto. Qed.

(** What the validator reads in an entry is what the bytes hold there. *)
Lemma stationField_decoded (b : bytes) (m dd stm : gmap string value) (l : list value)
    (j : nat) (field : string) (v : value) :
  UnmarshalMap b = UMap m ->
  m !! "data" = Some (JObj dd) ->
  dd !! "stations" = Some (JArr l) ->
  l !! j = Some (JObj stm) ->
  stm !! field = Some v ->
  exists w, stationField b j field = Some w /\ v = jmap parseLiteral w.
Proof.
  destruct b as [[| | | | |t]|]; try discriminate. cbn [UnmarshalMap].
  destruct (jall literalOK (JObj t)); [|discriminate]. intros [= <-] Hd Hsts Hj Hv.
  apply lookup_jmap_inv in Hd as (x & Hx & Hd). symmetry in Hd.
  apply jmap_obj_inv in Hd as (dw & -> & ->).
  apply lookup_jmap_inv in Hsts as (y & Hy & Hsts). symmetry in Hsts.
  apply jmap_arr_inv in Hsts as (lw & -> & ->).
  rewrite list_lookup_fmap, fmap_Some in Hj. destruct Hj as (z & Hz & Hj).
  symmetry in Hj. apply jmap_obj_inv in Hj as (sw & -> & ->).
  apply lookup_jmap_inv in Hv as (w & Hw & ->).
  exists w. split; [|reflexivity]. unfold stationField. unfold wire in *.
  by rewrite Hx, Hy, Hz.
Qed.

Lemma mustBeBool_elem (j : nat) (station : gmap string value) (field : string)
    (e : ValidationError.t) :
  e ∈ mustBeBool j station field ->
  ValidationError.Message e = field +:+ " must be a boolean"
  /\ ValidationError.InstancePath e = stationFieldPath j field
  /\ exists v, station !! field = Some v /\ match v with JBool _ => False | _ => True end.
Proof.
  unfold mustBeBool. destruct (station !! field) as [v|]; [|by intros ?%elem_of_nil].
  destruct v; try (by intros ?%elem_of_nil);
    intros ->%list_elem_of_singleton;
    (split; [reflexivity|]); (split; [reflexivity|]);
    eexists; (split; [reflexivity|exact I]).
Qed.

Lemma requireKey_elem (m : gmap string value) (k msg path : string)
    (e : ValidationError.t) :
  e ∈ requireKey m k msg path -> ValidationError.Message e = msg.
Proof.
  unfold requireKey. destruct (hasKey m k); [by intros ?%elem_of_nil|].
  by intros ->%list_elem_of_singleton.
Qed.

(** Where an "is_installed must be a boolean" issue comes from. *)
Lemma station_status_type_issue (b : bytes) (ver : string) (e : ValidationError.t) :
  e ∈ validateFileStructure b "station_status" ver ->
  ValidationError.Message e = "is_installed must be a boolean" ->
  exists j w,
    ValidationError.InstancePath e = stationFieldPath j "is_installed"
    /\ stationField b j "is_installed" = Some w
    /\ match w with JBool _ => False | _ => True end.
Proof.
  unfold validateFileStructure.
  assert (Hchecks : forall m : gmap string value,
    UnmarshalMap b = UMap m \/ m = ∅ ->
    e ∈ (if hasKey m "last_updated" then []
         else [issue SeverityError "last_updated is required" "/last_updated"])
        ++ (if hasKey m "ttl" then []
            else [issue SeverityWarning "ttl is recommended" "/ttl"])
        ++ (if hasKey m "data" then []
            else [issue SeverityError "data object is required" "/data"])
        ++ validateByType "station_status" m ver ->
    ValidationError.Message e = "is_installed must be a boolean" ->
    exists j w,
      ValidationError.InstancePath e = stationFieldPath j "is_installed"
      /\ stationField b j "is_installed" = Some w
      /\ match w with JBool _ => False | _ => True end).
  { intros m Hm Hin Hmsg. rewrite !elem_of_app in Hin.
    destruct Hin as [Hin|[Hin|[Hin|Hin]]];
      try (destruct (hasKey m _);
           [by apply elem_of_nil in Hin
           |apply list_elem_of_singleton in Hin; subst e; discriminate]).
    rewrite validateByType_station_status in Hin. unfold validateStationStatus in Hin.
    destruct (m !! "data") as [x|] eqn:Hd; [|by apply elem_of_nil in Hin].
    destruct x as [| | | | |dd]; try (by apply elem_of_nil in Hin).
    destruct (dd !! "stations") as [y|] eqn:Hsts;
      [|apply list_elem_of_singleton in Hin; subst e; discriminate].
    destruct y as [| | | |l|];
      try (apply list_elem_of_singleton in Hin; subst e; discriminate).
    apply checkEntries_elem in Hin as (j & stm & Hj & Hin).
    unfold stationStatusEntry in Hin. apply elem_of_app in Hin as [Hin|Hin].
    { apply requireKey_elem in Hin. rewrite Hin in Hmsg. discriminate. }
    cbn [map concat] in Hin. rewrite !elem_of_app in Hin.
    destruct Hin as [Hin|[Hin|[Hin|Hin]]]; [| | |by apply elem_of_nil in Hin];
      apply mustBeBool_elem in Hin as (Hm2 & Hpath & v & Hv & Hnb);
      try (rewrite Hm2 in Hmsg; discriminate).
    destruct Hm as [Hm| ->]; [|by rewrite lookup_empty in Hd].
    destruct (stationField_decoded b m dd stm l j "is_installed" v Hm Hd Hsts Hj Hv)
      as (w & Hw & ->).
    exists j, w. repeat split; [exact Hpath|exact Hw|by destruct w]. }
  destruct (UnmarshalMap b) as [| |m].
  - intros ->%list_elem_of_singleton. discriminate.
  - apply Hchecks. by right.
  - apply Hchecks. by left.
Qed.

Lemma station_status_no_type_issue (b : bytes) (ver : string) (i : nat) :
  stationField b i "is_installed" = Some (JBool true) ->
  Forall (fun e => ~ (ValidationError.Message e = "is_installed must be a boolean"
                      /\ ValidationError.InstancePath e = stationFieldPath i "is_installed"))
    (validateFileStructure b "station_status" ver).
Proof.
  intros Hb. apply Forall_forall. intros e He [Hmsg Hpath].
  destruct (station_status_type_issue b ver e He Hmsg) as (j & w & Hj & Hw & Hnb).
  rewrite Hj in Hpath. apply stationFieldPath_inj in Hpath. subst j.
  rewrite Hb in Hw. injection Hw as <-. exact Hnb.
Qed.


Lemma statusEntry_run o (i : nat) (station : gmap string value) :
  onFieldsOf (statusEntry o i) station = coerceStationStatusEntry o i station.
Proof. symmetry. apply coerceStationStatusEntry_steps. Qed.

Lemma statusEntry_log o (j : nat) (x : value) :
  Forall (fun r => Path r = stationPath j)
    (entryLog (fun i => onFieldsOf (statusEntry o i)) j x).
Proof.
  destruct x; try constructor. cbn [entryLog]. rewrite onFieldsOf_snd.
  eapply Forall_impl; [apply runSteps_log|]. by intros r [Hr _].
Qed.

(** With boolean coercion the coercer rewrites the string and logs it
    once. *)
Lemma Coerce_station_status_installed (c : Coercer) (top d st : gmap string wire)
    (sts : list wire) (i : nat) :
  jall finiteLiteral (JObj top) = true ->
  top !! "data" = Some (JObj d) ->
  d !! "stations" = Some (JArr sts) ->
  sts !! i = Some (JObj st) ->
  st !! "is_installed" = Some (JStr "1") ->
  CoerceBooleans (opts c) = true ->
  exists res,
    (Coerce c (Text (JObj top)) "station_status").1 = Some res
    /\ stationField (Data res) i "is_installed" = Some (JBool true)
    /\ filter (aboutInstalled i) (Log res)
       = [mkCoercion (stationPath i) "is_installed" "string" "bool"
            (JStr "1") (JBool true)].
Proof.
  intros Hfin Hd Hsts Hi Hst Hb.
  destruct (UnmarshalMap_finite top Hfin) as [HU Henc].
  rewrite Coerce_walked. cbv zeta. rewrite HU. cbv beta iota.
  pose proof (lookup_jmap parseLiteral top "data" _ Hd) as Hd0.
  pose proof (lookup_jmap parseLiteral d "stations" _ Hsts) as Hsts0.
  assert (Hi0 : (jmap parseLiteral <$> sts) !! i = Some (JObj (jmap parseLiteral <$> st))).
  { rewrite list_lookup_fmap. unfold wire in *. by rewrite Hi. }
  pose proof (lookup_jmap parseLiteral st "is_installed" _ Hst) as Hst0.
  cbn [jmap] in Hd0, Hsts0, Hst0.
  rewrite (apply_station_status (opts c) _ _ _ Hd0 Hsts0). cbn [fst snd].
  change (map (jmap parseLiteral) sts) with (jmap parseLiteral <$> sts) in *.
  set (o := opts c) in *.
  set (m0 := jmap parseLiteral <$> top) in *.
  set (d0 := jmap parseLiteral <$> d) in *.
  set (sts0 := jmap parseLiteral <$> sts) in *.
  set (st0 := jmap parseLiteral <$> st) in *.
  set (body := fun i => onFieldsOf (statusEntry o i)).
  destruct (coerceStationStatusEntry_installed o i st0 Hb Hst0) as [Hval Hlog].
  rewrite <- statusEntry_run in Hval, Hlog. fold (body i) in Hval, Hlog.
  pose proof (forEachMap_lookup body sts0 i _ Hi0) as Hi1. cbn [entryAfter] in Hi1.
  assert (Henc1 : jall numEncodable
            (JObj (<["data" := JObj (<["stations" := JArr (forEachMap body 0 sts0).1]> d0)]>
                     (onFieldsOf (commonFields o) m0).1)) = true).
  { apply jall_obj. apply map_Forall_insert_2.
    - pose proof (Henc "data" _ Hd0) as Hd0e. apply jall_obj in Hd0e.
      apply jall_obj. apply map_Forall_insert_2; [|exact Hd0e].
      apply jall_arr. apply (forEachMap_Forall encodable).
      + intros j x Hx. destruct x; try exact Hx. cbn [entryAfter].
        apply jall_obj. apply onFieldsOf_encodable;
          [apply stationStatusSteps_writesNoFloat|by apply jall_obj].
      + apply jall_arr. exact (Hd0e "stations" _ Hsts0).
    - apply onFieldsOf_encodable; [apply commonSteps_shape|exact Henc]. }
  unfold Marshal.
  match goal with
  | |- context [if ?b then _ else _] => replace b with true by (symmetry; exact Henc1)
  end.
  eexists. split; [reflexivity|]. cbn [Data Log]. split.
  - cbn [jmap]. eapply stationField_Text.
    + exact (lookup_jmap formatNum _ "data" (JObj _) (lookup_insert_eq _ _ _)).
    + exact (lookup_jmap formatNum _ "stations" (JArr _) (lookup_insert_eq _ _ _)).
    + exact (lookup_map_jmap formatNum _ i (JObj _) Hi1).
    + exact (lookup_jmap formatNum _ "is_installed" (JBool true) Hval).
  - unfold CoercionLog in *. rewrite filter_app.
    rewrite (filter_none (aboutInstalled i) (onFieldsOf (commonFields o) m0).2).
    2:{ rewrite onFieldsOf_snd. eapply Forall_impl; [apply runSteps_log|].
        intros r [Hr _] [Hp _]. rewrite Hr in Hp. discriminate. }
    rewrite forEachMap_closed. cbn [snd]. unfold CoercionLog in *.
    erewrite concat_imap_middle; [|exact Hi0]. rewrite !filter_app. cbn [entryLog Nat.add].
    match goal with
    | |- [] ++ ?before ++ ?here ++ ?after = _ =>
        replace before with (@nil Coercion);
        [replace after with (@nil Coercion);
         [replace here with
            [mkCoercion (stationPath i) "is_installed" "string" "bool"
               (JStr "1") (JBool true)] by (symmetry; exact Hlog);
          reflexivity|]|]
    end; symmetry; apply filter_none, Forall_concat_imap; intros j y Hj.
    + eapply Forall_impl; [apply statusEntry_log|].
      intros r Hr [Hp _]. rewrite Hr in Hp. apply stationPath_inj in Hp. lia.
    + apply lookup_take_Some in Hj as [_ Hlt].
      eapply Forall_impl; [apply statusEntry_log|].
      intros r Hr [Hp _]. rewrite Hr in Hp. apply stationPath_inj in Hp. lia.
Qed.

End StationStatusDocument.

(** ** What the coercer logs, and what it leaves alone *)

Section CoercerLog.
Context `{GoRuntime}.

Import coerce fieldmap.

Lemma rule_record (k : kind) (path field : string) (v w : value) :
  ruleOf k v = (w, true) ->
  ruleRecord (mkCoercion path field (typeName v) (typeName w) v w).
Proof.
  intros Hr. unfold ruleRecord. cbn [FromType ToType From To].
  split; [reflexivity|]. split; [reflexivity|].
  destruct k; cbn [ruleOf] in Hr;
    unfold boolRule, intRule, floatRule, coerceToNumber, coerceTimestamp,
      coerceToBool, coerceToInt, coerceToFloat in Hr;
    repeat case_match; simplify_eq; cbn [typeName];
    (split; [set_solver|split; [set_solver|discriminate]]).
Qed.

Lemma runSteps_records path steps (m : gmap string value) :
  Forall ruleRecord (runSteps path steps m).2.
Proof.
  revert m. induction steps as [|[k field] rest IH]; intros m; [constructor|].
  rewrite runSteps_cons, bind_snd. apply Forall_app. split; [|apply IH].
  destruct (coerceField_cases (ruleOf k) path field m)
    as [(v & w & _ & Hr & ->)|[-> _]]; cbn [snd]; [|constructor].
  constructor; [|constructor]. by apply (rule_record k).
Qed.

Lemma forEachMap_log (P : Coercion -> Prop) body (i0 : nat) (l : list value) :
  (forall i m, Forall P (body i m).2) -> Forall P (forEachMap body i0 l).2.
Proof.
  intros Hb. rewrite forEachMap_closed. cbn [snd].
  apply Forall_concat_imap. intros j y _. destruct y; try constructor. apply Hb.
Qed.

Lemma apply_records (s : schema) (m : gmap string value) :
  Forall ruleRecord (apply s m).2.
Proof.
  revert m. induction s as [f|f key inner IH|f keys inner IH]; intros m.
  - cbn [apply]. rewrite onFieldsOf_snd. apply runSteps_records.
  - rewrite apply_Object, bind_snd. apply Forall_app. split.
    { rewrite onFieldsOf_snd. apply runSteps_records. }
    destruct ((onFieldsOf f m).1 !! key) as [[| | | | |o]|]; try constructor.
    rewrite bind_snd. apply Forall_app. split; [apply IH|constructor].
  - rewrite apply_Array, bind_snd. apply Forall_app. split.
    { rewrite onFieldsOf_snd. apply runSteps_records. }
    destruct (firstArray keys (onFieldsOf f m).1) as [[key l]|]; [|constructor].
    rewrite bind_snd. apply Forall_app. split; [|constructor].
    apply forEachMap_log. intros i e. apply IH.
Qed.


(** X2: every record in the log after a call of [Coerce] was written by
    a rule that reported a change: its type names are those of its two
    values, it rewrites a string or a number into a boolean or a number
    of another type; and on success the log of the result is the log of
    the coercer. *)
Theorem Coerce_logs_rule_records (c : Coercer) (data : bytes) (feedType : string) :
  Forall ruleRecord (GetLog (Coerce c data feedType).2)
  /\ forall res, (Coerce c data feedType).1 = Some res ->
                 Log res = GetLog (Coerce c data feedType).2.
Proof.
  rewrite Coerce_walked. cbv zeta. unfold GetLog.
  destruct (UnmarshalMap data) as [| |m].
  - split; [constructor|discriminate].
  - destruct (Marshal _); cbn [fst snd log];
      (split; [apply apply_records|]); [by intros res [= <-]|discriminate].
  - destruct (Marshal _); cbn [fst snd log];
      (split; [apply apply_records|]); [by intros res [= <-]|discriminate].
Qed.

(** *** Every coercion off *)

Lemma onFieldsOf_idle (f : fields) (m : gmap string value) :
  steps f = [] -> dropNulls f = false -> onFieldsOf f m = ret m.
Proof. unfold onFieldsOf. by intros -> ->. Qed.

Lemma forEachMap_idle body (i0 : nat) (l : list value) :
  (forall i m, body i m = ret m) -> forEachMap body i0 l = ret l.
Proof.
  intros Hb. revert i0. induction l as [|x l IH]; intros i0; [reflexivity|].
  cbn [forEachMap]. rewrite IH.
  destruct x; rewrite ?Hb; reflexivity.
Qed.

Lemma apply_idle (s : schema) (m : gmap string value) : idle s -> apply s m = ret m.
Proof.
  revert m. induction s as [f|f key inner IH|f keys inner IH]; intros m.
  - intros [Hs Hd]. by apply onFieldsOf_idle.
  - intros (Hs & Hd & Hin). rewrite apply_Object, onFieldsOf_idle, bind_ret_l by done.
    destruct (m !! key) as [x|] eqn:Hk; [|reflexivity].
    destruct x as [| | | | |o]; try reflexivity.
    rewrite (IH o Hin), bind_ret_l. by rewrite insert_id.
  - intros (Hs & Hd & Hin). rewrite apply_Array, onFieldsOf_idle, bind_ret_l by done.
    destruct (firstArray keys m) as [[key l]|] eqn:Hk; [|reflexivity].
    rewrite forEachMap_idle, bind_ret_l by (intros; by apply IH).
    by rewrite insert_id by (by apply firstArray_Some in Hk).
Qed.

Lemma docSchema_idle (allowExtra emptyArrays : bool) (feedType : string) :
  idle (docSchema (mkOptions false false false false false allowExtra emptyArrays)
          feedType).
Proof.
  unfold docSchema, collection, ruleSchema.
  repeat match goal with
         | |- context [if ?b then _ else _] => destruct b
         end; cbn; repeat split.
Qed.

(** X3: with the five coercions off, [Coerce] decodes and encodes: the
    log is empty and nothing but the spelling of the numbers can differ
    from the input; the two remaining options play no part. *)
Theorem Coerce_strict_decodes_and_encodes (allowExtra emptyArrays : bool)
    (l : CoercionLog) (data : bytes) (feedType : string) :
  (Coerce (mkCoercer (mkOptions false false false false false allowExtra emptyArrays) l)
     data feedType).1
  = match UnmarshalMap data with
    | UErr => None
    | UNil => Some (mkResult (Text JNull) [])
    | UMap m => (fun b => mkResult b []) <$> Marshal (JObj m)
    end.
Proof.
  rewrite Coerce_walked. cbv zeta. cbn [opts].
  destruct (UnmarshalMap data) as [| |m]; [reflexivity| |];
    rewrite apply_idle by apply docSchema_idle; cbn [ret fst snd].
  - reflexivity.
  - by destruct (Marshal (JObj m)).
Qed.

(** X4: [AllowExtraFields] and [CoerceEmptyArrays] are never read: two
    coercers that agree on the five other options return the same. *)
Theorem Coerce_ignores_two_options (b t n co nu a1 e1 a2 e2 : bool)
    (l1 l2 : CoercionLog) (data : bytes) (feedType : string) :
  (Coerce (mkCoercer (mkOptions b t n co nu a1 e1) l1) data feedType).1
  = (Coerce (mkCoercer (mkOptions b t n co nu a2 e2) l2) data feedType).1.
Proof.
  rewrite !Coerce_walked. cbv zeta. cbn [opts].
  change (docSchema (mkOptions b t n co nu a2 e2) feedType)
    with (docSchema (mkOptions b t n co nu a1 e1) feedType).
  destruct (UnmarshalMap data); [reflexivity| |]; by destruct (Marshal _).
Qed.


(** *** Null members *)

Lemma rule_null (k : kind) : (ruleOf k JNull).2 = false.
Proof. by destruct k. Qed.

Lemma runSteps_keepsMembers path steps (m : gmap string value) :
  keepsMembers m (runSteps path steps m).1.
Proof.
  intros k. split; [apply runSteps_dom|].
  revert m. induction steps as [|[kd field] rest IH]; intros m Hk; [exact Hk|].
  rewrite runSteps_cons, bind_fst. apply IH.
  destruct (coerceField_cases (ruleOf kd) path field m)
    as [(v & w & Hv & Hr & ->)|[-> _]]; cbn [fst]; [|exact Hk].
  destruct (decide (field = k)) as [->|Hne]; [|by rewrite lookup_insert_ne].
  pose proof (eq_trans (eq_sym Hv) Hk) as Heq. injection Heq as ->.
  pose proof (rule_null kd) as Hn. rewrite Hr in Hn. discriminate.
Qed.

(** X5: the entry functions of station_information, of the vehicle
    documents, of vehicle_types and of the geofencing rules delete no
    member and add none, whatever the options: a null member stays
    null, also with [TreatNullAsAbsent]. *)
Theorem entries_keep_their_members o (i j : nat) (key path : string)
    (m : gmap string value) :
  keepsMembers m (coerceStationInformationEntry o i m).1
  /\ keepsMembers m (coerceVehicleEntry o key i m).1
  /\ keepsMembers m (coerceVehicleTypeEntry o i m).1
  /\ keepsMembers m (coerceRule o path j m).1.
Proof.
  rewrite coerceStationInformationEntry_steps, coerceVehicleEntry_steps,
    coerceVehicleTypeEntry_steps, coerceRule_steps.
  repeat split; apply runSteps_keepsMembers.
Qed.

Lemma docSchema_root o (feedType : string) :
  rootOf (docSchema o feedType) = commonFields o.
Proof.
  unfold docSchema, collection.
  repeat match goal with
         | |- context [if ?b then _ else _] => destruct b
         end; reflexivity.
Qed.

Lemma apply_root_null (s : schema) (m : gmap string value) (k : string) :
  (apply s m).1 !! k = Some JNull -> (onFieldsOf (rootOf s) m).1 !! k = Some JNull.
Proof.
  destruct s as [f|f key inner|f keys inner]; cbn [rootOf]; [done| |].
  - rewrite apply_Object, bind_fst.
    destruct ((onFieldsOf f m).1 !! key) as [[| | | | |o]|]; try done.
    rewrite bind_fst. cbn [ret fst].
    destruct (decide (key = k)) as [->|Hne];
      [by rewrite lookup_insert_eq|by rewrite lookup_insert_ne].
  - rewrite apply_Array, bind_fst.
    destruct (firstArray keys (onFieldsOf f m).1) as [[key l]|]; [|done].
    rewrite bind_fst. cbn [ret fst].
    destruct (decide (key = k)) as [->|Hne];
      [by rewrite lookup_insert_eq|by rewrite lookup_insert_ne].
Qed.

Lemma jmap_null_inv {A B : Type} (f : A -> B) (x : json A) :
  jmap f x = JNull -> x = JNull.
Proof. by destruct x. Qed.

(** What a successful call returned, in terms of the walk. *)
Lemma Coerce_Some (c : Coercer) (data : bytes) (feedType : string) (res : Result) :
  (Coerce c data feedType).1 = Some res ->
  (UnmarshalMap data = UNil /\ Data res = Text JNull)
  \/ exists m, UnmarshalMap data = UMap m
       /\ Data res = Text (JObj (jmap formatNum <$> (apply (docSchema (opts c) feedType) m).1))
       /\ Log res = (apply (docSchema (opts c) feedType) m).2.
Proof.
  rewrite Coerce_walked. cbv zeta.
  destruct (UnmarshalMap data) as [| |m]; [discriminate| |].
  - cbn. intros [= <-]. by left.
  - unfold Marshal. destruct (jall numEncodable _); [|discriminate].
    cbn. intros [= <-]. right. by exists m.
Qed.

(** X6: with [TreatNullAsAbsent], the document a successful [Coerce]
    returns has no null member at its top level, whatever its type. *)
Theorem Coerce_drops_top_level_nulls (c : Coercer) (data : bytes) (feedType : string)
    (res : Result) (top : gmap string wire) :
  TreatNullAsAbsent (opts c) = true ->
  (Coerce c data feedType).1 = Some res ->
  Data res = Text (JObj top) ->
  forall k, top !! k <> Some JNull.
Proof.
  intros Hnull Hres Htop k Hk.
  destruct (Coerce_Some c data feedType res Hres) as [[_ Hd]|(m & _ & Hd & _)];
    rewrite Hd in Htop; [discriminate|]. injection Htop as <-.
  apply lookup_jmap_inv in Hk as (v & Hv & Hjn). symmetry in Hjn.
  apply jmap_null_inv in Hjn. subst v.
  apply apply_root_null in Hv. rewrite docSchema_root, onFieldsOf_fst in Hv.
  cbn [commonFields dropNulls] in Hv. rewrite Hnull in Hv.
  by destruct (proj1 (deleteNulls_lookup _ _ _) Hv) as [_ Hn].
Qed.


Lemma stationField_Some_inv (top : gmap string wire) (i : nat) (field : string)
    (w : wire) :
  stationField (Text (JObj top)) i field = Some w ->
  exists d l st,
    top !! "data" = Some (JObj d) /\ d !! "stations" = Some (JArr l)
    /\ l !! i = Some (JObj st) /\ st !! field = Some w.
Proof.
  unfold stationField, wire in *.
  destruct (top !! "data") as [[| | | | |d]|] eqn:Hd; try discriminate.
  destruct (d !! "stations") as [[| | | |l|]|] eqn:Hl; try discriminate.
  destruct (l !! i) as [[| | | | |st]|] eqn:Hi; try discriminate.
  intros Hw. exists d, l, st. repeat split; assumption.
Qed.

Lemma forEachMap_lookup_inv body (l : list value) (i : nat) (m1 : gmap string value) :
  (forEachMap body 0 l).1 !! i = Some (JObj m1) ->
  exists e, l !! i = Some (JObj e) /\ m1 = (body i e).1.
Proof.
  rewrite forEachMap_closed. cbn [fst]. rewrite list_lookup_imap.
  destruct (l !! i) as [z|]; [|discriminate].
  destruct z as [| | | | |e]; try discriminate. intros [= <-]. by exists e.
Qed.

(** Every station object of a coerced station_status document comes out
    of the entry function. *)
Lemma station_status_entry_after o (m d1 st1 : gmap string value) (l1 : list value)
    (i : nat) :
  (apply (docSchema o "station_status") m).1 !! "data" = Some (JObj d1) ->
  d1 !! "stations" = Some (JArr l1) ->
  l1 !! i = Some (JObj st1) ->
  exists e, st1 = (coerceStationStatusEntry o i e).1.
Proof.
  change (docSchema o "station_status")
    with (Object (commonFields o) "data"
            (Array noFields ["stations"] (fun _ i =>
               Done (mkFields ("/data/stations/" +:+ pretty i) (stationStatusSteps o)
                       (TreatNullAsAbsent o))))).
  rewrite apply_Object, bind_fst.
  set (mA := (onFieldsOf (commonFields o) m).1).
  destruct (mA !! "data") as [x|] eqn:HA.
  2:{ intros Hd. pose proof (eq_trans (eq_sym HA) Hd). discriminate. }
  destruct x as [| | | | |d];
    try (intros Hd; pose proof (eq_trans (eq_sym HA) Hd); discriminate).
  rewrite bind_fst. cbn [ret fst]. rewrite lookup_insert_eq. intros [= <-].
  rewrite onFieldsOf_noFields, bind_ret_l. unfold value in *.
  destruct (d !! "stations") as [y|] eqn:Hs.
  2:{ cbn [ret fst]. intros Hd. pose proof (eq_trans (eq_sym Hs) Hd). discriminate. }
  destruct y as [| | | |l|];
    try (cbn [ret fst]; intros Hd; pose proof (eq_trans (eq_sym Hs) Hd); discriminate).
  rewrite bind_fst. cbn [ret fst]. rewrite lookup_insert_eq.
  intros [= <-] Hi.
  apply forEachMap_lookup_inv in Hi as (e & _ & ->).
  exists e. by rewrite coerceStationStatusEntry_steps.
Qed.

(** X7: with [TreatNullAsAbsent], no station of the station_status
    document a successful [Coerce] returns has a null member. *)
Theorem station_status_entries_have_no_null (c : Coercer) (data : bytes) (res : Result)
    (i : nat) (field : string) :
  TreatNullAsAbsent (opts c) = true ->
  (Coerce c data "station_status").1 = Some res ->
  stationField (Data res) i field <> Some JNull.
Proof.
  intros Hnull Hres Hf.
  destruct (Coerce_Some c data _ res Hres) as [[_ Hd]|(m & _ & Hd & _)];
    rewrite Hd in Hf; [discriminate|].
  apply stationField_Some_inv in Hf as (dw & lw & sw & Hdw & Hlw & Hsw & Hw).
  apply lookup_jmap_inv in Hdw as (x & Hx & Hdw). symmetry in Hdw.
  apply jmap_obj_inv in Hdw as (d1 & -> & ->).
  apply lookup_jmap_inv in Hlw as (y & Hy & Hlw). symmetry in Hlw.
  apply jmap_arr_inv in Hlw as (l1 & -> & ->).
  rewrite list_lookup_fmap, fmap_Some in Hsw. destruct Hsw as (z & Hz & Hsw).
  symmetry in Hsw. apply jmap_obj_inv in Hsw as (st1 & -> & ->).
  apply lookup_jmap_inv in Hw as (v & Hv & Hjn). symmetry in Hjn.
  apply jmap_null_inv in Hjn. subst v.
  destruct (station_status_entry_after _ _ _ _ _ _ Hx Hy Hz) as (e & ->).
  rewrite coerceStationStatusEntry_steps, bind_fst in Hv. cbn [ret fst] in Hv.
  rewrite Hnull in Hv.
  by destruct (proj1 (deleteNulls_lookup _ _ _) Hv) as [_ Hn].
Qed.

End CoercerLog.

Section StationStatusTheorems.
Context `{JSONDecoder}.

Import coerce validator.

(** X8: a station_status document whose station at index [i] has the
    string "1" as [is_installed] gets, from the structural validator run
    on it as it is, the Error "is_installed must be a boolean" at
    /data/stations/i/is_installed. *)
Theorem string_is_installed_rejected (top d st : gmap string wire) (sts : list wire)
    (i : nat) (ver : string) :
  jall finiteLiteral (JObj top) = true ->
  top !! "data" = Some (JObj d) ->
  d !! "stations" = Some (JArr sts) ->
  sts !! i = Some (JObj st) ->
  st !! "is_installed" = Some (JStr "1") ->
  issue SeverityError "is_installed must be a boolean" (stationFieldPath i "is_installed")
    ∈ validateFileStructure (Text (JObj top)) "station_status" ver.
Proof. apply station_status_string_rejected. Qed.

(** X9: with boolean coercion on, [Coerce] succeeds on that document,
    the station's [is_installed] is the boolean true in what it returns,
    the log has exactly one record for that field of that station (from
    the string "1" to true), and the structural validator run on the
    returned bytes has no "is_installed must be a boolean" issue at the
    station's path. *)
Theorem string_is_installed_coerced (c : Coercer) (top d st : gmap string wire)
    (sts : list wire) (i : nat) (ver : string) :
  jall finiteLiteral (JObj top) = true ->
  top !! "data" = Some (JObj d) ->
  d !! "stations" = Some (JArr sts) ->
  sts !! i = Some (JObj st) ->
  st !! "is_installed" = Some (JStr "1") ->
  CoerceBooleans (opts c) = true ->
  exists res,
    (Coerce c (Text (JObj top)) "station_status").1 = Some res
    /\ stationField (Data res) i "is_installed" = Some (JBool true)
    /\ filter (aboutInstalled i) (Log res)
       = [mkCoercion (stationPath i) "is_installed" "string" "bool"
            (JStr "1") (JBool true)]
    /\ Forall (fun e => ~ (ValidationError.Message e = "is_installed must be a boolean"
                          /\ ValidationError.InstancePath e
                             = stationFieldPath i "is_installed"))
         (validateFileStructure (Data res) "station_status" ver).
Proof.
  intros Hfin Hd Hsts Hi Hst Hb.
  destruct (Coerce_station_status_installed c top d st sts i Hfin Hd Hsts Hi Hst Hb)
    as (res & Hres & Hval & Hlog).
  exists res. repeat split; [exact Hres|exact Hval|exact Hlog|].
  by apply station_status_no_type_issue.
Qed.

End StationStatusTheorems.

Section ReferenceCoercions.
#[local] Existing Instance reference.runtime.
#[local] Existing Instance reference.decoder.

Import coerce validator.

Lemma string_is_installed_rejected_witness :
  issue SeverityError "is_installed must be a boolean" (stationFieldPath 0 "is_installed")
    ∈ validateFileStructure sample.stationStatus "station_status" "2.3".
Proof.
  apply (string_is_installed_rejected sample.stationTop sample.stationData
           sample.station [JObj sample.station] 0 "2.3"); reflexivity.
Defined.

Lemma string_is_installed_coerced_witness :
  exists res,
    (Coerce (coerce.New DefaultLenientOptions) sample.stationStatus "station_status").1 = Some res
    /\ stationField (Data res) 0 "is_installed" = Some (JBool true)
    /\ filter (aboutInstalled 0) (Log res)
       = [mkCoercion (stationPath 0) "is_installed" "string" "bool"
            (JStr "1") (JBool true)]
    /\ Forall (fun e => ~ (ValidationError.Message e = "is_installed must be a boolean"
                          /\ ValidationError.InstancePath e
                             = stationFieldPath 0 "is_installed"))
         (validateFileStructure (Data res) "station_status" "2.3").
Proof.
  apply (string_is_installed_coerced (coerce.New DefaultLenientOptions) sample.stationTop
           sample.stationData sample.station [JObj sample.station] 0 "2.3");
    reflexivity.
Defined.

Lemma Coerce_drops_top_level_nulls_witness :
  TreatNullAsAbsent sample.onlyNullAsAbsent = true
  /\ forall k, sample.withoutTopLevelNulls "stations" !! k <> Some JNull.
Proof.
  split; [reflexivity|].
  apply (Coerce_drops_top_level_nulls (coerce.New sample.onlyNullAsAbsent)
           (sample.withNulls "stations") "station_information"
           (mkResult (Text (JObj (sample.withoutTopLevelNulls "stations"))) []));
    reflexivity.
Defined.

Lemma station_status_entries_have_no_null_witness :
  (Coerce (coerce.New sample.onlyNullAsAbsent) (sample.withNulls "stations") "station_status").1
  = Some (mkResult (sample.withoutNulls "stations") [])
  /\ stationField (sample.withoutNulls "stations") 0 "capacity" <> Some JNull.
Proof.
  split; [reflexivity|].
  apply (station_status_entries_have_no_null (coerce.New sample.onlyNullAsAbsent)
           (sample.withNulls "stations")
           (mkResult (sample.withoutNulls "stations") []) 0 "capacity");
    reflexivity.
Defined.

End ReferenceCoercions.

(** ** The cross-reference passes, pass by pass *)

Section ReferencePasses.
Context `{JSONDecoder}.

Import validator.

Local Ltac open_record r :=
  destruct r;
  unfold recorded, recordError, FileValidationResult.setErrorsCount,
    FileValidationResult.setHasErrors, FileValidationResult.setErrors;
  cbn.

Lemma recorded_nil (r : FileValidationResult.t) : recorded [] r = r.
Proof.
  open_record r. rewrite app_nil_r, orb_false_r. f_equal. lia.
Qed.

Lemma recorded_one (e : ValidationError.t) (r : FileValidationResult.t) :
  recordError e r = recorded [e] r.
Proof. open_record r. by rewrite orb_true_r. Qed.

Lemma recorded_app (es1 es2 : list ValidationError.t) (r : FileValidationResult.t) :
  recorded es2 (recorded es1 r) = recorded (es1 ++ es2) r.
Proof.
  open_record r. rewrite length_app, <- app_assoc. f_equal.
  - destruct HasErrors, es1, es2; reflexivity.
  - lia.
Qed.

(** A loop whose body records the issues of each entry records them all,
    in order. *)
Lemma foldIndexed_recorded {A : Type}
    (check : nat -> A -> FileValidationResult.t -> FileValidationResult.t)
    (issues : nat -> A -> list ValidationError.t) (i0 : nat) (l : list A)
    (r : FileValidationResult.t) :
  (forall i x r, check i x r = recorded (issues i x) r) ->
  foldIndexed check i0 l r
  = recorded (concat (imap (fun j => issues (i0 + j)%nat) l)) r.
Proof.
  intros Hcheck. revert i0 r. induction l as [|x l IH]; intros i0 r.
  - by rewrite recorded_nil.
  - cbn [foldIndexed imap concat]. rewrite IH, Hcheck, recorded_app, Nat.add_0_r.
    do 3 f_equal. apply imap_ext. intros j y _. cbn. f_equal. lia.
Qed.

Lemma checkStationIDReference_recorded stationIDs i s r :
  checkStationIDReference stationIDs i s r = recorded (unknownStationIssue stationIDs i s) r.
Proof.
  unfold checkStationIDReference, unknownStationIssue.
  destruct (default false _); cbn [negb]; [by rewrite recorded_nil|apply recorded_one].
Qed.

Lemma checkPricingPlanReference_recorded pricingPlans i t r :
  checkPricingPlanReference pricingPlans i t r = recorded (unknownPlanIssue pricingPlans i t) r.
Proof.
  unfold checkPricingPlanReference, unknownPlanIssue.
  destruct (_ && _); [apply recorded_one|by rewrite recorded_nil].
Qed.

(** X10: when station_status.json was fetched and decodes,
    [validateStationIDReferences] does nothing if no station identifier
    was extracted from station_information.json; otherwise it records on
    the result of station_status.json, in entry order, one Error at
    /data/stations/i/station_id for each entry whose station_id (empty
    or not) is not an extracted identifier, and nothing else changes. *)
Theorem station_id_references (results : gmap string FileValidationResult.t)
    (stationIDs : gmap string bool) (ver : string) (r : FileValidationResult.t)
    (raw : bytes) (sts : list gbfs.StationStatusEntry.t) :
  results !! "station_status" = Some r ->
  FileValidationResult.Exists r = true ->
  FileValidationResult.RawData r = Some raw ->
  decodeStationStatus raw = Some sts ->
  validateStationIDReferences results stationIDs ver
  = if (size stationIDs =? 0)%nat then results
    else <["station_status" :=
             recorded (concat (imap (unknownStationIssue stationIDs) sts)) r]> results.
Proof.
  intros Hr He Hraw Hdec. unfold validateStationIDReferences, rawOf.
  rewrite Hr, He, Hraw, Hdec.
  destruct (size stationIDs =? 0)%nat; [reflexivity|].
  by rewrite (foldIndexed_recorded _ (unknownStationIssue stationIDs))
    by apply checkStationIDReference_recorded.
Qed.

(** X11: when vehicle_types.json was fetched and decodes,
    [validatePricingPlanReferences] does nothing if no plan was extracted
    from system_pricing_plans.json; otherwise it records on the result of
    vehicle_types.json, in entry order, one Error at
    /data/vehicle_types/i/default_pricing_plan_id for each vehicle type
    whose default_pricing_plan_id is set and is not an extracted plan,
    and nothing else changes. *)
Theorem pricing_plan_references (results : gmap string FileValidationResult.t)
    (pricingPlans : gmap string gbfs.PricingPlan.t) (ver : string)
    (r : FileValidationResult.t) (raw : bytes) (vts : list gbfs.VehicleType.t) :
  results !! "vehicle_types" = Some r ->
  FileValidationResult.Exists r = true ->
  FileValidationResult.RawData r = Some raw ->
  decodeVehicleTypes raw = Some vts ->
  validatePricingPlanReferences results pricingPlans ver
  = if (size pricingPlans =? 0)%nat then results
    else <["vehicle_types" :=
             recorded (concat (imap (unknownPlanIssue pricingPlans) vts)) r]> results.
Proof.
  intros Hr He Hraw Hdec. unfold validatePricingPlanReferences, rawOf.
  rewrite Hr, He, Hraw, Hdec.
  destruct (size pricingPlans =? 0)%nat; [reflexivity|].
  by rewrite (foldIndexed_recorded _ (unknownPlanIssue pricingPlans))
    by apply checkPricingPlanReference_recorded.
Qed.

(** X12: cross-validation writes at most four results: the one of the
    availability document, of vehicle_types, of station_status and of
    system_pricing_plans.  Every other result (system_information,
    station_information, ...) is as it was, present or absent. *)
Theorem crossValidate_writes_four_results
    (results : gmap string FileValidationResult.t) (ver k : string) :
  k ∉ crossValidated ver ->
  crossValidate results ver !! k = results !! k.
Proof.
  unfold crossValidated. rewrite !not_elem_of_cons.
  intros (Hfile & Hvt & Hss & Hpp & _). unfold crossValidate.
  rewrite checkConditionalPricingPlans_other by exact Hpp.
  rewrite checkConditionalVehicleTypes_other by exact Hvt.
  rewrite validateStationIDReferences_other by exact Hss.
  rewrite validatePricingPlanReferences_other by exact Hvt.
  by rewrite validateVehicleTypeReferences_other by exact Hfile.
Qed.

(** The reference pass over the availability document leaves its body
    as it was. *)
Lemma checkVehicleTypeReference_body vehicleTypes i vehicle r :
  FileValidationResult.Exists (checkVehicleTypeReference vehicleTypes i vehicle r)
  = FileValidationResult.Exists r
  /\ FileValidationResult.RawData (checkVehicleTypeReference vehicleTypes i vehicle r)
     = FileValidationResult.RawData r.
Proof.
  unfold checkVehicleTypeReference.
  repeat match goal with
         | |- context [match ?o with Some _ => _ | None => _ end] => destruct o
         | |- context [if ?b then _ else _] => destruct b
         end; by destruct r.
Qed.

Lemma foldIndexed_body vehicleTypes i0 vs r :
  FileValidationResult.Exists (foldIndexed (checkVehicleTypeReference vehicleTypes) i0 vs r)
  = FileValidationResult.Exists r
  /\ FileValidationResult.RawData (foldIndexed (checkVehicleTypeReference vehicleTypes) i0 vs r)
     = FileValidationResult.RawData r.
Proof.
  revert i0 r. induction vs as [|v vs IH]; intros i0 r; [done|].
  cbn [foldIndexed]. destruct (IH (S i0) (checkVehicleTypeReference vehicleTypes i0 v r)) as [-> ->].
  apply checkVehicleTypeReference_body.
Qed.

Lemma rawOf_validateVehicleTypeReferences results vehicleTypes ver :
  rawOf (validateVehicleTypeReferences results vehicleTypes ver)
    (version.GetVehicleStatusFileName ver)
  = rawOf results (version.GetVehicleStatusFileName ver).
Proof.
  unfold validateVehicleTypeReferences.
  destruct (results !! version.GetVehicleStatusFileName ver) as [r|] eqn:Hr; [|reflexivity].
  destruct (rawOf results _) as [raw|] eqn:Hraw; [|exact Hraw].
  destruct (size vehicleTypes =? 0)%nat; [exact Hraw|].
  destruct (decodeVehicleStatus raw) as [vs|]; [|exact Hraw].
  unfold rawOf in *. rewrite lookup_insert_eq, Hr in *.
  by destruct (foldIndexed_body vehicleTypes 0 (gbfs.GetVehicles vs) r) as [-> ->].
Qed.

Lemma rawOf_other (results results' : gmap string FileValidationResult.t) (k : string) :
  results' !! k = results !! k -> rawOf results' k = rawOf results k.
Proof. unfold rawOf. by intros ->. Qed.

(** The conditional checks see the availability document the reference
    passes saw. *)
Lemma rawOf_references results ver :
  let fileName := version.GetVehicleStatusFileName ver in
  rawOf (validateStationIDReferences
           (validatePricingPlanReferences
              (validateVehicleTypeReferences results (extractVehicleTypes results) ver)
              (extractPricingPlans results) ver)
           (extractStationIDs results) ver) fileName
  = rawOf results fileName.
Proof.
  intros fileName.
  assert (fileName <> "vehicle_types" /\ fileName <> "station_status") as [Hvt Hss]
    by (destruct (fileName_cases ver) as [E|E]; subst fileName; rewrite E; done).
  rewrite (rawOf_other _ _ _ (validateStationIDReferences_other _ _ _ _ Hss)).
  rewrite (rawOf_other _ _ _ (validatePricingPlanReferences_other _ _ _ _ Hvt)).
  apply rawOf_validateVehicleTypeReferences.
Qed.

Lemma escalate_lookup results (name msg : string) :
  exists r, escalate results name msg !! name = Some r
    /\ (FileValidationResult.Exists r = true
        \/ (FileValidationResult.Required r = true
            /\ FileValidationResult.HasErrors r = true
            /\ issue SeverityError msg "" ∈ FileValidationResult.Errors r)).
Proof.
  unfold escalate. destruct (results !! name) as [r|] eqn:Hr.
  - destruct (FileValidationResult.Exists r) eqn:He.
    + exists r. by split; [|left].
    + eexists. split; [apply lookup_insert_eq|]. right. destruct r. cbn.
      split; [done|]. split; [done|]. apply elem_of_app. right. apply list_elem_of_here.
  - eexists. split; [apply lookup_insert_eq|]. right. cbn.
    split; [done|]. split; [done|]. apply list_elem_of_here.
Qed.

Lemma existsb_elem {A : Type} (p : A -> bool) (l : list A) (x : A) :
  x ∈ l -> p x = true -> existsb p l = true.
Proof. intros Hx Hp. apply existsb_exists. exists x. by rewrite <- list_elem_of_In. Qed.

(** X13: if the availability document (vehicle_status or
    free_bike_status, by version) was fetched, decodes, and one of its
    vehicles has a vehicle_type_id, then after cross-validation there is
    a result for vehicle_types: either the document exists, or the result
    is marked required, has errors, and carries the Error
    "vehicle_types.json is required when vehicle_type_id is used in
    <file>.json" -- also when the version's table never listed
    vehicle_types. *)
Theorem used_vehicle_types_are_required
    (results : gmap string FileValidationResult.t) (ver : string)
    (r : FileValidationResult.t) (raw : bytes) (vs : gbfs.VehicleStatusData.t)
    (vehicle : gbfs.Vehicle.t) :
  let fileName := version.GetVehicleStatusFileName ver in
  results !! fileName = Some r ->
  FileValidationResult.Exists r = true ->
  FileValidationResult.RawData r = Some raw ->
  decodeVehicleStatus raw = Some vs ->
  vehicle ∈ gbfs.GetVehicles vs ->
  gbfs.Vehicle.VehicleTypeID vehicle <> "" ->
  exists vt,
    crossValidate results ver !! "vehicle_types" = Some vt
    /\ (FileValidationResult.Exists vt = true
        \/ (FileValidationResult.Required vt = true
            /\ FileValidationResult.HasErrors vt = true
            /\ issue SeverityError
                 ("vehicle_types.json is required when vehicle_type_id is used in "
                  +:+ fileName +:+ ".json") ""
               ∈ FileValidationResult.Errors vt)).
Proof.
  intros fileName Hr He Hraw Hdec Hin Hid. unfold crossValidate.
  rewrite checkConditionalPricingPlans_other by done.
  unfold checkConditionalVehicleTypes. rewrite rawOf_references.
  unfold rawOf. fold fileName. rewrite Hr, He, Hraw, Hdec.
  rewrite (existsb_elem _ _ vehicle Hin); [apply escalate_lookup|].
  apply negb_true_iff, String.eqb_neq, Hid.
Qed.

(** X14: if the availability document was fetched, decodes, and one of
    its vehicles has a pricing_plan_id, then after cross-validation there
    is a result for system_pricing_plans: either the document exists, or
    the result is marked required, has errors, and carries the Error
    "system_pricing_plans.json is required when pricing_plan_id is used
    in <file>.json". *)
Theorem used_pricing_plans_are_required
    (results : gmap string FileValidationResult.t) (ver : string)
    (r : FileValidationResult.t) (raw : bytes) (vs : gbfs.VehicleStatusData.t)
    (vehicle : gbfs.Vehicle.t) :
  let fileName := version.GetVehicleStatusFileName ver in
  results !! fileName = Some r ->
  FileValidationResult.Exists r = true ->
  FileValidationResult.RawData r = Some raw ->
  decodeVehicleStatus raw = Some vs ->
  vehicle ∈ gbfs.GetVehicles vs ->
  gbfs.Vehicle.PricingPlanID vehicle <> "" ->
  exists pp,
    crossValidate results ver !! "system_pricing_plans" = Some pp
    /\ (FileValidationResult.Exists pp = true
        \/ (FileValidationResult.Required pp = true
            /\ FileValidationResult.HasErrors pp = true
            /\ issue SeverityError
                 ("system_pricing_plans.json is required when pricing_plan_id is used in "
                  +:+ fileName +:+ ".json") ""
               ∈ FileValidationResult.Errors pp)).
Proof.
  intros fileName Hr He Hraw Hdec Hin Hid. unfold crossValidate.
  assert (fileName <> "vehicle_types") as Hvt
    by (destruct (fileName_cases ver) as [E|E]; subst fileName; rewrite E; done).
  unfold checkConditionalPricingPlans.
  rewrite (rawOf_other _ _ _ (checkConditionalVehicleTypes_other _ _ _ Hvt)).
  rewrite rawOf_references.
  unfold rawOf. fold fileName. rewrite Hr, He, Hraw, Hdec.
  rewrite (existsb_elem _ _ vehicle Hin); [apply escalate_lookup|].
  apply negb_true_iff, String.eqb_neq, Hid.
Qed.

End ReferencePasses.

Section ReferencePassRuns.
#[local] Existing Instance reference.runtime.
#[local] Existing Instance reference.decoder.

Import validator.

Lemma station_id_references_witness :
  validateStationIDReferences crossSample.stationResults crossSample.knownStations "2.3"
  = <["station_status" :=
        recorded [issue SeverityError "station_id 's1' not found in station_information.json"
                    "/data/stations/0/station_id"]
          crossSample.stationResult]> crossSample.stationResults.
Proof.
  apply (station_id_references crossSample.stationResults crossSample.knownStations "2.3"
           crossSample.stationResult sample.stationStatusCoerced
           [gbfs.StationStatusEntry.mk "s1"]); reflexivity.
Defined.

Lemma pricing_plan_references_witness :
  validatePricingPlanReferences crossSample.typesResults crossSample.knownPlans "3.0"
  = <["vehicle_types" :=
        recorded [issue SeverityError
                    "default_pricing_plan_id 'gold' not found in system_pricing_plans.json"
                    "/data/vehicle_types/0/default_pricing_plan_id"]
          crossSample.typesResult]> crossSample.typesResults.
Proof.
  apply (pricing_plan_references crossSample.typesResults crossSample.knownPlans "3.0"
           crossSample.typesResult crossSample.goldTypes [crossSample.goldType]);
    reflexivity.
Defined.

Lemma crossValidate_writes_four_results_witness :
  crossValidate example.resultsWithTypes "3.0" !! "system_information"
  = example.resultsWithTypes !! "system_information".
Proof.
  apply (crossValidate_writes_four_results example.resultsWithTypes "3.0"
           "system_information").
  unfold crossValidated. rewrite !not_elem_of_cons.
  repeat split; try discriminate. apply not_elem_of_nil.
Defined.

Lemma used_vehicle_types_are_required_witness :
  exists vt,
    crossValidate example.resultsWithoutTypes "3.0" !! "vehicle_types" = Some vt
    /\ (FileValidationResult.Exists vt = true
        \/ (FileValidationResult.Required vt = true
            /\ FileValidationResult.HasErrors vt = true
            /\ issue SeverityError
                 "vehicle_types.json is required when vehicle_type_id is used in vehicle_status.json"
                 ""
               ∈ FileValidationResult.Errors vt)).
Proof.
  apply (used_vehicle_types_are_required example.resultsWithoutTypes "3.0"
           (example.fetched "vehicle_status" example.vehicleStatusURL example.vehicleStatus)
           example.vehicleStatus example.ghostFleet example.ghostVehicle);
    try reflexivity; [apply list_elem_of_here|discriminate].
Defined.

Lemma used_pricing_plans_are_required_witness :
  exists pp,
    crossValidate crossSample.pricedResults "3.0" !! "system_pricing_plans" = Some pp
    /\ (FileValidationResult.Exists pp = true
        \/ (FileValidationResult.Required pp = true
            /\ FileValidationResult.HasErrors pp = true
            /\ issue SeverityError
                 "system_pricing_plans.json is required when pricing_plan_id is used in vehicle_status.json"
                 ""
               ∈ FileValidationResult.Errors pp)).
Proof.
  apply (used_pricing_plans_are_required crossSample.pricedResults "3.0"
           crossSample.pricedResult crossSample.pricedStatus
           (gbfs.VehicleStatusData.mk [crossSample.pricedVehicle] [])
           crossSample.pricedVehicle);
    try reflexivity; [apply list_elem_of_here|discriminate].
Defined.

End ReferencePassRuns.

(** ** The version policy, beyond the table lookup *)

Section VersionPolicy.

Import version.

Local Ltac listed := cbn; repeat first [apply list_elem_of_here | apply list_elem_of_further].
Local Ltac not_listed H :=
  cbn in H; repeat (apply elem_of_cons in H as [H|H]; [discriminate H|]);
  by apply elem_of_nil in H.

Lemma Configs_None (v : string) : Configs !! v = None <-> v ∉ SupportedVersions.
Proof.
  split; [|apply Configs_unknown].
  unfold Configs. rewrite <- Configs_keys. apply not_elem_of_list_to_map_2.
Qed.

Lemma Configs_Some (v : string) (cfg : Config) :
  Configs !! v = Some cfg -> v ∈ SupportedVersions.
Proof.
  intros Hv. destruct (decide (v ∈ SupportedVersions)) as [|Hn]; [done|].
  apply Configs_None in Hn. congruence.
Qed.

(** X15: the two hard-coded lists agree.  [GetConfig] finds an entry
    exactly for the versions [SupportedVersions] lists; the entry found
    carries the version asked for and a requirements function, and for
    any other string the zero [Config] is returned with [false]. *)
Theorem GetConfig_finds_supported_versions (v : string) :
  ((GetConfig v).2 = true <-> v ∈ SupportedVersions)
  /\ (if (GetConfig v).2
      then Version (GetConfig v).1 = v /\ Files (GetConfig v).1 <> None
      else (GetConfig v).1 = zeroConfig).
Proof.
  unfold GetConfig. destruct (Configs !! v) as [cfg|] eqn:Hv; cbn.
  - split; [split; [intros _; by eapply Configs_Some|done]|].
    apply Configs_known in Hv. unfold configEntries in Hv.
    repeat (apply elem_of_cons in Hv as [Hv|Hv]; [by injection Hv as -> ->|]).
    by apply elem_of_nil in Hv.
  - split; [|done]. split; [done|]. intros Hin. by apply Configs_None in Hv.
Qed.

(** X16: gbfs.json is optional for the versions 1.0 and 1.1 only: for
    the six later supported versions and for every string that is not a
    supported version, [IsGBFSRequired] answers true. *)
Theorem IsGBFSRequired_except_1_0_and_1_1 (v : string) :
  IsGBFSRequired v = false <-> v = "1.0" \/ v = "1.1".
Proof.
  unfold IsGBFSRequired. split.
  - destruct (Configs !! v) as [cfg|] eqn:Hv; [|done].
    apply Configs_known in Hv. unfold configEntries in Hv.
    repeat (apply elem_of_cons in Hv as [Hv|Hv];
            [injection Hv as -> ->; cbn; intros; auto; discriminate|]).
    by apply elem_of_nil in Hv.
  - by intros [->| ->].
Qed.

(** X17: the document name cross-validation uses for vehicle
    availability ([GetVehicleStatusFileName]) is among the requirements
    of a version exactly when the version is supported or is one
    [IsV3OrLater] accepts; it is then required exactly when the
    free-floating flag is set.  For any other version string (such as
    "2.4" or "4.0") the requirements are those of 3.0, which list
    vehicle_status, while the name used is free_bike_status. *)
Theorem availability_document_listed (v : string) (opts : Options) :
  exists reqs,
    GetFileRequirements v opts = Ret reqs
    /\ (GetVehicleStatusFileName v ∈ File <$> reqs
        <-> v ∈ SupportedVersions \/ IsV3OrLater v = true)
    /\ Forall (fun r => File r = GetVehicleStatusFileName v ->
                        Required r = Freefloating opts) reqs.
Proof.
  unfold GetFileRequirements. destruct (Configs !! v) as [cfg|] eqn:Hv.
  - pose proof (Configs_Some _ _ Hv) as Hs.
    apply Configs_known in Hv. unfold configEntries in Hv.
    repeat (apply elem_of_cons in Hv as [Hv|Hv];
            [injection Hv as -> ->; eexists; split; [reflexivity|]; split;
             [split; [by left|intros _; listed]
             |repeat constructor; cbn; done]|]).
    by apply elem_of_nil in Hv.
  - apply Configs_None in Hv. eexists. split; [reflexivity|].
    unfold GetVehicleStatusFileName. destruct (IsV3OrLater v); cbn.
    + split; [split; [by right|intros _; listed]|repeat constructor; cbn; done].
    + split; [split; [intros Hin; exfalso; not_listed Hin|intros [?|?]; done]
             |repeat constructor; cbn; done].
Qed.

End VersionPolicy.

(** ** The per-document pass *)

Section DocumentPass.
Context `{JSONDecoder} `{fetcher.Network}.

Import validator.

Lemma counted_new (file : string) (required : bool) :
  counted (FileValidationResult.new file required).
Proof. by split. Qed.

Lemma counted_failWith e r : counted (failWith e r).
Proof. by split. Qed.

Lemma counted_withSchemaErrors es r : counted r -> counted (withSchemaErrors es r).
Proof.
  intros Hr. unfold withSchemaErrors. destruct es as [|e es]; [exact Hr|]. by split.
Qed.

(** One goroutine: the file name, the requirement flag, the count and the
    trace. *)
Lemma validateFile_result (v : Validator) feedURLs ver req tr :
  let r := (validateFile v feedURLs ver req tr).1 in
  FileValidationResult.File r = version.File req +:+ ".json"
  /\ FileValidationResult.Required r = version.Required req
  /\ counted r.
Proof.
  unfold validateFile. destruct (feedURLs !! version.File req) as [url|]; cbn.
  - unfold bind, fetch.
    destruct (isSome _ || negb _).
    + destruct (version.Required req) eqn:Hreq; cbn; rewrite ?Hreq; by repeat split.
    + destruct (coercer v) as [c|]; [destruct (coerce.Coerce c _ _).1 as [res|]|]; cbn;
        (split; [|split; [|apply counted_withSchemaErrors; by split]]);
        unfold withSchemaErrors; by destruct (0 <? _)%nat.
  - destruct (version.Required req) eqn:Hreq; cbn; rewrite ?Hreq; by repeat split.
Qed.

Lemma validateFilesFrom_Forall (P : string -> FileValidationResult.t -> Prop)
    (v : Validator) feedURLs ver reqs results tr :
  (forall req tr, req ∈ reqs -> P (version.File req) (validateFile v feedURLs ver req tr).1) ->
  map_Forall P results ->
  map_Forall P (validateFilesFrom v feedURLs ver reqs results tr).1.
Proof.
  revert results tr. induction reqs as [|req rest IH]; intros results tr Hreq Hres;
    [exact Hres|].
  cbn [validateFilesFrom]. unfold bind.
  destruct (validateFile v feedURLs ver req tr) as [r tr1] eqn:Hr.
  apply IH.
  - intros req2 tr2 Hin. apply Hreq. by apply list_elem_of_further.
  - apply map_Forall_insert_2; [|exact Hres].
    replace r with (validateFile v feedURLs ver req tr).1 by by rewrite Hr.
    apply Hreq, list_elem_of_here.
Qed.

Lemma validateFilesFrom_dom (v : Validator) feedURLs ver reqs results tr (k : string) :
  is_Some ((validateFilesFrom v feedURLs ver reqs results tr).1 !! k)
  <-> k ∈ version.File <$> reqs \/ is_Some (results !! k).
Proof.
  revert results tr. induction reqs as [|req rest IH]; intros results tr.
  - cbn [validateFilesFrom]. unfold ret. cbn [fst]. rewrite fmap_nil, elem_of_nil. tauto.
  - cbn [validateFilesFrom]. unfold bind.
    destruct (validateFile v feedURLs ver req tr) as [r tr1].
    rewrite IH, fmap_cons, elem_of_cons, lookup_insert_is_Some. 
    destruct (decide (version.File req = k)); intuition congruence.
Qed.

(** X18: [validateFiles] returns one result per requirement name and no
    other; each result is named <name>.json, and its ErrorsCount is the
    length of its list of issues and its HasErrors flag says whether the
    list is non-empty -- so a document whose only issue is the Warning
    "ttl is recommended" has HasErrors set and counts one error. *)
Theorem validateFiles_counts_every_issue (v : Validator) (feedURLs : gmap string string)
    (requirements : list version.FileRequirement) (ver : string) (tr : list string) :
  let results := (validateFiles v feedURLs requirements ver tr).1 in
  (forall name, is_Some (results !! name) <-> name ∈ version.File <$> requirements)
  /\ map_Forall (fun name r =>
       FileValidationResult.File r = name +:+ ".json" /\ counted r) results.
Proof.
  unfold validateFiles. split.
  - intros name. rewrite validateFilesFrom_dom, lookup_empty, is_Some_alt. tauto.
  - apply validateFilesFrom_Forall; [|apply map_Forall_empty].
    intros req tr2 _. destruct (validateFile_result v feedURLs ver req tr2) as (Hf & _ & Hc).
    by split.
Qed.

(** X19: the version plays no part in the structure checks: for the
    same requirements the per-document results and the requests are the
    same under any two version strings. *)
Theorem structure_checks_ignore_version (v : Validator) (feedURLs : gmap string string)
    (requirements : list version.FileRequirement) (ver1 ver2 : string) (tr : list string) :
  validateFiles v feedURLs requirements ver1 tr
  = validateFiles v feedURLs requirements ver2 tr.
Proof.
  assert (Hfile : forall data feedType,
            validateFileStructure data feedType ver1
            = validateFileStructure data feedType ver2) by reflexivity.
  unfold validateFiles. generalize (∅ : gmap string FileValidationResult.t).
  revert tr. induction requirements as [|req rest IH]; intros tr results; [reflexivity|].
  cbn [validateFilesFrom]. unfold bind.
  replace (validateFile v feedURLs ver2 req tr) with (validateFile v feedURLs ver1 req tr).
  - destruct (validateFile v feedURLs ver1 req tr) as [r tr1]. apply IH.
  - unfold validateFile. destruct (feedURLs !! version.File req); [|reflexivity].
    unfold bind. destruct (fetch _ tr) as [fr tr1].
    destruct (isSome _ || negb _); [reflexivity|].
    by destruct (coercer v) as [c|]; [destruct (coerce.Coerce c _ _).1 as [res|]|];
      rewrite Hfile.
Qed.

(** X20: a validator built without lenient mode has no coercer, and
    none of its per-document results carries coerced data or a coercion
    count. *)
Theorem strict_validator_never_coerces (o : Options.t)
    (feedURLs : gmap string string) (requirements : list version.FileRequirement)
    (ver : string) (tr : list string) :
  Options.LenientMode o = false ->
  coercer (New o) = None
  /\ map_Forall (fun _ r =>
        FileValidationResult.CoercedData r = None
        /\ FileValidationResult.CoercionCount r = 0)
       (validateFiles (New o) feedURLs requirements ver tr).1.
Proof.
  intros Hstrict. assert (Hc : coercer (New o) = None) by (unfold New; by rewrite Hstrict).
  split; [exact Hc|]. unfold validateFiles.
  apply validateFilesFrom_Forall; [|apply map_Forall_empty].
  intros req tr2 _. unfold validateFile. rewrite Hc.
  destruct (feedURLs !! version.File req) as [url|]; cbn.
  - unfold bind, fetch. destruct (isSome _ || negb _).
    + by destruct (version.Required req).
    + unfold withSchemaErrors. by destruct (0 <? _)%nat.
  - by destruct (version.Required req).
Qed.

End DocumentPass.

(** ** Package fetcher *)

Section Suffixes.

Lemma substring_skip (a b : string) (n k : nat) :
  String.substring (String.length a + n) k (a +:+ b) = String.substring n k b.
Proof. induction a as [|c a IH]; [reflexivity|exact IH]. Qed.

Lemma substring_all (s : string) : String.substring 0 (String.length s) s = s.
Proof. induction s as [|c s IH]; [reflexivity|]. simpl. by f_equal. Qed.

Lemma substring_prefix (a b : string) :
  String.substring 0 (String.length a) (a +:+ b) = a.
Proof.
  induction a as [|c a IH]; [by destruct b|]. simpl. by f_equal.
Qed.

Lemma append_assoc (a b c : string) : (a +:+ b) +:+ c = a +:+ b +:+ c.
Proof.
  induction a as [|x a IH]; [reflexivity|].
  change (String x ((a +:+ b) +:+ c) = String x (a +:+ b +:+ c)). by rewrite IH.
Qed.

Lemma HasSuffix_append (a b : string) : HasSuffix (a +:+ b) b = true.
Proof.
  unfold HasSuffix. rewrite append_length.
  replace (String.length a + String.length b - String.length b)%nat
    with (String.length a + 0)%nat by lia.
  rewrite substring_skip, substring_all, String.eqb_refl.
  apply andb_true_iff. split; [|reflexivity]. apply Nat.leb_le. lia.
Qed.

(** A suffix no longer than [b] is looked for in [b] alone. *)
Lemma HasSuffix_append_short (a b c : string) :
  (String.length c <= String.length b)%nat ->
  HasSuffix (a +:+ b) c = HasSuffix b c.
Proof.
  intros Hc. unfold HasSuffix. rewrite append_length.
  replace (String.length a + String.length b - String.length c)%nat
    with (String.length a + (String.length b - String.length c))%nat by lia.
  rewrite substring_skip. f_equal.
  apply eq_true_iff_eq. rewrite !Nat.leb_le. lia.
Qed.

Lemma TrimSuffix_append (a b : string) : TrimSuffix (a +:+ b) b = a.
Proof.
  unfold TrimSuffix. rewrite HasSuffix_append, append_length.
  replace (String.length a + String.length b - String.length b)%nat
    with (String.length a) by lia.
  apply substring_prefix.
Qed.

End Suffixes.

Section Fetcher.
Context `{fetcher.Network}.

Import fetcher.

(** X21: a [FetchResult] is of exactly one of three kinds.  Fetched:
    Exists is set, the status is 200, there is a body and no error.  Not
    found: the status is 404 and there is neither a body nor an error.
    Failed: there is an error, no body, and the status is not 404.  In
    every case the result carries the URL asked for, and Exists is never
    set together with an error. *)
Theorem Fetch_outcomes (targetURL : string) :
  let r := Fetch targetURL in
  URL r = targetURL
  /\ ((Exists r = true /\ StatusCode r = 200 /\ Error r = None /\ Body r <> None)
      \/ (Exists r = false /\ StatusCode r = 404 /\ Error r = None /\ Body r = None)
      \/ (Exists r = false /\ StatusCode r <> 404 /\ Error r <> None /\ Body r = None)).
Proof.
  unfold Fetch. destruct (roundTrip targetURL) as [err|err|err|status body readErr]; cbn;
    try (split; [reflexivity|]; right; right; by repeat split).
  destruct (status =? 404) eqn:H404; cbn.
  - apply Z.eqb_eq in H404. split; [reflexivity|]. right. left. by repeat split.
  - apply Z.eqb_neq in H404. destruct (status =? 200) eqn:H200; cbn.
    + apply Z.eqb_eq in H200. destruct body as [b|]; cbn.
      * split; [reflexivity|]. left. by repeat split.
      * split; [reflexivity|]. right. right. by repeat split.
    + split; [reflexivity|]. right. right. by repeat split.
Qed.

End Fetcher.

Section FeedURLs.

Import fetcher.

Lemma BuildFeedURL_split (baseURL : string) :
  exists dir, forall feedName, BuildFeedURL baseURL feedName = dir +:+ feedName +:+ ".json".
Proof.
  unfold BuildFeedURL. destruct (HasSuffix baseURL "/").
  - by exists baseURL.
  - destruct (HasSuffix baseURL "gbfs.json").
    + by exists (TrimSuffix baseURL "gbfs.json").
    + exists (baseURL +:+ "/"). intros feedName. by rewrite append_assoc.
Qed.

(** X22: every URL [BuildFeedURL] builds ends in <feedName>.json, and
    building from the manifest URL it built gives the same URL as
    building from the base directly: BuildFeedURL (BuildFeedURL base
    "gbfs") name = BuildFeedURL base name, for every base and name. *)
Theorem BuildFeedURL_beside_manifest (baseURL feedName : string) :
  HasSuffix (BuildFeedURL baseURL feedName) (feedName +:+ ".json") = true
  /\ BuildFeedURL (BuildFeedURL baseURL "gbfs") feedName = BuildFeedURL baseURL feedName.
Proof.
  destruct (BuildFeedURL_split baseURL) as [dir Hdir]. rewrite !Hdir. split.
  - apply HasSuffix_append.
  - change ("gbfs" +:+ ".json") with "gbfs.json". unfold BuildFeedURL.
    rewrite (HasSuffix_append_short dir "gbfs.json" "/") by (cbn; lia).
    change (HasSuffix "gbfs.json" "/") with false. cbv iota.
    by rewrite HasSuffix_append, TrimSuffix_append.
Qed.

End FeedURLs.

(** ** The manifest *)

Section Manifest.
Context `{JSONDecoder} `{fetcher.Network}.

Import validator.

Lemma concat_imap_nil {A B : Type} (f : nat -> A -> list B) (l : list A) :
  concat (imap f l) = [] <-> forall i x, l !! i = Some x -> f i x = [].
Proof.
  revert f. induction l as [|y l IH]; intros f.
  - split; [intros _ i x Hi; by rewrite lookup_nil in Hi|reflexivity].
  - cbn [imap concat]. rewrite app_nil, IH. split.
    + intros [Hy Hl] [|i] x Hi; [by injection Hi as <-|exact (Hl i x Hi)].
    + intros Hall. split; [exact (Hall 0%nat y eq_refl)|].
      intros i x Hi. exact (Hall (S i) x Hi).
Qed.

Lemma Forall_concat_imap_issue {A : Type} (P : ValidationError.t -> Prop)
    (f : nat -> A -> list ValidationError.t) (l : list A) :
  (forall i x, Forall P (f i x)) -> Forall P (concat (imap f l)).
Proof.
  intros Hf. revert f Hf. induction l as [|y l IH]; intros f Hf; [constructor|].
  cbn [imap concat]. apply Forall_app. split; [apply Hf|]. apply IH. intros i x. apply Hf.
Qed.

(** X23: [validateGBFSStructure] reports nothing exactly when the ttl
    is not negative, the list of feeds is not empty, and every feed has
    a name and a url; and whatever it reports is an Error. *)
Theorem manifest_structure_clean_iff (feed : gbfs.GBFSFeed.t) :
  (validateGBFSStructure feed = []
   <-> 0 <= gbfs.GBFSFeed.TTL feed
       /\ gbfs.GBFSFeed.Feeds feed <> []
       /\ Forall (fun f => gbfs.FeedInfo.Name f <> "" /\ gbfs.FeedInfo.URL f <> "")
            (gbfs.GBFSFeed.Feeds feed))
  /\ Forall (fun e => ValidationError.Severity e = SeverityError)
       (validateGBFSStructure feed).
Proof.
  unfold validateGBFSStructure. split.
  - rewrite !app_nil, concat_imap_nil, Forall_lookup.
    assert (Httl : (if gbfs.GBFSFeed.TTL feed <? 0
                    then [issue SeverityError "ttl must be non-negative" "/ttl"] else [])
                   = [] <-> 0 <= gbfs.GBFSFeed.TTL feed).
    { destruct (Z.ltb_spec (gbfs.GBFSFeed.TTL feed) 0); split; (done || lia). }
    assert (Hfeeds : (if (length (gbfs.GBFSFeed.Feeds feed) =? 0)%nat
                      then [issue SeverityError
                              "data.feeds array is required and must not be empty"
                              "/data/feeds"] else [])
                     = [] <-> gbfs.GBFSFeed.Feeds feed <> []).
    { by destruct (gbfs.GBFSFeed.Feeds feed). }
    rewrite Httl, Hfeeds.
    assert (Hfeed : forall (i : nat) f,
      (if String.eqb (gbfs.FeedInfo.Name f) ""
        then [issue SeverityError "feed name is required"
                ("/data/feeds/" +:+ pretty i +:+ "/name")]
        else [])
       ++ (if String.eqb (gbfs.FeedInfo.URL f) ""
           then [issue SeverityError "feed url is required"
                   ("/data/feeds/" +:+ pretty i +:+ "/url")]
           else []) = []
      <-> gbfs.FeedInfo.Name f <> "" /\ gbfs.FeedInfo.URL f <> "").
    { intros i f. rewrite app_nil.
      destruct (String.eqb_spec (gbfs.FeedInfo.Name f) ""),
               (String.eqb_spec (gbfs.FeedInfo.URL f) ""); split; intros [? ?]; done. }
    split.
    + intros (Ht & Hne & Hall). split; [exact Ht|]. split; [exact Hne|].
      intros i f Hi. apply (Hfeed i), Hall, Hi.
    + intros (Ht & Hne & Hall). split; [exact Ht|]. split; [exact Hne|].
      intros i f Hi. apply Hfeed, (Hall i), Hi.
  - repeat apply Forall_app_2.
    + destruct (_ <? _); by repeat constructor.
    + destruct (_ =? _)%nat; by repeat constructor.
    + apply Forall_concat_imap_issue. intros i f. apply Forall_app_2.
      * destruct (String.eqb _ _); by repeat constructor.
      * destruct (String.eqb _ _); by repeat constructor.
Qed.

Lemma foldl_feeds_lookup (feeds : list gbfs.FeedInfo.t) (urls : gmap string string)
    (name : string) :
  foldl (fun urls f => <[gbfs.FeedInfo.Name f := gbfs.FeedInfo.URL f]> urls) urls feeds
    !! name
  = match lastNamed name feeds with
    | Some f => Some (gbfs.FeedInfo.URL f)
    | None => urls !! name
    end.
Proof.
  revert urls. induction feeds as [|f feeds IH]; intros urls; [reflexivity|].
  cbn [foldl]. rewrite IH. unfold lastNamed. rewrite filter_cons.
  destruct (decide (gbfs.FeedInfo.Name f = name)) as [Hf|Hf].
  - rewrite last_cons. destruct (last _); [reflexivity|].
    by rewrite Hf, lookup_insert_eq.
  - destruct (last _); [reflexivity|]. by rewrite lookup_insert_ne.
Qed.

(** X24: the URL [buildFeedURLMap] gives for a name is the url of the
    last feed of the manifest with that name, and none when no feed has
    the name; the base URL plays no part. *)
Theorem buildFeedURLMap_last_wins (feed : gbfs.GBFSFeed.t) (baseURL name : string) :
  buildFeedURLMap feed baseURL !! name
  = gbfs.FeedInfo.URL <$> lastNamed name (gbfs.GBFSFeed.Feeds feed).
Proof.
  unfold buildFeedURLMap. rewrite foldl_feeds_lookup.
  by destruct (lastNamed name _).
Qed.

End Manifest.

(** ** The structure checks *)

Section StructureChecks.
Context `{JSONDecoder}.

Import validator.

Lemma validateByType_unchecked (feedType : string) (m : gmap string value) (ver : string) :
  feedType ∉ checkedTypes -> validateByType feedType m ver = [].
Proof.
  unfold checkedTypes. rewrite !not_elem_of_cons. intros (H1 & H2 & H3 & H4 & H5 & H6 & _).
  unfold validateByType.
  rewrite !bool_decide_eq_false_2 by assumption. reflexivity.
Qed.

Lemma validateByType_no_object (feedType : string) (m : gmap string value) (ver : string) :
  (forall d, m !! "data" = Some d -> isObject d = false) ->
  validateByType feedType m ver = [].
Proof.
  intros Hd. unfold validateByType, validateSystemInformation, validateStationInformation,
    validateStationStatus, validateVehicleStatus, validateVehicleTypes.
  destruct (m !! "data") as [d|] eqn:Hm.
  - specialize (Hd d eq_refl). destruct d; try discriminate Hd;
      repeat match goal with |- context [if ?b then _ else _] => destruct b end; reflexivity.
  - repeat match goal with |- context [if ?b then _ else _] => destruct b end; reflexivity.
Qed.

(** X25: beyond the three header members, [validateFileStructure]
    looks only into a "data" member that is an object, and only for six
    document types.  So a document that decodes to an object with
    last_updated, ttl and data is reported clean when its type is not one
    of the six (system_alerts, system_pricing_plans, geofencing_zones,
    ...), and also, for any type, when its "data" is a string, a number,
    an array, a boolean or null. *)
Theorem structure_check_stops_at_header (data : bytes) (feedType ver : string)
    (m : gmap string value) :
  UnmarshalMap data = UMap m ->
  hasKey m "last_updated" = true ->
  hasKey m "ttl" = true ->
  hasKey m "data" = true ->
  feedType ∉ checkedTypes \/ (forall d, m !! "data" = Some d -> isObject d = false) ->
  validateFileStructure data feedType ver = [].
Proof.
  intros Hm Hlu Httl Hdata Hcase. unfold validateFileStructure.
  rewrite Hm, Hlu, Httl, Hdata. cbn [app].
  destruct Hcase as [Hty|Hobj];
    [by apply validateByType_unchecked|by apply validateByType_no_object].
Qed.

End StructureChecks.

Section DocumentPassRuns.
#[local] Existing Instance reference.runtime.
#[local] Existing Instance reference.decoder.
#[local] Existing Instance example.onlySystemInformationFeed.

Import validator.

Lemma structure_check_stops_at_header_witness :
  validateFileStructure (Text (JObj headerSample.dataIsString)) "station_status" "2.3" = [].
Proof.
  apply (structure_check_stops_at_header (Text (JObj headerSample.dataIsString))
           "station_status" "2.3" (jmap parseLiteral <$> headerSample.dataIsString));
    try reflexivity.
  right. intros d Hd.
  assert (Hs : (jmap parseLiteral <$> headerSample.dataIsString) !! "data"
               = Some (JStr "oops")) by reflexivity.
  pose proof (eq_trans (eq_sym Hs) Hd) as Hv. by injection Hv as <-.
Defined.

Lemma strict_validator_never_coerces_witness :
  coercer (New example.strictOptions) = None
  /\ map_Forall (fun _ r =>
       FileValidationResult.CoercedData r = None
       /\ FileValidationResult.CoercionCount r = 0)
      (validateFiles (New example.strictOptions)
         {[ "system_information" := example.systemInformationURL ]}
         [version.mkReq "system_information" true] "3.0" []).1.
Proof.
  apply (strict_validator_never_coerces example.strictOptions
           {[ "system_information" := example.systemInformationURL ]}
           [version.mkReq "system_information" true] "3.0" []).
  reflexivity.
Defined.

End DocumentPassRuns.

(** ** The summary of a coercion log *)

Section Summary.
Context `{GoRuntime}.

Import coercelog.

Lemma sumZ_Permutation (l1 l2 : list Z) : l1 ≡ₚ l2 -> sumZ l1 = sumZ l2.
Proof. unfold sumZ. induction 1; cbn in *; lia. Qed.

Lemma detailTotal_insert_fresh dm (k : string) (d : CoercionSummaryDetail) :
  dm !! k = None -> detailTotal (<[k := d]> dm) = Count d + detailTotal dm.
Proof.
  intros Hk. unfold detailTotal.
  by rewrite (sumZ_Permutation _ _
    (fmap_Permutation Count _ _ (fmap_Permutation snd _ _ (map_to_list_insert dm k d Hk)))).
Qed.

Lemma detailTotal_insert dm (k : string) (d old : CoercionSummaryDetail) :
  dm !! k = Some old ->
  detailTotal (<[k := d]> dm) = detailTotal dm - Count old + Count d.
Proof.
  intros Hk.
  rewrite <- (insert_delete_id dm k old Hk) at 2.
  rewrite <- (insert_delete_eq dm k d).
  rewrite !detailTotal_insert_fresh by apply lookup_delete_eq. lia.
Qed.

Lemma detailTotal_empty : detailTotal ∅ = 0.
Proof. unfold detailTotal. by rewrite map_to_list_empty. Qed.

Lemma increment_lookup (k j : string) (m : gmap string Z) :
  default 0 (increment k m !! j)
  = default 0 (m !! j) + (if bool_decide (k = j) then 1 else 0).
Proof.
  unfold increment. case_bool_decide as Hk.
  - subst j. by rewrite lookup_insert_eq.
  - rewrite lookup_insert_ne by exact Hk. lia.
Qed.

Lemma occurrences_cons (key : coerce.Coercion -> string) (k : string) c log :
  occurrences key k (c :: log)
  = (if bool_decide (key c = k) then 1 else 0) + occurrences key k log.
Proof.
  unfold occurrences. rewrite filter_cons.
  case_bool_decide as Hk; destruct (decide (key c = k)); try done; cbn [length]; lia.
Qed.

Lemma increment_positive (k : string) (m : gmap string Z) :
  map_Forall (fun _ n => 1 <= n) m -> map_Forall (fun _ n => 1 <= n) (increment k m).
Proof.
  intros Hm. apply map_Forall_insert_2; [|exact Hm].
  destruct (m !! k) as [n|] eqn:Hk; cbn; [|lia].
  specialize (Hm _ _ Hk). cbn in Hm. lia.
Qed.

Lemma count_positive (log : coerce.CoercionLog) (acc : counts) :
  positive acc -> positive (foldl count acc log).
Proof.
  revert acc. induction log as [|c log IH]; intros acc Hacc; [exact Hacc|].
  cbn [foldl]. apply IH. destruct Hacc as (Ht & Hf & Hd).
  split; [|split]; cbn [count byType byField detailMap].
  - by apply increment_positive.
  - by apply increment_positive.
  - destruct (detailMap acc !! detailKey c) as [d|] eqn:Hk.
    + apply map_Forall_insert_2; [|exact Hd]. cbn [Count].
      specialize (Hd _ _ Hk). cbn in Hd. lia.
    + apply map_Forall_insert_2; [|exact Hd]. cbn [Count]. lia.
Qed.

Lemma count_loop (log : coerce.CoercionLog) (acc : counts) :
  let final := foldl count acc log in
  (forall k, default 0 (byType final !! k)
             = default 0 (byType acc !! k) + occurrences typeKey k log)
  /\ (forall k, default 0 (byField final !! k)
                = default 0 (byField acc !! k) + occurrences coerce.Field k log)
  /\ detailTotal (detailMap final) = detailTotal (detailMap acc) + Z.of_nat (length log).
Proof.
  revert acc. induction log as [|c log IH]; intros acc.
  - cbn. unfold occurrences. cbn. repeat split; intros; lia.
  - cbn [foldl]. destruct (IH (count acc c)) as (Ht & Hf & Hd). cbv zeta.
    split; [|split].
    + intros k. rewrite Ht, occurrences_cons. cbn [count byType].
      rewrite increment_lookup. lia.
    + intros k. rewrite Hf, occurrences_cons. cbn [count byField].
      rewrite increment_lookup. lia.
    + rewrite Hd. cbn [count detailMap length].
      destruct (detailMap acc !! detailKey c) as [d|] eqn:Hk.
      * rewrite (detailTotal_insert _ _ _ d Hk). cbn [Count]. lia.
      * rewrite (detailTotal_insert_fresh _ _ _ Hk). cbn [Count]. lia.
Qed.

(** X26: the counts of [Summarize] add up.  TotalCoercions is the
    length of the log; the count under a field name is the number of
    records with that field, the count under "from->to" the number of
    records with these two type names (a name with no record has no
    entry); every detail counts at least one record and the counts of
    the details sum to TotalCoercions, also when two groups share a
    detail key. *)
Theorem Summarize_counts_add_up (log : coerce.CoercionLog) :
  let s := Summarize log in
  TotalCoercions s = Z.of_nat (length log)
  /\ (forall field, default 0 (ByField s !! field) = occurrences coerce.Field field log)
  /\ (forall key, default 0 (ByType s !! key) = occurrences typeKey key log)
  /\ (forall key, is_Some (ByField s !! key) <-> 0 < occurrences coerce.Field key log)
  /\ Forall (fun d => 1 <= Count d) (Details s)
  /\ sumZ (Count <$> Details s) = TotalCoercions s.
Proof.
  unfold Summarize. cbv zeta. cbn [TotalCoercions ByField ByType Details].
  destruct (count_loop log (mkCounts ∅ ∅ ∅)) as (Ht & Hf & Hd).
  assert (Hpos : positive (foldl count (mkCounts ∅ ∅ ∅) log)).
  { apply count_positive. repeat split; apply map_Forall_empty. }
  destruct Hpos as (_ & Hpf & Hpd).
  cbv zeta in Ht, Hf, Hd. cbn [byType byField detailMap] in Ht, Hf, Hd.
  assert (Hfield : forall field,
            default 0 (byField (foldl count (mkCounts ∅ ∅ ∅) log) !! field)
            = occurrences coerce.Field field log).
  { intros field. rewrite Hf, lookup_empty. cbn. lia. }
  split; [reflexivity|].
  split; [exact Hfield|].
  split; [intros key; rewrite Ht, lookup_empty; cbn; lia|].
  split; [|split].
  - intros key. rewrite <- Hfield. split.
    + intros [n Hn]. rewrite Hn. specialize (Hpf _ _ Hn). cbn in *. lia.
    + destruct (byField _ !! key); [by eexists|cbn; lia].
  - apply Forall_forall. intros d Hin.
    apply list_elem_of_fmap in Hin as ([k d2] & -> & Hin).
    apply elem_of_map_to_list in Hin. exact (Hpd _ _ Hin).
  - rewrite detailTotal_empty in Hd. exact Hd.
Qed.

End Summary.

(** ** References from vehicles to vehicle types, at the paths of the document *)

Section VehiclePaths.
Context `{JSONDecoder}.

Import validator.

(** Every issue of the reference check is filed under /data/vehicles/. *)
Lemma referenceIssues_paths vehicleTypes (i : nat) vehicle :
  Forall (fun e => exists rest,
            ValidationError.InstancePath e = "/data/vehicles/" +:+ rest)
    (referenceIssues vehicleTypes i vehicle).
Proof.
  unfold referenceIssues. apply Forall_app. split.
  - destruct (danglingReference _ _); [|constructor].
    constructor; [|constructor]. by eexists.
  - match goal with |- context [if ?b then _ else _] => destruct b end; [|constructor].
    constructor; [|constructor]. by eexists.
Qed.

Lemma foldIndexed_reference_paths vehicleTypes vehicles (i0 : nat) result :
  exists added,
    FileValidationResult.Errors
      (foldIndexed (checkVehicleTypeReference vehicleTypes) i0 vehicles result)
    = FileValidationResult.Errors result ++ added /\
    Forall (fun e => exists rest,
              ValidationError.InstancePath e = "/data/vehicles/" +:+ rest) added.
Proof.
  revert i0 result. induction vehicles as [|vehicle rest IH]; intros i0 result.
  - exists []. split; [by rewrite app_nil_r|constructor].
  - cbn [foldIndexed].
    destruct (IH (S i0) (checkVehicleTypeReference vehicleTypes i0 vehicle result))
      as (added & Hadded & Hpaths).
    exists (referenceIssues vehicleTypes i0 vehicle ++ added). split.
    + rewrite Hadded, checkVehicleTypeReference_errors. by rewrite app_assoc.
    + apply Forall_app. split; [apply referenceIssues_paths|exact Hpaths].
Qed.

Lemma isErrorAt_bikes (i : nat) (e : ValidationError.t) (rest : string) :
  ValidationError.InstancePath e = "/data/vehicles/" +:+ rest ->
  isErrorAt ("/data/bikes/" +:+ pretty i +:+ "/vehicle_type_id") e = false.
Proof.
  intros He. unfold isErrorAt. rewrite He. apply andb_false_iff. right.
  apply String.eqb_neq. cbn. discriminate.
Qed.


End VehiclePaths.

Section VehiclePathRuns.
#[local] Existing Instance reference.runtime.
#[local] Existing Instance reference.decoder.

Import validator.



End VehiclePathRuns.

(** ** Failures inside the report *)

Section FailureEncoding.
Context `{JSONDecoder} `{fetcher.Network}.

Import validator.

Lemma grows_refl r : grows r r.
Proof. repeat split; try done. exists []. by rewrite app_nil_r. Qed.

Lemma grows_trans r1 r2 r3 : grows r1 r2 -> grows r2 r3 -> grows r1 r3.
Proof.
  intros (Hf1 & He1 & Hr1 & Hh1 & m1 & Hm1) (Hf2 & He2 & Hr2 & Hh2 & m2 & Hm2).
  split; [congruence|]. split; [congruence|]. split; [auto|]. split; [auto|].
  exists (m1 ++ m2). by rewrite Hm2, Hm1, app_assoc.
Qed.

Lemma grows_recordError e r : grows r (recordError e r).
Proof. destruct r. repeat split; try done. by eexists. Qed.

Lemma grows_appendIssue e r : grows r (appendIssue e r).
Proof. destruct r. repeat split; try done. by eexists. Qed.

Lemma foldIndexed_grows {A : Type}
    (check : nat -> A -> FileValidationResult.t -> FileValidationResult.t)
    (i0 : nat) (l : list A) (r : FileValidationResult.t) :
  (forall i x r, grows r (check i x r)) -> grows r (foldIndexed check i0 l r).
Proof.
  intros Hcheck. revert i0 r. induction l as [|x l IH]; intros i0 r; [apply grows_refl|].
  cbn [foldIndexed]. eapply grows_trans; [apply Hcheck|apply IH].
Qed.

Lemma checkVehicleTypeReference_grows vehicleTypes i vehicle r :
  grows r (checkVehicleTypeReference vehicleTypes i vehicle r).
Proof.
  unfold checkVehicleTypeReference.
  destruct (negb _); [|apply grows_refl].
  destruct (vehicleTypes !! _); cbn zeta;
    match goal with |- context [if ?b then _ else _] => destruct b end;
    try apply grows_refl; try apply grows_recordError; try apply grows_appendIssue.
  eapply grows_trans; [apply grows_recordError|apply grows_appendIssue].
Qed.

Lemma checkPricingPlanReference_grows pricingPlans i t r :
  grows r (checkPricingPlanReference pricingPlans i t r).
Proof.
  unfold checkPricingPlanReference.
  destruct (_ && _); [apply grows_recordError|apply grows_refl].
Qed.

Lemma checkStationIDReference_grows stationIDs i s r :
  grows r (checkStationIDReference stationIDs i s r).
Proof.
  unfold checkStationIDReference.
  destruct (negb _); [apply grows_recordError|apply grows_refl].
Qed.

Lemma keeps_refl results : keeps results results.
Proof. intros k r Hr. exists r. split; [exact Hr|]. split; [apply grows_refl|done]. Qed.

Lemma keeps_trans r1 r2 r3 : keeps r1 r2 -> keeps r2 r3 -> keeps r1 r3.
Proof.
  intros H12 H23 k r Hr.
  destruct (H12 k r Hr) as (r' & Hr' & Hg & Hsame).
  destruct (H23 k r' Hr') as (r'' & Hr'' & Hg' & Hsame').
  exists r''. split; [exact Hr''|]. split; [by eapply grows_trans|].
  intros He Hk.
  assert (He' : FileValidationResult.Exists r' = false)
    by (destruct Hg as (_ & -> & _); exact He).
  rewrite (Hsame' He' Hk). by apply Hsame.
Qed.

(** A pass that rewrites the result of a fetched document. *)
Lemma keeps_insert results (name : string) r r' :
  results !! name = Some r ->
  FileValidationResult.Exists r = true ->
  grows r r' ->
  keeps results (<[name := r']> results).
Proof.
  intros Hr He Hg k r0 Hk. destruct (decide (name = k)) as [->|Hne].
  - rewrite Hr in Hk. injection Hk as <-. exists r'.
    split; [apply lookup_insert_eq|]. split; [exact Hg|]. congruence.
  - exists r0. rewrite lookup_insert_ne by exact Hne.
    split; [exact Hk|]. split; [apply grows_refl|done].
Qed.

Lemma rawOf_Some results (name : string) raw :
  rawOf results name = Some raw ->
  exists r, results !! name = Some r /\ FileValidationResult.Exists r = true.
Proof.
  unfold rawOf. destruct (results !! name) as [r|]; [|discriminate].
  destruct (FileValidationResult.Exists r) eqn:He; [|discriminate]. by exists r.
Qed.

Lemma validateVehicleTypeReferences_keeps results vehicleTypes ver :
  keeps results (validateVehicleTypeReferences results vehicleTypes ver).
Proof.
  unfold validateVehicleTypeReferences.
  destruct (results !! version.GetVehicleStatusFileName ver) as [r|] eqn:Hr;
    [|apply keeps_refl].
  destruct (rawOf results _) as [raw|] eqn:Hraw; [|apply keeps_refl].
  destruct (size vehicleTypes =? 0)%nat; [apply keeps_refl|].
  destruct (decodeVehicleStatus raw) as [vs|]; [|apply keeps_refl].
  apply rawOf_Some in Hraw as (r2 & Hr2 & He). rewrite Hr in Hr2. injection Hr2 as <-.
  apply (keeps_insert _ _ r); [exact Hr|exact He|].
  apply foldIndexed_grows. intros. apply checkVehicleTypeReference_grows.
Qed.

Lemma validatePricingPlanReferences_keeps results pricingPlans ver :
  keeps results (validatePricingPlanReferences results pricingPlans ver).
Proof.
  unfold validatePricingPlanReferences.
  destruct (size pricingPlans =? 0)%nat; [apply keeps_refl|].
  destruct (results !! "vehicle_types") as [r|] eqn:Hr; [|apply keeps_refl].
  destruct (rawOf results _) as [raw|] eqn:Hraw; [|apply keeps_refl].
  destruct (decodeVehicleTypes raw) as [vts|]; [|apply keeps_refl].
  apply rawOf_Some in Hraw as (r2 & Hr2 & He). rewrite Hr in Hr2. injection Hr2 as <-.
  apply (keeps_insert _ _ r); [exact Hr|exact He|].
  apply foldIndexed_grows. intros. apply checkPricingPlanReference_grows.
Qed.

Lemma validateStationIDReferences_keeps results stationIDs ver :
  keeps results (validateStationIDReferences results stationIDs ver).
Proof.
  unfold validateStationIDReferences.
  destruct (size stationIDs =? 0)%nat; [apply keeps_refl|].
  destruct (results !! "station_status") as [r|] eqn:Hr; [|apply keeps_refl].
  destruct (rawOf results _) as [raw|] eqn:Hraw; [|apply keeps_refl].
  destruct (decodeStationStatus raw) as [sts|]; [|apply keeps_refl].
  apply rawOf_Some in Hraw as (r2 & Hr2 & He). rewrite Hr in Hr2. injection Hr2 as <-.
  apply (keeps_insert _ _ r); [exact Hr|exact He|].
  apply foldIndexed_grows. intros. apply checkStationIDReference_grows.
Qed.

Lemma escalate_keeps results (name msg : string) :
  name ∈ escalated -> keeps results (escalate results name msg).
Proof.
  intros Hname. unfold escalate.
  destruct (results !! name) as [r|] eqn:Hr.
  - destruct (FileValidationResult.Exists r) eqn:He; [apply keeps_refl|].
    intros k r0 Hk. destruct (decide (name = k)) as [<-|Hne].
    + rewrite Hr in Hk. injection Hk as <-. eexists.
      split; [apply lookup_insert_eq|]. split; [|done].
      destruct r. repeat split; try done. by eexists.
    + exists r0. rewrite lookup_insert_ne by exact Hne.
      split; [exact Hk|]. split; [apply grows_refl|done].
  - intros k r0 Hk. destruct (decide (name = k)) as [<-|Hne]; [congruence|].
    exists r0. rewrite lookup_insert_ne by exact Hne.
    split; [exact Hk|]. split; [apply grows_refl|done].
Qed.

Lemma checkConditionalVehicleTypes_keeps results ver :
  keeps results (checkConditionalVehicleTypes results ver).
Proof.
  unfold checkConditionalVehicleTypes.
  destruct (rawOf results _) as [raw|]; [|apply keeps_refl].
  destruct (decodeVehicleStatus raw) as [vs|]; [|apply keeps_refl].
  destruct (existsb _ _); [|apply keeps_refl].
  apply escalate_keeps. apply list_elem_of_here.
Qed.

Lemma checkConditionalPricingPlans_keeps results ver :
  keeps results (checkConditionalPricingPlans results ver).
Proof.
  unfold checkConditionalPricingPlans.
  destruct (rawOf results _) as [raw|]; [|apply keeps_refl].
  destruct (decodeVehicleStatus raw) as [vs|]; [|apply keeps_refl].
  destruct (existsb _ _); [|apply keeps_refl].
  apply escalate_keeps. apply list_elem_of_further, list_elem_of_here.
Qed.

(** Cross-validation takes no result away and no issue back. *)
Lemma crossValidate_keeps results ver : keeps results (crossValidate results ver).
Proof.
  unfold crossValidate.
  eapply keeps_trans; [apply validateVehicleTypeReferences_keeps|].
  eapply keeps_trans; [apply validatePricingPlanReferences_keeps|].
  eapply keeps_trans; [apply validateStationIDReferences_keeps|].
  eapply keeps_trans; [apply checkConditionalVehicleTypes_keeps|].
  apply checkConditionalPricingPlans_keeps.
Qed.

(** The table has one requirement per name, for every version string. *)
Lemma requirements_NoDup (ver : string) (opts : version.Options) :
  exists reqs,
    version.GetFileRequirements ver opts = Ret reqs /\ NoDup (version.File <$> reqs).
Proof.
  assert (Hcase : forall files,
    (files = version.files_1_0 \/ files = version.files_1_1 \/ files = version.files_2_0
     \/ files = version.files_2_1 \/ files = version.files_2_2 \/ files = version.files_2_3
     \/ files = version.files_3_0 \/ files = version.files_3_1_RC2) ->
    NoDup (version.File <$> files opts)).
  { intros files Hf.
    repeat (destruct Hf as [-> | Hf]); try subst files;
      apply (bool_decide_unpack _); vm_compute; exact I. }
  unfold version.GetFileRequirements.
  destruct (version.Configs !! ver) as [cfg|] eqn:Hv.
  - apply Configs_known in Hv. unfold version.configEntries in Hv.
    repeat (apply elem_of_cons in Hv as [Hv|Hv];
            [injection Hv as -> ->; eexists; split; [reflexivity|];
             apply Hcase; tauto|]).
    by apply elem_of_nil in Hv.
  - eexists. split; [reflexivity|]. apply Hcase; tauto.
Qed.

Local Ltac in_each_case :=
  repeat match goal with |- context [if ?b then _ else _] => destruct b end;
  reflexivity.

(** The three ways [validateGBFS] ends. *)
Lemma validateGBFS_cases (v : Validator) (gbfsURL : string) (tr : list string) :
  exists root,
    FileValidationResult.File root = "gbfs.json"
    /\ if notFetched (manifestAnswer gbfsURL)
       then (validateGBFS v gbfsURL tr).1 = (root, None, Some "gbfs.json not found")
            /\ FileValidationResult.Exists root = false
            /\ FileValidationResult.Errors root
               = (if version.IsGBFSRequired (Options.Version (options v))
                  then [issue SeverityError "gbfs.json is required but not found" ""]
                  else [])
       else FileValidationResult.Exists root = true
            /\ match decodeGBFSFeed (bodyBytes (fetcher.Body (manifestAnswer gbfsURL))) with
               | None =>
                   (validateGBFS v gbfsURL tr).1
                   = (root, None,
                      Some (decodeErrorText
                              (bodyBytes (fetcher.Body (manifestAnswer gbfsURL)))))
                   /\ FileValidationResult.Errors root
                      = [issue SeverityError
                           ("Failed to parse gbfs.json: "
                            +:+ decodeErrorText
                                  (bodyBytes (fetcher.Body (manifestAnswer gbfsURL)))) ""]
               | Some feed =>
                   (validateGBFS v gbfsURL tr).1 = (root, Some feed, None)
                   /\ FileValidationResult.Errors root = validateGBFSStructure feed
               end.
Proof.
  unfold validateGBFS, manifestAnswer, manifestRetried, notFetched, bind, fetch, ret.
  destruct (isSome (fetcher.Error (fetcher.Fetch gbfsURL))
            && negb (HasSuffix gbfsURL "gbfs.json")); cbn [fst snd];
    match goal with
    | |- context [isSome (fetcher.Error ?a) || negb (fetcher.Exists ?a)] =>
        destruct (isSome (fetcher.Error a) || negb (fetcher.Exists a))
    end; cbv beta iota;
    try match goal with
        | |- context [decodeGBFSFeed ?b] => destruct (decodeGBFSFeed b) as [feed|]
        end; cbv beta iota;
    try match goal with
        | |- context [validateGBFSStructure ?f] => destruct (validateGBFSStructure f)
        end;
    unfold withSchemaErrors; cbn [length Nat.ltb Nat.leb];
    first [ (eexists; split; [|split; [|split; [reflexivity|]]]; in_each_case)
          | (eexists; split; [|split; [reflexivity|split]]; in_each_case) ].
Qed.

(** What one goroutine of [validateFiles] records. *)
Lemma validateFile_encoded (v : Validator) feedURLs ver req tr :
  documentEncoded v feedURLs ver req (validateFile v feedURLs ver req tr).1.
Proof.
  unfold documentEncoded, validateFile, missingEncoded, notFetched, validatedData.
  cbv zeta. destruct (feedURLs !! version.File req) as [url|].
  - unfold bind, fetch. cbn [fst snd].
    destruct (isSome (fetcher.Error (fetcher.Fetch url))
              || negb (fetcher.Exists (fetcher.Fetch url))).
    + destruct (version.Required req) eqn:Hreq; cbn; rewrite ?Hreq.
      * split; [reflexivity|]. split; [reflexivity|]. split; [reflexivity|].
        split; [reflexivity|]. by exists [].
      * by repeat split.
    + destruct (coercer v) as [c|]; [destruct (coerce.Coerce c _ _).1 as [res|]|];
        cbn [fst snd ret];
        match goal with
        | |- context [withSchemaErrors ?es _] =>
            unfold withSchemaErrors; destruct es
        end; cbn; (split; [reflexivity|]; split; [reflexivity|]; exists []; by rewrite ?app_nil_r).
  - destruct (version.Required req) eqn:Hreq; cbn; rewrite ?Hreq.
    + split; [reflexivity|]. split; [reflexivity|]. split; [reflexivity|].
      split; [reflexivity|]. by exists [].
    + by repeat split.
Qed.

Lemma missingEncoded_grows req msg r r' :
  missingEncoded req msg r -> grows r r' ->
  (FileValidationResult.Exists r = false -> version.File req ∉ escalated -> r' = r) ->
  missingEncoded req msg r'.
Proof.
  intros [He Hm] (Hf & He' & Hr & Hh & more & Hmore) Hsame.
  split; [congruence|].
  destruct (version.Required req).
  - destruct Hm as (Hreq & Hhas & more0 & Herr).
    split; [auto|]. split; [auto|]. exists (more0 ++ more). by rewrite Hmore, Herr.
  - intros Hk. rewrite (Hsame He Hk). by apply Hm.
Qed.

(** Cross-validation leaves what the per-document pass recorded. *)
Lemma documentEncoded_grows (v : Validator) feedURLs ver req r r' :
  documentEncoded v feedURLs ver req r -> grows r r' ->
  (FileValidationResult.Exists r = false -> version.File req ∉ escalated -> r' = r) ->
  documentEncoded v feedURLs ver req r'.
Proof.
  unfold documentEncoded. cbv zeta. intros [Hf Hd] Hg Hsame.
  split; [destruct Hg as (-> & _); exact Hf|].
  destruct (feedURLs !! version.File req) as [url|].
  - destruct (notFetched (fetcher.Fetch url)).
    + by eapply missingEncoded_grows.
    + destruct Hd as (He & more0 & Herr).
      destruct Hg as (_ & He' & _ & _ & more & Hmore).
      split; [congruence|]. exists (more0 ++ more). by rewrite Hmore, Herr, app_assoc.
  - by eapply missingEncoded_grows.
Qed.

(** C10, as the code has it.  For every input URL and every validator
    (hence every option set), from any fetch history, [Validate] returns
    a report together with a nil error, and does not panic.  The report
    starts with the result of gbfs.json.  An unreachable manifest ends
    the run with that result alone and the version-undetermined flag,
    and carries the Error "gbfs.json is required but not found" exactly
    when gbfs.json is required for the configured version; an unparsable
    manifest ends the run the same way and always carries the Error
    "Failed to parse gbfs.json: ...".  Otherwise the manifest's result
    carries its structure issues; there is one per-document result for
    each requirement name of the validated version, the rest of the
    report are these results after cross-validation, and for every
    requirement there is a result in the report: of a document not listed or
    not fetched, with the Error "Required file ..." first when the
    document is required, and with no issue when it is optional and not
    one of the two documents cross-validation can make required; of a
    fetched document, with its structure issues first. *)
Theorem Validate_encodes_failures (v : Validator) (gbfsURL : string) (tr : list string) :
  exists report root docs tr',
    Validate v gbfsURL tr = (Ret (report, None), tr')
    /\ ValidationResult.Files report = root :: docs
    /\ FileValidationResult.File root = "gbfs.json"
    /\ if notFetched (manifestAnswer gbfsURL)
       then docs = []
            /\ ValidationSummary.VersionUnimplemented (ValidationResult.Summary report) = true
            /\ FileValidationResult.Exists root = false
            /\ FileValidationResult.Errors root
               = (if version.IsGBFSRequired (Options.Version (options v))
                  then [issue SeverityError "gbfs.json is required but not found" ""]
                  else [])
       else FileValidationResult.Exists root = true
            /\ match decodeGBFSFeed (bodyBytes (fetcher.Body (manifestAnswer gbfsURL))) with
               | None =>
                   docs = []
                   /\ ValidationSummary.VersionUnimplemented
                        (ValidationResult.Summary report) = true
                   /\ FileValidationResult.Errors root
                      = [issue SeverityError
                           ("Failed to parse gbfs.json: "
                            +:+ decodeErrorText
                                  (bodyBytes (fetcher.Body (manifestAnswer gbfsURL)))) ""]
               | Some feed =>
                   FileValidationResult.Errors root = validateGBFSStructure feed
                   /\ exists reqs fileResults,
                        version.GetFileRequirements (validatedVersion v feed)
                          (version.mkOptions (Options.Docked (options v))
                             (Options.Freefloating (options v))) = Ret reqs
                        /\ (forall name,
                              is_Some (fileResults !! name)
                              <-> name ∈ version.File <$> reqs)
                        /\ Forall (fun req =>
                                     exists r,
                                       fileResults !! version.File req = Some r
                                       /\ documentEncoded v (buildFeedURLMap feed gbfsURL)
                                            (validatedVersion v feed) req r) reqs
                        /\ docs
                           = (map_to_list
                                (crossValidate fileResults (validatedVersion v feed))).*2
                        /\ Forall (fun req =>
                                     exists fr,
                                       fr ∈ docs
                                       /\ documentEncoded v (buildFeedURLMap feed gbfsURL)
                                            (validatedVersion v feed) req fr) reqs
               end.
Proof.
  destruct (validateGBFS_cases v gbfsURL tr) as (root & Hfile & Hcases).
  unfold Validate, bind.
  destruct (validateGBFS v gbfsURL tr) as [[[gbfsResult gbfsFeed] err] tr1] eqn:Hg.
  cbn [fst snd] in Hcases.
  destruct (notFetched (manifestAnswer gbfsURL)).
  { destruct Hcases as ([= -> -> ->] & He & Herr).
    eexists; exists root, []; eexists. split; [reflexivity|]. by repeat split. }
  destruct Hcases as (He & Hcases). unfold validatedVersion.
  destruct (decodeGBFSFeed _) as [feed|].
  2:{ destruct Hcases as ([= -> -> ->] & Herr).
      eexists; exists root, []; eexists. split; [reflexivity|]. by repeat split. }
  destruct Hcases as ([= -> -> ->] & Herr).
  set (ver := if String.eqb (Options.Version (options v)) "" then _ else _).
  set (opts := version.mkOptions _ _).
  destruct (requirements_NoDup ver opts) as (reqs & Hreqs & Hnd). rewrite Hreqs.
  set (feedURLs := buildFeedURLMap feed gbfsURL).
  destruct (validateFiles v feedURLs reqs ver tr1) as [fileResults tr2] eqn:Hfiles.
  eexists; exists root; eexists; eexists. split; [reflexivity|].
  cbn [ValidationResult.Files]. rewrite tally_files. cbn [files app].
  split; [reflexivity|]. split; [exact Hfile|]. split; [exact He|].
  split; [exact Herr|]. exists reqs, fileResults. split; [reflexivity|].
  assert (Hlookup : forall req, req ∈ reqs ->
            exists r, fileResults !! version.File req = Some r
                      /\ documentEncoded v feedURLs ver req r).
  { intros req Hreq.
    destruct (validateFilesFrom_lookup v feedURLs ver reqs ∅ tr1 req Hnd Hreq)
      as [t0 Hlook].
    fold (validateFiles v feedURLs reqs ver tr1) in Hlook. rewrite Hfiles in Hlook.
    cbn [fst] in Hlook. eexists. split; [exact Hlook|apply validateFile_encoded]. }
  split.
  { intros name.
    pose proof (validateFilesFrom_dom v feedURLs ver reqs ∅ tr1 name) as Hdom.
    fold (validateFiles v feedURLs reqs ver tr1) in Hdom. rewrite Hfiles in Hdom.
    cbn [fst] in Hdom. rewrite Hdom, lookup_empty, is_Some_alt. tauto. }
  split; [apply Forall_forall; exact Hlookup|].
  split; [reflexivity|].
  apply Forall_forall. intros req Hreq.
  destruct (Hlookup req Hreq) as (r & Hr & Henc).
  destruct (crossValidate_keeps fileResults ver _ _ Hr) as (fr & Hfr & Hgrows & Hsame).
  exists fr. split.
  - apply list_elem_of_fmap. exists (version.File req, fr). split; [reflexivity|].
    by apply elem_of_map_to_list.
  - eapply documentEncoded_grows; [exact Henc|exact Hgrows|exact Hsame].
Qed.

End FailureEncoding.

(** C10, as the claim states it, fails: two failures leave no issue in
    the report.  In the first run nothing is reachable and version 1.0 is
    configured, for which gbfs.json is optional: the report holds the
    result of gbfs.json alone, not found and without an issue, and its
    error flag and count are unset.  In the second run the manifest lists
    system_alerts and that document answers 500: its fetch ends in an
    error, its result is in the report without an issue, and no result
    of the report has an issue. *)
Lemma failures_without_issue :
  (exists report root tr',
     @validator.Validate reference.runtime reference.decoder example.unreachable
       (validator.New silent.version10Options) example.manifestURL []
     = (Ret (report, None), tr') /\
     validator.ValidationResult.Files report = [root] /\
     validator.FileValidationResult.Exists root = false /\
     validator.FileValidationResult.Errors root = [] /\
     validator.ValidationSummary.HasErrors (validator.ValidationResult.Summary report) = false /\
     validator.ValidationSummary.ErrorsCount (validator.ValidationResult.Summary report) = 0)
  /\
  (exists report alerts tr',
     @validator.Validate reference.runtime reference.decoder silent.alertsDown
       (validator.New example.strictOptions) example.manifestURL []
     = (Ret (report, None), tr') /\
     fetcher.Error (@fetcher.Fetch silent.alertsDown silent.systemAlertsURL)
     = Some "unexpected status code: 500" /\
     silent.systemAlertsURL ∈ tr' /\
     alerts ∈ validator.ValidationResult.Files report /\
     validator.FileValidationResult.File alerts = "system_alerts.json" /\
     validator.FileValidationResult.Exists alerts = false /\
     Forall (fun fr => validator.FileValidationResult.Errors fr = [])
       (validator.ValidationResult.Files report) /\
     validator.ValidationSummary.HasErrors (validator.ValidationResult.Summary report) = false).
Proof.
  split.
  - eexists; eexists; eexists.
    split; [vm_compute; reflexivity|].
    repeat (split; [reflexivity|]). reflexivity.
  - eexists.
    exists (validator.FileValidationResult.mk "system_alerts.json" silent.systemAlertsURL
              false false false false 0 [] None None 0).
    eexists.
    split; [vm_compute; reflexivity|].
    split; [reflexivity|].
    split; [repeat first [apply list_elem_of_here | apply list_elem_of_further]|].
    split.
    { cbn [validator.ValidationResult.Files].
      repeat first [apply list_elem_of_here | apply list_elem_of_further]. }
    split; [reflexivity|].
    split; [reflexivity|].
    split; [repeat constructor|reflexivity].
Qed.

(** ** The requests behind a fetch *)

Section Requests.
Context `{auth.Transport}.

Import auth.

Lemma HeaderSet_Method key value req :
  Request.Method (HeaderSet key value req) = Request.Method req.
Proof. reflexivity. Qed.

Lemma HeaderSet_URL key value req :
  Request.URL (HeaderSet key value req) = Request.URL req.
Proof. reflexivity. Qed.

(** What [getOAuthToken] does, case by case: a cached token is returned
    without a request; otherwise at most one request is sent, to the
    token URL, and its token is cached. *)
Lemma getOAuthToken_cases (f : Fetcher) (cfg : OAuthConfig.t) :
  (token f <> "" /\ getOAuthToken f cfg = (token f, None, f, []))
  \/ (token f = "" /\
      exists (tok : string) (err : option string) (sent : list Request.t),
        getOAuthToken f cfg
        = (tok, err, match err with Some _ => f | None => setToken tok f end, sent)
        /\ (err <> None -> tok = "")
        /\ Request.URL <$> sent
           = match requestError "POST" (OAuthConfig.TokenURL cfg) with
             | Some _ => []
             | None => [OAuthConfig.TokenURL cfg]
             end
        /\ Forall (fun r => Request.Method r = "POST") sent).
Proof.
  unfold getOAuthToken. destruct (String.eqb_spec (token f) "") as [Ht|Ht]; cbn [negb].
  2:{ left. by split. }
  right. split; [exact Ht|].
  destruct (requestError "POST" (OAuthConfig.TokenURL cfg)) as [e|].
  { exists "", (Some e), []. repeat split; constructor. }
  cbv zeta. destruct (Do _) as [e|status [body|] readErr].
  - eexists "", (Some e), [_]. repeat split. by repeat constructor.
  - destruct (decodeAccessToken body) as [tok|].
    + eexists tok, None, [_]. repeat split; [done|]. by repeat constructor.
    + eexists "", (Some _), [_]. repeat split. by repeat constructor.
  - eexists "", (Some readErr), [_]. repeat split. by repeat constructor.
Qed.

(** With OAuth configured, [applyAuth] is [getOAuthToken] and the
    Authorization header. *)
Lemma applyAuth_oauth (f : Fetcher) (req : Request.t) (cfg : OAuthConfig.t) :
  oauthOf f = Some cfg ->
  applyAuth f req
  = let '(tok, err, f', sent) := getOAuthToken f cfg in
    match err with
    | Some e => (Some e, req, f', sent)
    | None => (None, HeaderSet "Authorization" ("Bearer " +:+ tok) req, f', sent)
    end.
Proof.
  unfold oauthOf, applyAuth. destruct (auth f) as [a|]; [|discriminate].
  destruct (String.eqb_spec (AuthConfig.Type_ a) AuthOAuthClientCredentials) as [->|];
    [|discriminate].
  intros ->. reflexivity.
Qed.

Lemma headers_kept (l : list HeaderConfig.t) (req : Request.t) :
  let req' :=
    foldl (fun req h =>
             if negb (String.eqb (HeaderConfig.Key h) "")
                && negb (String.eqb (HeaderConfig.Value h) "")
             then HeaderSet (HeaderConfig.Key h) (HeaderConfig.Value h) req
             else req) req l in
  Request.Method req' = Request.Method req /\ Request.URL req' = Request.URL req.
Proof.
  cbv zeta. revert req. induction l as [|h l IH]; intros req; [done|].
  cbn [foldl]. destruct (IH (if negb (String.eqb (HeaderConfig.Key h) "")
                                && negb (String.eqb (HeaderConfig.Value h) "")
                             then HeaderSet (HeaderConfig.Key h) (HeaderConfig.Value h) req
                             else req)) as [-> ->].
  by destruct (_ && _).
Qed.

(** Without it, [applyAuth] sends nothing, fails never, and does not
    look at the token. *)
Lemma applyAuth_other (f : Fetcher) (req : Request.t) :
  oauthOf f = None ->
  exists req',
    (forall t, applyAuth (setToken t f) req = (None, req', setToken t f, []))
    /\ Request.Method req' = Request.Method req
    /\ Request.URL req' = Request.URL req.
Proof.
  unfold oauthOf, applyAuth. cbn [auth setToken].
  destruct (auth f) as [a|]; [|by eexists].
  destruct (String.eqb (AuthConfig.Type_ a) AuthOAuthClientCredentials).
  - intros ->.
    repeat match goal with |- context [if ?b then _ else _] => destruct b end;
      repeat match goal with |- context [match ?o with Some _ => _ | None => _ end] =>
               destruct o end;
      (eexists; split; [intros tok; reflexivity|]; first [done|apply headers_kept]).
  - intros _.
    repeat match goal with |- context [if ?b then _ else _] => destruct b end;
      repeat match goal with |- context [match ?o with Some _ => _ | None => _ end] =>
               destruct o end;
      (eexists; split; [intros tok; reflexivity|]; first [done|apply headers_kept]).
Qed.

Lemma setToken_same (f : Fetcher) : setToken (token f) f = f.
Proof. by destruct f. Qed.

Lemma tokenRequests_app (l1 l2 : list Request.t) :
  tokenRequests (l1 ++ l2) = tokenRequests l1 ++ tokenRequests l2.
Proof. unfold tokenRequests. by rewrite filter_app, fmap_app. Qed.

Lemma documentRequests_app (l1 l2 : list Request.t) :
  documentRequests (l1 ++ l2) = documentRequests l1 ++ documentRequests l2.
Proof. unfold documentRequests. by rewrite filter_app, fmap_app. Qed.

Lemma tokenRequests_posts (sent : list Request.t) :
  Forall (fun r => Request.Method r = "POST") sent ->
  tokenRequests sent = Request.URL <$> sent /\ documentRequests sent = [].
Proof.
  unfold tokenRequests, documentRequests.
  induction 1 as [|r sent Hr _ [IH1 IH2]]; [done|].
  rewrite filter_cons_True by exact Hr.
  rewrite filter_cons_False by (rewrite Hr; discriminate).
  rewrite fmap_cons, IH1. by split.
Qed.

Lemma requests_get (req : Request.t) :
  Request.Method req = "GET" ->
  tokenRequests [req] = [] /\ documentRequests [req] = [Request.URL req].
Proof.
  intros Hm. unfold tokenRequests, documentRequests.
  rewrite filter_cons_False by (rewrite Hm; discriminate).
  by rewrite filter_cons_True by exact Hm.
Qed.

(** What [applyAuth] sends and leaves of the request. *)
Lemma applyAuth_requests (f : Fetcher) (req : Request.t) :
  let '(err, req', f', sent) := applyAuth f req in
  Request.Method req' = Request.Method req
  /\ Request.URL req' = Request.URL req
  /\ documentRequests sent = []
  /\ tokenRequests sent
     = match tokenWanted f with
       | Some cfg =>
           match requestError "POST" (OAuthConfig.TokenURL cfg) with
           | Some _ => []
           | None => [OAuthConfig.TokenURL cfg]
           end
       | None => []
       end.
Proof.
  unfold tokenWanted. destruct (oauthOf f) as [cfg|] eqn:Ho.
  - rewrite (applyAuth_oauth f req cfg Ho).
    destruct (getOAuthToken_cases f cfg) as [[Ht ->]|(Ht & tok & err & sent & -> & _ & Hu & Hp)].
    + apply String.eqb_neq in Ht. rewrite Ht. by repeat split.
    + rewrite Ht. cbn [String.eqb].
      destruct (tokenRequests_posts sent Hp) as [Htok Hdoc]. rewrite Hu in Htok.
      by destruct err.
  - destruct (applyAuth_other f req Ho) as (req' & Hother & Hm & Hu).
    specialize (Hother (token f)). rewrite setToken_same in Hother. rewrite Hother.
    repeat split; try done. by destruct (String.eqb (token f) "").
Qed.

(** One call of [Fetch] sends the token request exactly when a token
    is wanted, and the request for the document at most once. *)
Lemma Fetch_requests (f : Fetcher) (targetURL : string) :
  tokenRequests (Fetch f targetURL).2 = tokenAsked f targetURL
  /\ (documentRequests (Fetch f targetURL).2 = []
      \/ documentRequests (Fetch f targetURL).2 = [targetURL]).
Proof.
  unfold Fetch, roundTrip, tokenAsked.
  destruct (requestError "GET" targetURL) as [e|]; [by split; [|left]|].
  cbv zeta.
  pose proof (applyAuth_requests f
                (HeaderSet "Accept" "application/json"
                   (HeaderSet "User-Agent" (userAgent f)
                      (Request.mk "GET" targetURL ∅ "")))) as Hauth.
  destruct (applyAuth f _) as [[[err req'] f'] sent].
  destruct Hauth as (Hm & Hu & Hdoc & Htok). cbn in Hm, Hu.
  destruct err as [e|]; cbn [snd].
  - split; [exact Htok|by left].
  - destruct (requests_get req' Hm) as [Ht Hd].
    destruct (Do req'); cbn [snd];
      rewrite tokenRequests_app, documentRequests_app, Ht, Hd, Hdoc, Htok, Hu, app_nil_r;
      (split; [reflexivity|by right]).
Qed.

(** The fetcher after a call: as before, or with the token cached that
    the token request returned. *)
Lemma roundTrip_after (f : Fetcher) (targetURL : string) :
  (roundTrip f targetURL).1.2 = f
  \/ exists cfg tok sent,
       oauthOf f = Some cfg /\ token f = "" /\ tok <> ""
       /\ getOAuthToken f cfg = (tok, None, setToken tok f, sent)
       /\ (roundTrip f targetURL).1.2 = setToken tok f.
Proof.
  unfold roundTrip. destruct (requestError "GET" targetURL) as [e|]; [by left|].
  cbv zeta. destruct (oauthOf f) as [cfg|] eqn:Ho.
  - rewrite (applyAuth_oauth f _ cfg Ho).
    destruct (getOAuthToken_cases f cfg)
      as [[Ht Hg]|(Ht & tok & err & sent & Hg & _ & _ & _)]; rewrite Hg.
    + left. by destruct (Do _).
    + destruct err as [e|]; [by left|].
      destruct (String.eqb_spec tok "") as [->|Hne].
      * left. rewrite <- Ht, setToken_same. by destruct (Do _).
      * right. exists cfg, tok, sent. repeat split; try done. by destruct (Do _).
  - destruct (applyAuth_other f
                (HeaderSet "Accept" "application/json"
                   (HeaderSet "User-Agent" (userAgent f)
                      (Request.mk "GET" targetURL ∅ ""))) Ho) as (req' & Hother & _).
    specialize (Hother (token f)). rewrite setToken_same in Hother. rewrite Hother.
    left. by destruct (Do _).
Qed.

(** The token cache does not change what a fetch answers: whatever was
    fetched before, [Fetch] answers as [fetcher.Fetch] does over the
    network of the fetcher the run started with. *)
Lemma roundTrip_stable (f : Fetcher) (url url2 : string) :
  (roundTrip (roundTrip f url).1.2 url2).1.1 = (roundTrip f url2).1.1.
Proof.
  destruct (roundTrip_after f url) as [->|(cfg & tok & sent & Ho & Ht & Hne & Hg & ->)];
    [reflexivity|].
  unfold roundTrip. cbn [userAgent setToken].
  destruct (requestError "GET" url2) as [e|]; [reflexivity|]. cbv zeta.
  rewrite (applyAuth_oauth f _ cfg Ho), Hg.
  rewrite (applyAuth_oauth (setToken tok f) _ cfg) by exact Ho.
  unfold getOAuthToken at 1. cbn [token setToken].
  apply String.eqb_neq in Hne. rewrite Hne. cbn [negb].
  by destruct (Do _).
Qed.

End Requests.

(** ** The fetches of a run *)

Section FetchHistory.
Context `{JSONDecoder} `{fetcher.Network} `{auth.Transport}.

Import validator.

(** For a URL that does not end in gbfs.json, the URL [BuildFeedURL]
    builds for the manifest is the URL with /gbfs.json appended, or with
    gbfs.json after a final slash. *)
Lemma BuildFeedURL_alternate (gbfsURL : string) :
  HasSuffix gbfsURL "gbfs.json" = false ->
  fetcher.BuildFeedURL gbfsURL "gbfs" = alternateURL gbfsURL.
Proof.
  intros Hs. unfold fetcher.BuildFeedURL, alternateURL. rewrite Hs.
  by destruct (HasSuffix gbfsURL "/").
Qed.

Lemma Validate_trace (v : Validator) (gbfsURL : string) (tr : list string) :
  (Validate v gbfsURL tr).2 = (validateGBFS v gbfsURL tr).2 ++ documentFetches v gbfsURL.
Proof.
  destruct (validateGBFS_cases v gbfsURL tr) as (root & _ & Hcases).
  unfold Validate, bind, documentFetches.
  destruct (validateGBFS v gbfsURL tr) as [[[gbfsResult gbfsFeed] err] tr1].
  cbn [fst snd] in *.
  destruct (notFetched (manifestAnswer gbfsURL)).
  { destruct Hcases as ([= -> -> ->] & _). cbn. by rewrite app_nil_r. }
  destruct Hcases as (_ & Hcases).
  destruct (decodeGBFSFeed _) as [feed|].
  2:{ destruct Hcases as ([= -> -> ->] & _). cbn. by rewrite app_nil_r. }
  destruct Hcases as ([= -> -> ->] & _). unfold validatedVersion.
  set (ver := if String.eqb (Options.Version (options v)) "" then _ else _).
  destruct (GetFileRequirements_total ver
              (version.mkOptions (Options.Docked (options v))
                 (Options.Freefloating (options v)))) as [reqs ->].
  pose proof (validateFilesFrom_trace v (buildFeedURLMap feed gbfsURL) ver reqs ∅ tr1)
    as Htr.
  fold (validateFiles v (buildFeedURLMap feed gbfsURL) reqs ver tr1) in Htr.
  destruct (validateFiles v (buildFeedURLMap feed gbfsURL) reqs ver tr1) as [rs tr2].
  exact Htr.
Qed.


End FetchHistory.

